(** * AIVory Monitor Node.js agent: transport, debugger session, harvester
      and exception pipeline

    A shallow embedding of [src/transport/backend-connection.ts] (the
    [BackendConnection] and [InspectorManager] classes),
    [src/capture/exception-handler.ts], [src/config.ts] and [src/index.ts].

    Conventions of the embedding.
    - Objects shared by reference (the connection used by both the inspector
      manager and the exception handler, the inspector manager used by the
      exception handler) live once in the enclosing state and are threaded
      through every call.
    - Everything the code reads from outside (the clock, the random source,
      the answers of the debugger, the events of the socket) is an explicit
      argument of the function that reads it.
    - JavaScript strings are modelled as [string] (one [ascii] per code unit),
      insertion-ordered [Map] and [Set] as lists in insertion order,
      [process.env] and the lookup-only [scriptUrls] map as [gmap].
    - Integer-valued JavaScript numbers are [Z]; configuration numbers, which
      come out of [parseInt], are [num] (an integer or [NaN]).
    - [console.log] output is not part of the state. *)

From Stdlib Require Import ZArith NArith QArith List String Ascii Bool Lia.
From Stdlib Require Import Numbers.DecimalString Numbers.HexadecimalString.
From stdpp Require Import gmap strings.

Local Open Scope Z_scope.

(* ================================================================== *)
(** * JavaScript primitives used by the agent *)
(* ================================================================== *)

Module JS.

(** A string in a boolean position: only the empty string is falsy. *)
Definition truthy (s : string) : bool := negb (String.eqb s "").

(** [a || b] where [a] may be [undefined]. *)
Definition or_else (a : option string) (b : string) : string :=
  match a with
  | Some s => if truthy s then s else b
  | None => b
  end.

(** [a ?? b]. *)
Definition nullish {A} (a : option A) (b : A) : A :=
  match a with Some x => x | None => b end.

Definition LF : ascii := ascii_of_nat 10.
Definition CR : ascii := ascii_of_nat 13.

(** White space of [trim] and of the regular-expression class [\s]
    (the ASCII part of it). *)
Definition is_space (c : ascii) : bool :=
  let n := nat_of_ascii c in
  ((9 <=? n) && (n <=? 13))%nat || (n =? 32)%nat.

(** The regular-expression class [\d]. *)
Definition is_digit (c : ascii) : bool :=
  let n := nat_of_ascii c in ((48 <=? n) && (n <=? 57))%nat.

(** The regular-expression atom [.]: anything but a line terminator. *)
Definition is_dot (c : ascii) : bool :=
  negb (Ascii.eqb c LF || Ascii.eqb c CR).

(** [s.split(sep)] for a separator that matches exactly one character
    ([split('\n')], [split(/[/\\]/)]). *)
Fixpoint split_by (p : ascii -> bool) (s : string) : list string :=
  match s with
  | EmptyString => [EmptyString]
  | String c s' =>
      if p c then EmptyString :: split_by p s'
      else match split_by p s' with
           | h :: t => String c h :: t
           | [] => [String c EmptyString]
           end
  end.

Definition split_lines (s : string) : list string := split_by (Ascii.eqb LF) s.

(** [l.join(sep)]. *)
Fixpoint join (sep : string) (l : list string) : string :=
  match l with
  | [] => ""
  | [x] => x
  | x :: rest => x +:+ sep +:+ join sep rest
  end.

Definition rev_string (s : string) : string :=
  string_of_list_ascii (rev (list_ascii_of_string s)).

Fixpoint trim_start (s : string) : string :=
  match s with
  | EmptyString => EmptyString
  | String c s' => if is_space c then trim_start s' else s
  end.

(** [s.trim()]. *)
Definition trim (s : string) : string :=
  rev_string (trim_start (rev_string (trim_start s))).

(** [s.startsWith(p)]. *)
Definition startsWith (p s : string) : bool := String.prefix p s.

(** [s.indexOf(sub)], [None] for -1. *)
Definition indexOf (sub s : string) : option nat := String.index 0 sub s.

(** [s.includes(sub)]. *)
Definition includes (sub s : string) : bool :=
  match indexOf sub s with Some _ => true | None => false end.

(** [s.slice(n)] for [0 <= n]. *)
Definition slice_from (n : nat) (s : string) : string :=
  String.substring n (String.length s - n) s.

(** [s.substring(0, n)]. *)
Definition substring0 (n : nat) (s : string) : string := String.substring 0 n s.

(** [s.replace(sub, '')] with a string pattern: the first occurrence only. *)
Definition remove_first (sub s : string) : string :=
  match indexOf sub s with
  | Some i => substring0 i s +:+ slice_from (i + String.length sub) s
  | None => s
  end.

(** [parseInt(digits, 10)] on a string of decimal digits (exact, where
    JavaScript rounds beyond 2^53). *)
Definition digits_value (s : string) : Z :=
  fold_left (fun acc c => 10 * acc + (Z.of_nat (nat_of_ascii c) - 48))
            (list_ascii_of_string s) 0.

(** [String(n)] and [`${n}`] for an integer-valued number. *)
Definition num_to_string (z : Z) : string :=
  DecimalString.NilZero.string_of_int (Z.to_int z).

(** ** Numbers that may be [NaN] *)

Inductive num : Type :=
| Int (z : Z)
| NaN.

(** Every comparison with [NaN] is false. *)
Definition num_ltb (a b : num) : bool :=
  match a, b with Int x, Int y => x <? y | _, _ => false end.
Definition num_leb (a b : num) : bool :=
  match a, b with Int x, Int y => x <=? y | _, _ => false end.
Definition num_geb (a b : num) : bool := num_leb b a.
Definition num_pred (a : num) : num :=
  match a with Int x => Int (x - 1) | NaN => NaN end.

Fixpoint take_digits (s : string) : string :=
  match s with
  | String c s' => if is_digit c then String c (take_digits s') else EmptyString
  | EmptyString => EmptyString
  end.

(** [parseInt(s, 10)]: leading white space, an optional sign, then the
    longest run of digits; [NaN] when there is no digit. *)
Definition parseInt10 (s : string) : num :=
  let t := trim_start s in
  let '(neg, body) :=
    match t with
    | String c r =>
        if Ascii.eqb c "-" then (true, r)
        else if Ascii.eqb c "+" then (false, r)
        else (false, t)
    | EmptyString => (false, t)
    end in
  let ds := take_digits body in
  if truthy ds then Int (if neg then - digits_value ds else digits_value ds)
  else NaN.

(** ** Regular expressions

    The patterns of the agent use literals, character classes, [+] and [+?]
    on a character class, one optional group, capture groups and [$].  The
    matcher is a backtracking one, in continuation-passing style: the
    continuation is the rest of the pattern, and a failing continuation makes
    the quantifier try its next choice, in the order of the JavaScript
    semantics (greedy: longest first; lazy: shortest first). *)

Inductive regex : Type :=
| Chr (p : ascii -> bool)
| Seq (a b : regex)
| Opt (a : regex)
| PlusGreedy (p : ascii -> bool)
| PlusLazy (p : ascii -> bool)
| Group (n : nat) (a : regex)
| End.

Definition captures : Type := list (nat * string).

Fixpoint plus_greedy {R} (p : ascii -> bool) (s : string)
    (k : string -> option R) : option R :=
  match s with
  | String c s' =>
      if p c then
        match plus_greedy p s' k with
        | Some r => Some r
        | None => k s'
        end
      else None
  | EmptyString => None
  end.

Fixpoint plus_lazy {R} (p : ascii -> bool) (s : string)
    (k : string -> option R) : option R :=
  match s with
  | String c s' =>
      if p c then
        match k s' with
        | Some r => Some r
        | None => plus_lazy p s' k
        end
      else None
  | EmptyString => None
  end.

Fixpoint rmatch (r : regex) (s : string) (caps : captures)
    (k : string -> captures -> option captures) : option captures :=
  match r with
  | Chr p =>
      match s with
      | String c s' => if p c then k s' caps else None
      | EmptyString => None
      end
  | Seq a b => rmatch a s caps (fun s' caps' => rmatch b s' caps' k)
  | Opt a =>
      match rmatch a s caps k with
      | Some c => Some c
      | None => k s caps
      end
  | PlusGreedy p => plus_greedy p s (fun s' => k s' caps)
  | PlusLazy p => plus_lazy p s (fun s' => k s' caps)
  | Group n a =>
      rmatch a s caps (fun s' caps' =>
        k s' ((n, substring0 (String.length s - String.length s') s) :: caps'))
  | End =>
      match s with
      | EmptyString => k s caps
      | String _ _ => None
      end
  end.

(** A literal, character by character. *)
Fixpoint Lit (s : string) (rest : regex) : regex :=
  match s with
  | EmptyString => rest
  | String c s' => Seq (Chr (Ascii.eqb c)) (Lit s' rest)
  end.

(** [s.match(/^.../)]: the pattern is tried at the start only. *)
Definition match_anchored (r : regex) (s : string) : option captures :=
  rmatch r s [] (fun _ caps => Some caps).

(** [s.match(/.../)]: the leftmost start position that matches. *)
Fixpoint match_search (r : regex) (s : string) : option captures :=
  match rmatch r s [] (fun _ caps => Some caps) with
  | Some caps => Some caps
  | None =>
      match s with
      | String _ s' => match_search r s'
      | EmptyString => None
      end
  end.

(** The latest binding of a group wins. *)
Fixpoint group (n : nat) (caps : captures) : option string :=
  match caps with
  | [] => None
  | (m, s) :: rest => if (n =? m)%nat then Some s else group n rest
  end.

(** ** Insertion-ordered [Map<string, V>] *)

Section OrderedMap.
Context {V : Type}.

Definition omap : Type := list (string * V).

Fixpoint omap_get (k : string) (m : omap) : option V :=
  match m with
  | [] => None
  | (k', v) :: rest => if String.eqb k k' then Some v else omap_get k rest
  end.

(** [m.set(k, v)]: an existing key keeps its place, a new one goes last. *)
Fixpoint omap_set (k : string) (v : V) (m : omap) : omap :=
  match m with
  | [] => [(k, v)]
  | (k', v') :: rest =>
      if String.eqb k k' then (k', v) :: rest
      else (k', v') :: omap_set k v rest
  end.

(** [m.delete(k)]. *)
Fixpoint omap_delete (k : string) (m : omap) : omap :=
  match m with
  | [] => []
  | (k', v') :: rest =>
      if String.eqb k k' then rest else (k', v') :: omap_delete k rest
  end.

(** [m.keys().next().value]. *)
Definition omap_first_key (m : omap) : option string :=
  match m with
  | [] => None
  | (k, _) :: _ => Some k
  end.
End OrderedMap.
Arguments omap : clear implicits.

(** ** Insertion-ordered [Set<string>] *)

Definition oset : Type := list string.

Definition oset_has (x : string) (s : oset) : bool :=
  existsb (String.eqb x) s.

(** [s.add(x)]: a member keeps its place. *)
Definition oset_add (x : string) (s : oset) : oset :=
  if oset_has x s then s else s ++ [x].

(** [s.delete(x)]. *)
Fixpoint oset_delete (x : string) (s : oset) : oset :=
  match s with
  | [] => []
  | y :: rest => if String.eqb x y then rest else y :: oset_delete x rest
  end.

End JS.

(* ================================================================== *)
(** * Configuration ([src/config.ts]) *)
(* ================================================================== *)

Module Config.
Import JS.

Record UserInfo : Type := {
  user_id : option string;
  user_email : option string;
  user_username : option string
}.

Definition noUser : UserInfo :=
  {| user_id := None; user_email := None; user_username := None |}.

(** [ConfigOptions]; an absent field is [None].  The [gitContext] option and
    the release record resolved from it are left out: they are copied into
    outgoing payloads and nothing else reads them. *)
Record ConfigOptions : Type := {
  opt_apiKey : option string;
  opt_backendUrl : option string;
  opt_environment : option string;
  opt_samplingRate : option Q;
  opt_maxCaptureDepth : option num;
  opt_maxStringLength : option num;
  opt_maxCollectionSize : option num;
  opt_enableBreakpoints : option bool;
  opt_enableSourceMaps : option bool;
  opt_debug : option bool;
  opt_scopeDepth : option num
}.

Definition noOptions : ConfigOptions :=
  {| opt_apiKey := None; opt_backendUrl := None; opt_environment := None;
     opt_samplingRate := None; opt_maxCaptureDepth := None;
     opt_maxStringLength := None; opt_maxCollectionSize := None;
     opt_enableBreakpoints := None; opt_enableSourceMaps := None;
     opt_debug := None; opt_scopeDepth := None |}.

(** What the constructor reads from the process: [process.env],
    [os.hostname()], [Date.now()] and the hexadecimal form of
    [crypto.randomBytes(4)]. *)
Record Host : Type := {
  env : gmap string string;
  os_hostname : string;
  clock : Z;
  random_hex : string
}.

Record AgentConfig : Type := {
  apiKey : string;
  backendUrl : string;
  environment : string;
  samplingRate : option Q;          (* [None] is NaN *)
  maxCaptureDepth : num;
  maxStringLength : num;
  maxCollectionSize : num;
  enableBreakpoints : bool;
  enableSourceMaps : bool;
  debug : bool;
  hostname : string;
  agentId : string;
  scopeDepth : num;
  customContext : list (string * string);
  user : UserInfo
}.

(** [parseFloat] on a plain decimal literal: optional sign, digits, optional
    fraction.  Exponents and [Infinity] are outside the model. *)
Definition parseFloat (s : string) : option Q :=
  let t := trim_start s in
  let '(neg, body) :=
    match t with
    | String c r =>
        if Ascii.eqb c "-" then (true, r)
        else if Ascii.eqb c "+" then (false, r)
        else (false, t)
    | EmptyString => (false, t)
    end in
  let ip := take_digits body in
  let rest := slice_from (String.length ip) body in
  let fp :=
    match rest with
    | String c r => if Ascii.eqb c "." then take_digits r else EmptyString
    | EmptyString => EmptyString
    end in
  if truthy ip || truthy fp then
    let scale := Z.pow 10 (Z.of_nat (String.length fp)) in
    let mag := Qmake (digits_value ip * scale + digits_value fp) (Z.to_pos scale) in
    Some (if neg then Qopp mag else mag)
  else None.

Definition hex_string (z : Z) : string :=
  HexadecimalString.NilZero.string_of_uint (N.to_hex_uint (Z.to_N z)).

(** [generateAgentId]. *)
Definition generateAgentId (h : Host) : string :=
  "agent-" +:+ hex_string (clock h) +:+ "-" +:+ random_hex h.

(** The constructor of [AgentConfig]. *)
Definition new_AgentConfig (options : ConfigOptions) (h : Host) : AgentConfig :=
  let e (name : string) : option string := env h !! name in
  {| apiKey := or_else (opt_apiKey options) (or_else (e "AIVORY_API_KEY") "");
     backendUrl := or_else (opt_backendUrl options)
                     (or_else (e "AIVORY_BACKEND_URL") "wss://api.aivory.net/ws/agent");
     environment := or_else (opt_environment options)
                      (or_else (e "AIVORY_ENVIRONMENT") "production");
     samplingRate :=
       match opt_samplingRate options with
       | Some q => Some q
       | None => parseFloat (or_else (e "AIVORY_SAMPLING_RATE") "1.0")
       end;
     maxCaptureDepth := nullish (opt_maxCaptureDepth options)
                          (parseInt10 (or_else (e "AIVORY_MAX_DEPTH") "10"));
     maxStringLength := nullish (opt_maxStringLength options)
                          (parseInt10 (or_else (e "AIVORY_MAX_STRING_LENGTH") "1000"));
     maxCollectionSize := nullish (opt_maxCollectionSize options)
                            (parseInt10 (or_else (e "AIVORY_MAX_COLLECTION_SIZE") "100"));
     enableBreakpoints := nullish (opt_enableBreakpoints options)
                            (negb (bool_decide (e "AIVORY_ENABLE_BREAKPOINTS" = Some "false")));
     enableSourceMaps := nullish (opt_enableSourceMaps options)
                           (negb (bool_decide (e "AIVORY_ENABLE_SOURCEMAPS" = Some "false")));
     debug := nullish (opt_debug options)
                (bool_decide (e "AIVORY_DEBUG" = Some "true"));
     hostname := os_hostname h;
     agentId := generateAgentId h;
     scopeDepth := nullish (opt_scopeDepth options)
                     (parseInt10 (or_else (e "AIVORY_SCOPE_DEPTH") "0"));
     customContext := [];
     user := noUser |}.

(** [shouldSample()]; [random] is the value of [Math.random()]. *)
Definition shouldSample (c : AgentConfig) (random : Q) : bool :=
  match samplingRate c with
  | Some r =>
      if Qle_bool 1 r then true
      else if Qle_bool r 0 then false
      else negb (Qle_bool r random)
  | None => false
  end.

Definition setCustomContext (ctx : list (string * string)) (c : AgentConfig)
    : AgentConfig :=
  {| apiKey := apiKey c; backendUrl := backendUrl c; environment := environment c;
     samplingRate := samplingRate c; maxCaptureDepth := maxCaptureDepth c;
     maxStringLength := maxStringLength c; maxCollectionSize := maxCollectionSize c;
     enableBreakpoints := enableBreakpoints c; enableSourceMaps := enableSourceMaps c;
     debug := debug c; hostname := hostname c; agentId := agentId c;
     scopeDepth := scopeDepth c; customContext := ctx; user := user c |}.

Definition setUser (u : UserInfo) (c : AgentConfig) : AgentConfig :=
  {| apiKey := apiKey c; backendUrl := backendUrl c; environment := environment c;
     samplingRate := samplingRate c; maxCaptureDepth := maxCaptureDepth c;
     maxStringLength := maxStringLength c; maxCollectionSize := maxCollectionSize c;
     enableBreakpoints := enableBreakpoints c; enableSourceMaps := enableSourceMaps c;
     debug := debug c; hostname := hostname c; agentId := agentId c;
     scopeDepth := scopeDepth c; customContext := customContext c; user := u |}.

End Config.

(* ================================================================== *)
(** * Captured data ([src/capture/exception-handler.ts], interfaces) *)
(* ================================================================== *)

Module Types.
Import JS.

(** [CapturedVariable].  A [Record<string, V>] is kept as the list of its
    entries in assignment order. *)
#[local] Unset Elimination Schemes.
Inductive CapturedVariable : Type := mkCaptured {
  name : string;
  type : string;
  value : string;
  isNull : bool;
  isTruncated : bool;
  children : option (list (string * CapturedVariable));
  arrayElements : option (list CapturedVariable);
  arrayLength : option Z
}.
#[local] Set Elimination Schemes.

(** [StackFrame]. *)
Record StackFrame : Type := {
  className : option string;
  methodName : string;
  fileName : option string;
  filePath : option string;
  lineNumber : option Z;
  columnNumber : option Z;
  isNative : bool;
  sourceAvailable : bool
}.

(** A JavaScript [Error] as the agent reads it. *)
Record JSError : Type := {
  err_name : string;
  err_message : string;
  err_stack : option string
}.

(** The first 16 hexadecimal characters of the SHA-256 digest of a text.
    The digest is not computed: the value records what was hashed. *)
Inductive Digest : Type :=
| Sha256Hex16 (preimage : string).

(** A value of the free-form [context]: serialised data, or the [user]
    record the configuration holds. *)
Inductive ContextValue : Type :=
| CtxData (text : string)
| CtxUser (u : Config.UserInfo).

(** [ExceptionCapture]. *)
Record ExceptionCapture : Type := {
  id : string;
  exceptionType : string;
  message : string;
  fingerprint : Digest;
  stackTrace : list StackFrame;
  localVariables : omap CapturedVariable;
  context : omap ContextValue;
  capturedAt : string
}.

(** One entry of the [stack_trace] a harvest produces. *)
Record HarvestFrame : Type := {
  method_name : string;
  file_path : string;
  file_name : string;
  line_number : Z;
  column_number : Z;
  is_native : bool;
  source_available : bool
}.

(** The result of [captureCallFramesAsync]. *)
Record CapturedData : Type := {
  stack_trace : list HarvestFrame;
  local_variables : omap CapturedVariable
}.

End Types.

(* ================================================================== *)
(** * Transport ([BackendConnection]) *)
(* ================================================================== *)

Module Transport.
Import JS Config Types.

Inductive ReadyState : Type := CONNECTING | OPEN | CLOSING | CLOSED.

Definition is_open (ws : option ReadyState) : bool :=
  match ws with Some OPEN => true | _ => false end.

(** [BreakpointPayload]. *)
Record BreakpointPayload : Type := {
  bp_id : string;
  bp_file_path : string;
  bp_line_number : Z;
  bp_condition : option string
}.

(** What the agent puts in the [payload] of a message.  The constant runtime
    identifiers ([runtime], [platform], ...) are left out. *)
Inductive Payload : Type :=
| PRegister (api_key agent_id hostname environment agent_version : string)
| PException (capture : ExceptionCapture) (agent_id environment : string)
| PBreakpointHit (breakpoint_id agent_id captured_at : string) (data : CapturedData)
| PHeartbeat (timestamp : Z) (agent_id : string).

(** [Message].  The queue and the socket carry [JSON.stringify(message)];
    the model keeps the message itself. *)
Record Message : Type := {
  msg_type : string;
  msg_payload : Payload;
  msg_timestamp : Z
}.

(** Events the connection emits for its subscribers. *)
Inductive Emitted : Type :=
| EmitSetBreakpoint (p : BreakpointPayload)
| EmitRemoveBreakpoint (id : string).

(** The fields of [BackendConnection], then what it did to the outside:
    [wire] lists the frames handed to [ws.send], oldest first; [timers] the
    delays of the reconnect timers, oldest first; [sockets] counts the
    [new WebSocket] calls that returned. *)
Record BackendConnection : Type := {
  ws : option ReadyState;
  connected : bool;
  authenticated : bool;
  reconnectAttempts : Z;
  maxReconnectAttempts : Z;
  reconnectDelay : Z;
  heartbeatInterval : bool;
  messageQueue : list Message;
  wire : list Message;
  timers : list Z;
  sockets : nat;
  emitted : list Emitted
}.

Definition new_BackendConnection : BackendConnection :=
  {| ws := None; connected := false; authenticated := false;
     reconnectAttempts := 0; maxReconnectAttempts := 10; reconnectDelay := 1000;
     heartbeatInterval := false; messageQueue := []; wire := []; timers := [];
     sockets := 0; emitted := [] |}.

Definition set_ws (x : option ReadyState) (c : BackendConnection) :=
  {| ws := x; connected := connected c; authenticated := authenticated c;
     reconnectAttempts := reconnectAttempts c;
     maxReconnectAttempts := maxReconnectAttempts c;
     reconnectDelay := reconnectDelay c; heartbeatInterval := heartbeatInterval c;
     messageQueue := messageQueue c; wire := wire c; timers := timers c;
     sockets := sockets c; emitted := emitted c |}.

Definition set_connected (x : bool) (c : BackendConnection) :=
  {| ws := ws c; connected := x; authenticated := authenticated c;
     reconnectAttempts := reconnectAttempts c;
     maxReconnectAttempts := maxReconnectAttempts c;
     reconnectDelay := reconnectDelay c; heartbeatInterval := heartbeatInterval c;
     messageQueue := messageQueue c; wire := wire c; timers := timers c;
     sockets := sockets c; emitted := emitted c |}.

Definition set_authenticated (x : bool) (c : BackendConnection) :=
  {| ws := ws c; connected := connected c; authenticated := x;
     reconnectAttempts := reconnectAttempts c;
     maxReconnectAttempts := maxReconnectAttempts c;
     reconnectDelay := reconnectDelay c; heartbeatInterval := heartbeatInterval c;
     messageQueue := messageQueue c; wire := wire c; timers := timers c;
     sockets := sockets c; emitted := emitted c |}.

Definition set_reconnectAttempts (x : Z) (c : BackendConnection) :=
  {| ws := ws c; connected := connected c; authenticated := authenticated c;
     reconnectAttempts := x;
     maxReconnectAttempts := maxReconnectAttempts c;
     reconnectDelay := reconnectDelay c; heartbeatInterval := heartbeatInterval c;
     messageQueue := messageQueue c; wire := wire c; timers := timers c;
     sockets := sockets c; emitted := emitted c |}.

Definition set_maxReconnectAttempts (x : Z) (c : BackendConnection) :=
  {| ws := ws c; connected := connected c; authenticated := authenticated c;
     reconnectAttempts := reconnectAttempts c;
     maxReconnectAttempts := x;
     reconnectDelay := reconnectDelay c; heartbeatInterval := heartbeatInterval c;
     messageQueue := messageQueue c; wire := wire c; timers := timers c;
     sockets := sockets c; emitted := emitted c |}.

Definition set_heartbeatInterval (x : bool) (c : BackendConnection) :=
  {| ws := ws c; connected := connected c; authenticated := authenticated c;
     reconnectAttempts := reconnectAttempts c;
     maxReconnectAttempts := maxReconnectAttempts c;
     reconnectDelay := reconnectDelay c; heartbeatInterval := x;
     messageQueue := messageQueue c; wire := wire c; timers := timers c;
     sockets := sockets c; emitted := emitted c |}.

Definition set_messageQueue (x : list Message) (c : BackendConnection) :=
  {| ws := ws c; connected := connected c; authenticated := authenticated c;
     reconnectAttempts := reconnectAttempts c;
     maxReconnectAttempts := maxReconnectAttempts c;
     reconnectDelay := reconnectDelay c; heartbeatInterval := heartbeatInterval c;
     messageQueue := x; wire := wire c; timers := timers c;
     sockets := sockets c; emitted := emitted c |}.

(** [ws.send(frame)]. *)
Definition ws_send (m : Message) (c : BackendConnection) :=
  {| ws := ws c; connected := connected c; authenticated := authenticated c;
     reconnectAttempts := reconnectAttempts c;
     maxReconnectAttempts := maxReconnectAttempts c;
     reconnectDelay := reconnectDelay c; heartbeatInterval := heartbeatInterval c;
     messageQueue := messageQueue c; wire := wire c ++ [m]; timers := timers c;
     sockets := sockets c; emitted := emitted c |}.

(** [setTimeout(() => this.connect(), delay)]. *)
Definition set_timer (delay : Z) (c : BackendConnection) :=
  {| ws := ws c; connected := connected c; authenticated := authenticated c;
     reconnectAttempts := reconnectAttempts c;
     maxReconnectAttempts := maxReconnectAttempts c;
     reconnectDelay := reconnectDelay c; heartbeatInterval := heartbeatInterval c;
     messageQueue := messageQueue c; wire := wire c; timers := timers c ++ [delay];
     sockets := sockets c; emitted := emitted c |}.

Definition open_socket (c : BackendConnection) :=
  {| ws := Some CONNECTING; connected := connected c;
     authenticated := authenticated c;
     reconnectAttempts := reconnectAttempts c;
     maxReconnectAttempts := maxReconnectAttempts c;
     reconnectDelay := reconnectDelay c; heartbeatInterval := heartbeatInterval c;
     messageQueue := messageQueue c; wire := wire c; timers := timers c;
     sockets := S (sockets c); emitted := emitted c |}.

Definition emit (e : Emitted) (c : BackendConnection) :=
  {| ws := ws c; connected := connected c; authenticated := authenticated c;
     reconnectAttempts := reconnectAttempts c;
     maxReconnectAttempts := maxReconnectAttempts c;
     reconnectDelay := reconnectDelay c; heartbeatInterval := heartbeatInterval c;
     messageQueue := messageQueue c; wire := wire c; timers := timers c;
     sockets := sockets c; emitted := emitted c ++ [e] |}.

(** [send(type, payload)]; [now] is [Date.now()]. *)
Definition send (now : Z) (type : string) (payload : Payload)
    (c : BackendConnection) : BackendConnection :=
  let message := {| msg_type := type; msg_payload := payload; msg_timestamp := now |} in
  if is_open (ws c) && authenticated c then ws_send message c
  else
    (* Queue message for later *)
    let q := messageQueue c ++ [message] in
    (* Limit queue size *)
    if (100 <? Z.of_nat (length q)) then set_messageQueue (tl q) c
    else set_messageQueue q c.

(** [sendException(capture)]. *)
Definition sendException (cfg : AgentConfig) (now : Z) (capture : ExceptionCapture)
    (c : BackendConnection) : BackendConnection :=
  send now "exception" (PException capture (agentId cfg) (environment cfg)) c.

(** [sendBreakpointHit(breakpointId, data)]. *)
Definition sendBreakpointHit (cfg : AgentConfig) (now : Z) (breakpointId : string)
    (captured_at : string) (data : CapturedData) (c : BackendConnection)
    : BackendConnection :=
  send now "breakpoint_hit" (PBreakpointHit breakpointId (agentId cfg) captured_at data) c.

(** [authenticate()]. *)
Definition authenticate (cfg : AgentConfig) (now : Z) (c : BackendConnection)
    : BackendConnection :=
  let message :=
    {| msg_type := "register";
       msg_payload := PRegister (apiKey cfg) (agentId cfg) (hostname cfg)
                        (environment cfg) "1.0.0";
       msg_timestamp := now |} in
  match ws c with
  | Some _ => ws_send message c
  | None => c
  end.

Definition stopHeartbeat (c : BackendConnection) : BackendConnection :=
  if heartbeatInterval c then set_heartbeatInterval false c else c.

Definition startHeartbeat (c : BackendConnection) : BackendConnection :=
  set_heartbeatInterval true (stopHeartbeat c).

(** The loop of [handleRegistered]: shift the head, send it if the socket is
    open, until the queue is empty. *)
Fixpoint drain (q : list Message) (c : BackendConnection) : BackendConnection :=
  match q with
  | [] => set_messageQueue [] c
  | msg :: rest =>
      let c1 := set_messageQueue rest c in
      drain rest (if is_open (ws c1) then ws_send msg c1 else c1)
  end.

(** [handleRegistered()]. *)
Definition handleRegistered (c : BackendConnection) : BackendConnection :=
  let c1 := startHeartbeat (set_authenticated true c) in
  drain (messageQueue c1) c1.

(** [disconnect()]. *)
Definition disconnect (c : BackendConnection) : BackendConnection :=
  let c1 := stopHeartbeat c in
  let c2 := match ws c1 with
            | Some _ => set_ws None c1
            | None => c1
            end in
  set_authenticated false (set_connected false c2).

(** [handleError(payload)]. *)
Definition handleError (code : option string) (c : BackendConnection)
    : BackendConnection :=
  if bool_decide (code = Some "auth_error") || bool_decide (code = Some "invalid_api_key")
  then disconnect (set_maxReconnectAttempts 0 c)
  else c.

(** [scheduleReconnect()]. *)
Definition scheduleReconnect (c : BackendConnection) : BackendConnection :=
  if maxReconnectAttempts c <=? reconnectAttempts c then c
  else
    let c1 := set_reconnectAttempts (reconnectAttempts c + 1) c in
    let delay := Z.min (reconnectDelay c1 * 2 ^ (reconnectAttempts c1 - 1)) 60000 in
    set_timer delay c1.

(** [connect()]; [ctor_throws] tells whether [new WebSocket] throws. *)
Definition connect (ctor_throws : bool) (c : BackendConnection) : BackendConnection :=
  if connected c then c
  else if ctor_throws then scheduleReconnect c
  else open_socket c.

(** The listeners [connect()] puts on the socket. *)
Definition on_open (cfg : AgentConfig) (now : Z) (c : BackendConnection)
    : BackendConnection :=
  let c0 := match ws c with Some _ => set_ws (Some OPEN) c | None => c end in
  authenticate cfg now (set_reconnectAttempts 0 (set_connected true c0)).

Definition on_close (c : BackendConnection) : BackendConnection :=
  let c0 := match ws c with Some _ => set_ws (Some CLOSED) c | None => c end in
  scheduleReconnect (stopHeartbeat (set_authenticated false (set_connected false c0))).

(** A frame from the collector after [JSON.parse]; [InMalformed] is a frame
    that does not parse. *)
Inductive Inbound : Type :=
| InRegistered
| InError (code : option string)
| InSetBreakpoint (p : BreakpointPayload)
| InRemoveBreakpoint (id : string)
| InOther (type : string)
| InMalformed.

(** [handleMessage(data)]. *)
Definition handleMessage (m : Inbound) (c : BackendConnection) : BackendConnection :=
  match m with
  | InRegistered => handleRegistered c
  | InError code => handleError code c
  | InSetBreakpoint p => emit (EmitSetBreakpoint p) c
  | InRemoveBreakpoint i => emit (EmitRemoveBreakpoint i) c
  | InOther _ => c
  | InMalformed => c
  end.

(** The heartbeat timer's callback. *)
Definition heartbeat_tick (cfg : AgentConfig) (now : Z) (c : BackendConnection)
    : BackendConnection :=
  send now "heartbeat" (PHeartbeat now (agentId cfg)) c.

(** Everything that can happen to a connection, as one event type. *)
Inductive Event : Type :=
| EvConnect (ctor_throws : bool)     (* a call of [connect()], also from a timer *)
| EvOpen (now : Z)
| EvMessage (m : Inbound)
| EvClose
| EvSocketError
| EvSend (now : Z) (type : string) (payload : Payload)
| EvHeartbeat (now : Z)
| EvDisconnect.

Definition step (cfg : AgentConfig) (c : BackendConnection) (e : Event)
    : BackendConnection :=
  match e with
  | EvConnect t => connect t c
  | EvOpen now => on_open cfg now c
  | EvMessage m => handleMessage m c
  | EvClose => on_close c
  | EvSocketError => c
  | EvSend now type payload => send now type payload c
  | EvHeartbeat now => heartbeat_tick cfg now c
  | EvDisconnect => disconnect c
  end.

Definition run (cfg : AgentConfig) (c : BackendConnection) (es : list Event)
    : BackendConnection :=
  fold_left (step cfg) es c.

(** [isConnected()]: the state called Registered. *)
Definition isConnected (c : BackendConnection) : bool :=
  connected c && authenticated c.

End Transport.

(* ================================================================== *)
(** * Debugger protocol data *)
(* ================================================================== *)

Module Debugger.
Import JS.

(** [Runtime.RemoteObject], one constructor per [type] the harvester
    distinguishes, each with the fields the harvester reads.  A [number] is
    integer-valued here. *)
Inductive RemoteObject : Type :=
| RUndefined
| RBoolean (b : bool)
| RNumber (z : Z)
| RString (s : string)
| RSymbol (description : option string)
| RFunction (description : option string)
| RObject (subtype className description objectId : option string)
| RBigint (description unserializableValue : option string)
| ROther (type : string) (description : option string) (value_text : string).

(** [Runtime.PropertyDescriptor]. *)
Record PropertyDescriptor : Type := {
  prop_name : string;
  prop_value : option RemoteObject
}.

(** The answer to [Runtime.getProperties] for each object id while the host
    is paused; [None] is an error or an empty response. *)
Definition Heap : Type := string -> option (list PropertyDescriptor).

Record Location : Type := {
  scriptId : string;
  loc_lineNumber : Z;
  loc_columnNumber : Z
}.

Record Scope : Type := {
  scope_type : string;
  scope_objectId : option string
}.

(** [Debugger.CallFrame]. *)
Record CallFrame : Type := {
  functionName : string;
  location : Location;
  scopeChain : list Scope
}.

(** The [data] of a pause: the thrown value as a remote object, of which the
    session reads [className] and [description]. *)
Record ExceptionData : Type := {
  data_className : option string;
  data_description : option string
}.

(** The parameters of [Debugger.paused]. *)
Record PausedEvent : Type := {
  callFrames : list CallFrame;
  hitBreakpoints : option (list string);
  reason : string;
  data : option ExceptionData
}.

(** Commands posted to the debugger ([Runtime.getProperties] apart, whose
    answers are the [Heap]). *)
Inductive Command : Type :=
| DebuggerEnable
| SetPauseOnExceptions (state : string)
| SetBreakpointByUrl (lineNumber : Z) (urlRegex condition : string)
| RemoveBreakpoint (breakpointId : string)
| DebuggerResume
| DebuggerDisable.

Definition is_resume (c : Command) : bool :=
  match c with DebuggerResume => true | _ => false end.

End Debugger.

(* ================================================================== *)
(** * Variable harvester (the capture half of [InspectorManager]) *)
(* ================================================================== *)

Module Harvester.
Import JS Config Types Debugger.

(** [/Array\((\d+)\)/] *)
Definition array_re : regex :=
  Lit "Array(" (Seq (Group 1 (PlusGreedy is_digit)) (Chr (Ascii.eqb ")"))).

(** [/^\d+$/] *)
Definition index_re : regex := Seq (PlusGreedy is_digit) End.

Definition is_some_truthy (o : option string) : bool :=
  match o with Some s => truthy s | None => false end.

(** [isGlobalBuiltin(name)]. *)
Definition globalBuiltins : list string :=
  [ "process"; "console"; "global"; "globalThis";
    "module"; "exports"; "require"; "__filename"; "__dirname";
    "Buffer"; "setImmediate"; "clearImmediate";
    "setInterval"; "clearInterval"; "setTimeout"; "clearTimeout";
    "queueMicrotask"; "performance"; "fetch";
    "arguments"; "this" ].

Definition isGlobalBuiltin (name : string) : bool :=
  existsb (String.eqb name) globalBuiltins.

(** [getFileName(url)]: the part after the last slash or backslash. *)
Definition getFileName (url : string) : string :=
  List.last (split_by (fun c => Ascii.eqb c "/" || Ascii.eqb c "\") url) "".

Section Harvest.
Variable cfg : AgentConfig.
(** [this.session] is not null. *)
Variable session : bool.
Variable heap : Heap.

(** [shouldCaptureScope(scopeType)]. *)
Definition shouldCaptureScope (scopeType : string) : bool :=
  let local_like :=
    String.eqb scopeType "local" || String.eqb scopeType "catch"
    || String.eqb scopeType "block" in
  match scopeDepth cfg with
  | Int 0 => local_like
  | Int 1 => local_like || String.eqb scopeType "closure"
  | _ => negb (String.eqb scopeType "global")
  end.

(** The body of [getArrayElements(objectId, depth)] over the function that
    captures one property. *)
Definition getArrayElements_with
    (capture : PropertyDescriptor -> Z -> option CapturedVariable)
    (objectId : string) (depth : Z) : list CapturedVariable :=
  if negb session then []
  else match heap objectId with
       | None => []
       | Some props =>
           fold_left
             (fun elements prop =>
                (* Array indices are numeric strings *)
                if bool_decide (is_Some (match_anchored index_re (prop_name prop))) then
                  match capture prop depth with
                  | Some captured => elements ++ [captured]
                  | None => elements
                  end
                else elements)
             props []
       end.

(** The body of [getObjectProperties(objectId, depth)]. *)
Definition getObjectProperties_with
    (capture : PropertyDescriptor -> Z -> option CapturedVariable)
    (objectId : option string) (depth : Z) : omap CapturedVariable :=
  if negb session || num_geb (Int depth) (maxCaptureDepth cfg) then []
  else match from_option heap None objectId with
       | None => []
       | Some props =>
           fold_left
             (fun properties prop =>
                (* Skip internal properties *)
                if startsWith "__" (prop_name prop)
                   || String.eqb (prop_name prop) "constructor"
                then properties
                else match capture prop depth with
                     | Some captured => omap_set (prop_name prop) captured properties
                     | None => properties
                     end)
             props []
       end.

(** The array length read from a description such as [Array(5)]. *)
Definition parse_array_length (description : option string) : Z :=
  match description with
  | Some d =>
      match match_search array_re d with
      | Some caps => digits_value (default "" (group 1 caps))
      | None => 0
      end
  | None => 0
  end.

(** [capturePropertyValue(prop, depth)].  The nested calls go one level
    deeper and are guarded by [depth < maxCaptureDepth - 1]; [fuel] bounds
    their nesting and is set by [budget] below. *)
Fixpoint capturePropertyValue_fuel (fuel : nat) (prop : PropertyDescriptor)
    (depth : Z) {struct fuel} : option CapturedVariable :=
  match prop_value prop with
  | None => None
  | Some value =>
      let name := prop_name prop in
      Some
        match value with
        | RUndefined =>
            mkCaptured name "undefined" "undefined" false false None None None
        | RBoolean b =>
            mkCaptured name "boolean" (if b then "true" else "false")
                       false false None None None
        | RNumber z =>
            mkCaptured name "number" (num_to_string z) false false None None None
        | RString strValue =>
            if (500 <? String.length strValue)%nat then
              mkCaptured name "string" (substring0 500 strValue)
                         false true None None None
            else
              mkCaptured name "string" strValue false false None None None
        | RSymbol description =>
            mkCaptured name "symbol" (or_else description "Symbol")
                       false false None None None
        | RFunction description =>
            mkCaptured name "function" (or_else description "[Function]")
                       false false None None None
        | RObject subtype className description objectId =>
            if bool_decide (subtype = Some "null") then
              mkCaptured name "null" "null" true false None None None
            else if bool_decide (subtype = Some "array") then
              (* Get array length from description (e.g., "Array(5)") *)
              let arrayLength := parse_array_length description in
              (* Capture array elements if not too deep *)
              let elements :=
                if num_ltb (Int depth) (num_pred (maxCaptureDepth cfg))
                   && is_some_truthy objectId && (arrayLength <=? 100)
                then match fuel with
                     | S fuel' =>
                         getArrayElements_with (capturePropertyValue_fuel fuel')
                           (default "" objectId) (depth + 1)
                     | O => []
                     end
                else [] in
              mkCaptured name "array" (or_else description "[]") false false None
                         (if (0 <? length elements)%nat then Some elements else None)
                         (Some arrayLength)
            else if bool_decide (subtype = Some "error") then
              mkCaptured name "error" (or_else description "[Error]")
                         false false None None None
            else if bool_decide (subtype = Some "date") then
              mkCaptured name "date" (or_else description "[Date]")
                         false false None None None
            else if bool_decide (subtype = Some "regexp") then
              mkCaptured name "regexp" (or_else description "[RegExp]")
                         false false None None None
            else if bool_decide (subtype = Some "map") then
              mkCaptured name "map" (or_else description "[Map]")
                         false false None None None
            else if bool_decide (subtype = Some "set") then
              mkCaptured name "set" (or_else description "[Set]")
                         false false None None None
            else
              (* Regular object *)
              let children :=
                if num_ltb (Int depth) (num_pred (maxCaptureDepth cfg))
                   && is_some_truthy objectId
                then match fuel with
                     | S fuel' =>
                         getObjectProperties_with (capturePropertyValue_fuel fuel')
                           objectId (depth + 1)
                     | O => []
                     end
                else [] in
              mkCaptured name (or_else className "object") (or_else description "{}")
                         false false
                         (if (0 <? length children)%nat then Some children else None)
                         None None
        | RBigint description unserializableValue =>
            mkCaptured name "bigint"
                       (or_else description (or_else unserializableValue "0n"))
                       false false None None None
        | ROther type description value_text =>
            mkCaptured name type (or_else description value_text)
                       false false None None None
        end
  end.

(** Nested expansions left at [depth]: each needs [depth < maxCaptureDepth - 1]
    and moves to [depth + 1]. *)
Definition budget (depth : Z) : nat :=
  match maxCaptureDepth cfg with
  | Int m => Z.to_nat (m - depth)
  | NaN => 0%nat
  end.

Definition capturePropertyValue (prop : PropertyDescriptor) (depth : Z)
    : option CapturedVariable :=
  capturePropertyValue_fuel (budget depth) prop depth.

Definition getObjectProperties (objectId : option string) (depth : Z)
    : omap CapturedVariable :=
  getObjectProperties_with capturePropertyValue objectId depth.

Definition getArrayElements (objectId : string) (depth : Z)
    : list CapturedVariable :=
  getArrayElements_with capturePropertyValue objectId depth.

(** The variables one frame contributes, scope by scope. *)
Definition capture_scopes (scriptUrls : gmap string string) (i : nat)
    (frame : CallFrame) (localVariables : omap CapturedVariable)
    : omap CapturedVariable :=
  let framePrefix :=
    if (i =? 0)%nat then "" else "frame" +:+ num_to_string (Z.of_nat i) +:+ "." in
  fold_left
    (fun locals scope =>
       if shouldCaptureScope (scope_type scope) then
         fold_left
           (fun locals' '(name, value) =>
              (* Skip common global built-ins that add noise *)
              if isGlobalBuiltin name then locals'
              else omap_set (framePrefix +:+ name) value locals')
           (getObjectProperties (scope_objectId scope) 0) locals
       else locals)
    (scopeChain frame) localVariables.

Definition harvest_frame (scriptUrls : gmap string string) (frame : CallFrame)
    : HarvestFrame :=
  let scriptUrl := or_else (scriptUrls !! scriptId (location frame)) "" in
  {| method_name := or_else (Some (functionName frame)) "<anonymous>";
     file_path := scriptUrl;
     file_name := getFileName scriptUrl;
     line_number := loc_lineNumber (location frame) + 1;
     column_number := loc_columnNumber (location frame);
     is_native := startsWith "native " scriptUrl;
     source_available :=
       negb (includes "node_modules" scriptUrl) && negb (startsWith "node:" scriptUrl) |}.

(** The loop of [captureCallFramesAsync]: frames [i], [i+1], ... *)
Fixpoint capture_frames (scriptUrls : gmap string string) (i : nat)
    (frames : list CallFrame) (acc : CapturedData) : CapturedData :=
  match frames with
  | [] => acc
  | frame :: rest =>
      let st := stack_trace acc ++ [harvest_frame scriptUrls frame] in
      let lv :=
        if num_ltb (Int (Z.of_nat i)) (maxCaptureDepth cfg)
        then capture_scopes scriptUrls i frame (local_variables acc)
        else local_variables acc in
      capture_frames scriptUrls (S i) rest
        {| stack_trace := st; local_variables := lv |}
  end.

(** [captureCallFramesAsync(callFrames)]. *)
Definition captureCallFramesAsync (scriptUrls : gmap string string)
    (callFrames : list CallFrame) : CapturedData :=
  capture_frames scriptUrls 0 (firstn 50 callFrames)
    {| stack_trace := []; local_variables := [] |}.

End Harvest.

End Harvester.

(* ================================================================== *)
(** * Debugger session ([InspectorManager]) *)
(* ================================================================== *)

Module Inspector.
Import JS Config Types Debugger Harvester.

Record Breakpoint : Type := {
  bk_id : string;
  bk_backendId : string;
  bk_lineNumber : Z;
  bk_condition : option string
}.

Record CapturedExceptionData : Type := {
  ced_stackTrace : list HarvestFrame;
  ced_localVariables : omap CapturedVariable;
  ced_capturedAt : string
}.

Record CachedLocals : Type := {
  locals : omap CapturedVariable;
  cached_stackTrace : list HarvestFrame;
  timestamp : Z
}.

(** [PendingCapture]: the promise is the harvest in flight, of which the
    state keeps the time it started. *)
Record PendingCapture : Type := {
  pending_timestamp : Z
}.

(** The fields of [InspectorManager], then [posted]: the commands posted to
    the debugger, oldest first. *)
Record InspectorManager : Type := {
  session : bool;
  enabled : bool;
  breakpoints : omap Breakpoint;
  scriptUrls : gmap string string;
  lastExceptionData : option CapturedExceptionData;
  exceptionPauseEnabled : bool;
  sentExceptionFingerprints : oset;
  localsCache : omap CachedLocals;
  pendingCaptures : omap PendingCapture;
  rateLimitCount : Z;
  rateLimitReset : Z;
  posted : list Command
}.

Definition cacheMaxAge : Z := 5000.
Definition rateLimitMax : Z := 50.

(** The constructor; [now] is [Date.now()]. *)
Definition new_InspectorManager (now : Z) : InspectorManager :=
  {| session := false; enabled := false; breakpoints := []; scriptUrls := ∅;
     lastExceptionData := None; exceptionPauseEnabled := false;
     sentExceptionFingerprints := []; localsCache := []; pendingCaptures := [];
     rateLimitCount := 0; rateLimitReset := now; posted := [] |}.

Definition set_session (x : bool) (m : InspectorManager) :=
  {| session := x; enabled := enabled m; breakpoints := breakpoints m;
     scriptUrls := scriptUrls m; lastExceptionData := lastExceptionData m;
     exceptionPauseEnabled := exceptionPauseEnabled m;
     sentExceptionFingerprints := sentExceptionFingerprints m;
     localsCache := localsCache m; pendingCaptures := pendingCaptures m;
     rateLimitCount := rateLimitCount m; rateLimitReset := rateLimitReset m;
     posted := posted m |}.

Definition set_enabled (x : bool) (m : InspectorManager) :=
  {| session := session m; enabled := x; breakpoints := breakpoints m;
     scriptUrls := scriptUrls m; lastExceptionData := lastExceptionData m;
     exceptionPauseEnabled := exceptionPauseEnabled m;
     sentExceptionFingerprints := sentExceptionFingerprints m;
     localsCache := localsCache m; pendingCaptures := pendingCaptures m;
     rateLimitCount := rateLimitCount m; rateLimitReset := rateLimitReset m;
     posted := posted m |}.

Definition set_breakpoints (x : omap Breakpoint) (m : InspectorManager) :=
  {| session := session m; enabled := enabled m; breakpoints := x;
     scriptUrls := scriptUrls m; lastExceptionData := lastExceptionData m;
     exceptionPauseEnabled := exceptionPauseEnabled m;
     sentExceptionFingerprints := sentExceptionFingerprints m;
     localsCache := localsCache m; pendingCaptures := pendingCaptures m;
     rateLimitCount := rateLimitCount m; rateLimitReset := rateLimitReset m;
     posted := posted m |}.

Definition set_scriptUrls (x : gmap string string) (m : InspectorManager) :=
  {| session := session m; enabled := enabled m; breakpoints := breakpoints m;
     scriptUrls := x; lastExceptionData := lastExceptionData m;
     exceptionPauseEnabled := exceptionPauseEnabled m;
     sentExceptionFingerprints := sentExceptionFingerprints m;
     localsCache := localsCache m; pendingCaptures := pendingCaptures m;
     rateLimitCount := rateLimitCount m; rateLimitReset := rateLimitReset m;
     posted := posted m |}.

Definition set_lastExceptionData (x : option CapturedExceptionData)
    (m : InspectorManager) :=
  {| session := session m; enabled := enabled m; breakpoints := breakpoints m;
     scriptUrls := scriptUrls m; lastExceptionData := x;
     exceptionPauseEnabled := exceptionPauseEnabled m;
     sentExceptionFingerprints := sentExceptionFingerprints m;
     localsCache := localsCache m; pendingCaptures := pendingCaptures m;
     rateLimitCount := rateLimitCount m; rateLimitReset := rateLimitReset m;
     posted := posted m |}.

Definition set_exceptionPauseEnabled (x : bool) (m : InspectorManager) :=
  {| session := session m; enabled := enabled m; breakpoints := breakpoints m;
     scriptUrls := scriptUrls m; lastExceptionData := lastExceptionData m;
     exceptionPauseEnabled := x;
     sentExceptionFingerprints := sentExceptionFingerprints m;
     localsCache := localsCache m; pendingCaptures := pendingCaptures m;
     rateLimitCount := rateLimitCount m; rateLimitReset := rateLimitReset m;
     posted := posted m |}.

Definition set_sentExceptionFingerprints (x : oset) (m : InspectorManager) :=
  {| session := session m; enabled := enabled m; breakpoints := breakpoints m;
     scriptUrls := scriptUrls m; lastExceptionData := lastExceptionData m;
     exceptionPauseEnabled := exceptionPauseEnabled m;
     sentExceptionFingerprints := x;
     localsCache := localsCache m; pendingCaptures := pendingCaptures m;
     rateLimitCount := rateLimitCount m; rateLimitReset := rateLimitReset m;
     posted := posted m |}.

Definition set_localsCache (x : omap CachedLocals) (m : InspectorManager) :=
  {| session := session m; enabled := enabled m; breakpoints := breakpoints m;
     scriptUrls := scriptUrls m; lastExceptionData := lastExceptionData m;
     exceptionPauseEnabled := exceptionPauseEnabled m;
     sentExceptionFingerprints := sentExceptionFingerprints m;
     localsCache := x; pendingCaptures := pendingCaptures m;
     rateLimitCount := rateLimitCount m; rateLimitReset := rateLimitReset m;
     posted := posted m |}.

Definition set_pendingCaptures (x : omap PendingCapture) (m : InspectorManager) :=
  {| session := session m; enabled := enabled m; breakpoints := breakpoints m;
     scriptUrls := scriptUrls m; lastExceptionData := lastExceptionData m;
     exceptionPauseEnabled := exceptionPauseEnabled m;
     sentExceptionFingerprints := sentExceptionFingerprints m;
     localsCache := localsCache m; pendingCaptures := x;
     rateLimitCount := rateLimitCount m; rateLimitReset := rateLimitReset m;
     posted := posted m |}.

Definition set_rateLimit (count reset : Z) (m : InspectorManager) :=
  {| session := session m; enabled := enabled m; breakpoints := breakpoints m;
     scriptUrls := scriptUrls m; lastExceptionData := lastExceptionData m;
     exceptionPauseEnabled := exceptionPauseEnabled m;
     sentExceptionFingerprints := sentExceptionFingerprints m;
     localsCache := localsCache m; pendingCaptures := pendingCaptures m;
     rateLimitCount := count; rateLimitReset := reset;
     posted := posted m |}.

(** [this.session?.post(command)]: nothing is posted without a session. *)
Definition post (c : Command) (m : InspectorManager) : InspectorManager :=
  if session m then
    {| session := session m; enabled := enabled m; breakpoints := breakpoints m;
       scriptUrls := scriptUrls m; lastExceptionData := lastExceptionData m;
       exceptionPauseEnabled := exceptionPauseEnabled m;
       sentExceptionFingerprints := sentExceptionFingerprints m;
       localsCache := localsCache m; pendingCaptures := pendingCaptures m;
       rateLimitCount := rateLimitCount m; rateLimitReset := rateLimitReset m;
       posted := posted m ++ [c] |}
  else m.

(** The number of [Debugger.resume] commands posted so far. *)
Definition resumes (m : InspectorManager) : nat :=
  length (List.filter is_resume (posted m)).

(** [extractStackKey(exceptionData)]; [now] is [Date.now()]. *)
Definition extractStackKey (now : Z) (exceptionData : option ExceptionData) : string :=
  match exceptionData with
  | Some d =>
      match data_description d with
      | Some description =>
          if truthy description then
            let lines := firstn 4 (split_lines description) in
            join "|" lines
          else "unknown-" +:+ num_to_string now
      | None => "unknown-" +:+ num_to_string now
      end
  | None => "unknown-" +:+ num_to_string now
  end.

(** [cleanupCache()]. *)
Definition cleanupCache (now : Z) (cache : omap CachedLocals) : omap CachedLocals :=
  let live :=
    List.filter (fun '(_, v) => negb (cacheMaxAge <? now - timestamp v)) cache in
  (* Also limit cache size *)
  if (100 <? length live)%nat then
    match omap_first_key live with
    | Some oldest => if truthy oldest then omap_delete oldest live else live
    | None => live
    end
  else live.

(** The body of [captureAndCacheLocals] once the harvest has settled:
    [Some capturedData] when it resolved, [None] when it threw (the [catch]
    branch, which only logs). *)
Definition captureAndCacheLocals (harvest : option CapturedData) (stackKey : string)
    (now : Z) (iso_now : string) (m : InspectorManager) : InspectorManager :=
  match harvest with
  | Some capturedData =>
      let localVariables := local_variables capturedData in
      let stackTrace := stack_trace capturedData in
      (* Cache the locals *)
      let m1 := set_localsCache
                  (omap_set stackKey
                     {| locals := localVariables; cached_stackTrace := stackTrace;
                        timestamp := now |}
                     (localsCache m)) m in
      let m2 := set_lastExceptionData
                  (Some {| ced_stackTrace := stackTrace;
                           ced_localVariables := localVariables;
                           ced_capturedAt := iso_now |}) m1 in
      (* Cleanup old cache entries *)
      set_localsCache (cleanupCache now (localsCache m2)) m2
  | None => m
  end.

(** [computeFingerprintFromCallFrames(callFrames, exceptionData)]. *)
Definition computeFingerprintFromCallFrames (callFrames : list CallFrame)
    (exceptionData : option ExceptionData) : string :=
  let exceptionType :=
    match exceptionData with
    | Some d =>
        if is_some_truthy (data_className d) then default "" (data_className d)
        else if is_some_truthy (data_description d) then
          let desc := default "" (data_description d) in
          match indexOf ":" desc with
          | Some colonIndex =>
              if (0 <? colonIndex)%nat then trim (substring0 colonIndex desc)
              else "Error"
          | None => "Error"
          end
        else "Error"
    | None => "Error"
    end in
  let lineNumbers :=
    map (fun f => loc_lineNumber (location f) + 1) (firstn 3 callFrames) in
  exceptionType +:+ "|" +:+ join "|" (map num_to_string lineNumbers).

(** Marking an exception as seen: [add], then drop the first member when the
    set has grown past 100. *)
Definition mark_sent (fingerprint : string) (s : oset) : oset :=
  let s1 := oset_add fingerprint s in
  if (100 <? length s1)%nat then
    match s1 with
    | first :: _ => if truthy first then oset_delete first s1 else s1
    | [] => s1
    end
  else s1.

(** The first registered breakpoint whose debugger id is among the hit ones. *)
Definition find_hit (hit : option (list string)) (bps : omap Breakpoint)
    : option string :=
  match hit with
  | Some ids =>
      if (0 <? length ids)%nat then
        option_map fst
          (List.find (fun '(_, bp) => existsb (String.eqb (bk_id bp)) ids) bps)
      else None
  | None => None
  end.

Section Paused.
Variable cfg : AgentConfig.
(** The debugger's view of the paused host. *)
Variable heap : Heap.
(** [captureCallFramesAsync] rejected. *)
Variable harvest_throws : bool.

Definition harvest (m : InspectorManager) (frames : list CallFrame)
    : option CapturedData :=
  if harvest_throws then None
  else Some (captureCallFramesAsync cfg (session m) heap (scriptUrls m) frames).

(** [handlePaused(event)], from the pause to the resume.  The host is
    stopped in between, so nothing else runs: the harvest and its [then]
    callback are part of the same step.  [now] is the clock at the pause,
    [now'] the clock once the harvest has settled. *)
Definition handlePaused (now now' : Z) (iso_now : string) (event : PausedEvent)
    (st : InspectorManager * Transport.BackendConnection)
    : InspectorManager * Transport.BackendConnection :=
  let '(m, conn) := st in
  if negb (session m) then (m, conn)
  else if String.eqb (reason event) "exception"
          || String.eqb (reason event) "promiseRejection" then
    (* Rate limiting to prevent performance impact *)
    let m1 := if rateLimitReset m <? now then set_rateLimit 0 (now + 1000) m else m in
    let m2 := set_rateLimit (rateLimitCount m1 + 1) (rateLimitReset m1) m1 in
    if rateLimitMax <? rateLimitCount m2 then (post DebuggerResume m2, conn)
    else
      let stackKey := extractStackKey now (data event) in
      let m3 := set_pendingCaptures
                  (omap_set stackKey {| pending_timestamp := now |}
                     (pendingCaptures m2)) m2 in
      let m4 := captureAndCacheLocals (harvest m3 (callFrames event))
                  stackKey now' iso_now m3 in
      (* Remove from pending once complete *)
      let m5 := set_pendingCaptures (omap_delete stackKey (pendingCaptures m4)) m4 in
      let m6 :=
        if String.eqb (reason event) "exception" then
          set_sentExceptionFingerprints
            (mark_sent (computeFingerprintFromCallFrames (callFrames event) (data event))
                       (sentExceptionFingerprints m5)) m5
        else m5 in
      (* Resume AFTER capture is complete *)
      (post DebuggerResume m6, conn)
  else
    match find_hit (hitBreakpoints event) (breakpoints m) with
    | Some hitBackendId =>
        if truthy hitBackendId then
          match harvest m (callFrames event) with
          | Some capturedData =>
              (post DebuggerResume m,
               Transport.sendBreakpointHit cfg now' hitBackendId iso_now
                 capturedData conn)
          | None => (post DebuggerResume m, conn)
          end
        else (post DebuggerResume m, conn)
    | None =>
        (* Resume execution (non-breaking breakpoint) *)
        (post DebuggerResume m, conn)
    end.
End Paused.

(** The key [getLocalsForError] builds from [error.stack]. *)
Definition error_stack_key (stack : string) : string :=
  (* Create stack key from error.stack (same format as extractStackKey) *)
  let lines := firstn 4 (split_lines stack) in
  join "|" lines.

(** [getLocalsForError(error)]; [now] is the clock when the cache is read.
    Waiting for a pending capture changes nothing here: a capture is pending
    only inside [handlePaused]. *)
Definition getLocalsForError (error : JSError) (now : Z) (m : InspectorManager)
    : option (omap CapturedVariable * list HarvestFrame) * InspectorManager :=
  match err_stack error with
  | None => (None, m)
  | Some stack =>
      if negb (truthy stack) then (None, m)
      else
        let stackKey := error_stack_key stack in
        match omap_get stackKey (localsCache m) with
        | Some cached =>
            if now - timestamp cached <? cacheMaxAge then
              (* Remove from cache after use (one-time use) *)
              (Some (locals cached, cached_stackTrace cached),
               set_localsCache (omap_delete stackKey (localsCache m)) m)
            else (None, m)
        | None => (None, m)
        end
  end.

(** [wasExceptionSentByInspector(exceptionType, stackTrace)]. *)
Definition wasExceptionSentByInspector (exceptionType : string)
    (stackTrace : list StackFrame) (m : InspectorManager) : bool :=
  let lineNumbers := map (fun f => default 0 (lineNumber f)) (firstn 3 stackTrace) in
  let fingerprint :=
    exceptionType +:+ "|" +:+ join "|" (map num_to_string lineNumbers) in
  oset_has fingerprint (sentExceptionFingerprints m).

(** [getLastExceptionData()]. *)
Definition getLastExceptionData (m : InspectorManager)
    : option CapturedExceptionData * InspectorManager :=
  (lastExceptionData m, set_lastExceptionData None m).

Definition isExceptionPauseEnabled (m : InspectorManager) : bool :=
  exceptionPauseEnabled m.

(** [filePathToRegex(filePath)]. *)
Definition regex_special : list ascii :=
  list_ascii_of_string ".*+?^${}()|[]\".

Fixpoint escape_path (s : string) : string :=
  match s with
  | EmptyString => EmptyString
  | String c s' =>
      if Ascii.eqb c "/" then "[\\/]" +:+ escape_path s'
      else if existsb (Ascii.eqb c) regex_special
           then String "\" (String c (escape_path s'))
           else String c (escape_path s')
  end.

Definition filePathToRegex (filePath : string) : string :=
  ".*" +:+ escape_path filePath +:+ "$".

(** [enable()].  The three arguments are what the debugger answers:
    creating or connecting the session throws; [Debugger.enable] fails;
    [Debugger.setPauseOnExceptions] fails. *)
Definition enable (session_throws enable_err pause_err : bool)
    (m : InspectorManager) : InspectorManager :=
  if enabled m then m
  else if session_throws then m
  else
    let m1 := post DebuggerEnable (set_session true m) in
    let m2 :=
      if enable_err then m1
      else
        let m' := post (SetPauseOnExceptions "all") m1 in
        if pause_err then m' else set_exceptionPauseEnabled true m' in
    set_enabled true m2.

(** The [Debugger.scriptParsed] listener. *)
Definition on_scriptParsed (scriptId url : string) (m : InspectorManager)
    : InspectorManager :=
  if truthy url then set_scriptUrls (<[scriptId := url]> (scriptUrls m)) m else m.

(** [setBreakpoint(...)]; [answer] is the debugger's reply: [None] for an
    error, [Some id] for the result's [breakpointId]. *)
Definition setBreakpoint (backendId filePath : string) (lineNumber : Z)
    (condition : option string) (answer : option (option string))
    (m : InspectorManager) : InspectorManager :=
  if negb (enabled m) || negb (session m) then m
  else
    (* Convert to 0-indexed line number *)
    let line := lineNumber - 1 in
    let m1 := post (SetBreakpointByUrl line (filePathToRegex filePath)
                      (or_else condition "")) m in
    match answer with
    | Some (Some breakpointId) =>
        if truthy breakpointId then
          set_breakpoints
            (omap_set backendId
               {| bk_id := breakpointId; bk_backendId := backendId;
                  bk_lineNumber := line; bk_condition := condition |}
               (breakpoints m1)) m1
        else m1
    | _ => m1
    end.

(** [removeBreakpoint(backendId)]; [err] is the debugger's reply. *)
Definition removeBreakpoint (backendId : string) (err : bool)
    (m : InspectorManager) : InspectorManager :=
  if negb (enabled m) || negb (session m) then m
  else match omap_get backendId (breakpoints m) with
       | None => m
       | Some breakpoint =>
           let m1 := post (RemoveBreakpoint (bk_id breakpoint)) m in
           if err then m1
           else set_breakpoints (omap_delete backendId (breakpoints m1)) m1
       end.

(** [disable()]; [err backendId] is the debugger's reply to each removal. *)
Definition disable (err : string -> bool) (m : InspectorManager) : InspectorManager :=
  if negb (enabled m) || negb (session m) then m
  else
    (* Remove all breakpoints *)
    let m1 := fold_left (fun acc '(id, _) => removeBreakpoint id (err id) acc)
                        (breakpoints m) m in
    set_enabled false (set_session false (post DebuggerDisable m1)).

End Inspector.

(* ================================================================== *)
(** * Exception pipeline ([ExceptionHandler]) *)
(* ================================================================== *)

Module Handler.
Import JS Config Types.

(** [/^(?:async\s+)?(.+?)\s+\((.+)\)$/] *)
Definition func_re : regex :=
  Seq (Opt (Lit "async" (PlusGreedy is_space)))
  (Seq (Group 1 (PlusLazy is_dot))
  (Seq (PlusGreedy is_space)
  (Seq (Chr (Ascii.eqb "("))
  (Seq (Group 2 (PlusGreedy is_dot))
  (Seq (Chr (Ascii.eqb ")")) End))))).

(** [/^(.+):(\d+):(\d+)$/] *)
Definition location_re : regex :=
  Seq (Group 1 (PlusGreedy is_dot))
  (Seq (Chr (Ascii.eqb ":"))
  (Seq (Group 2 (PlusGreedy is_digit))
  (Seq (Chr (Ascii.eqb ":"))
  (Seq (Group 3 (PlusGreedy is_digit)) End)))).

Definition cap (n : nat) (caps : captures) : string := default "" (group n caps).

(** [getFileName(filePath)]. *)
Definition getFileName (filePath : string) : string :=
  List.last (split_by (fun c => Ascii.eqb c "/" || Ascii.eqb c "\") filePath) "".

(** [parseLocation(methodName, location)]. *)
Definition parseLocation (methodName location : string) : StackFrame :=
  if String.eqb location "native" || includes "[native code]" location then
    {| className := None; methodName := methodName; fileName := None;
       filePath := None; lineNumber := None; columnNumber := None;
       isNative := true; sourceAvailable := false |}
  else
    match match_anchored location_re location with
    | Some m =>
        let filePath := cap 1 m in
        {| className := None; methodName := methodName;
           fileName := Some (getFileName filePath);
           filePath := Some filePath;
           lineNumber := Some (digits_value (cap 2 m));
           columnNumber := Some (digits_value (cap 3 m));
           isNative := false;
           sourceAvailable :=
             negb (includes "node_modules" filePath)
             && negb (startsWith "node:" filePath) |}
    | None =>
        {| className := None; methodName := methodName; fileName := None;
           filePath := Some location; lineNumber := None; columnNumber := None;
           isNative := false; sourceAvailable := false |}
    end.

(** [parseStackFrame(line)]. *)
Definition parseStackFrame (line : string) : option StackFrame :=
  let trimmed := trim line in
  if negb (startsWith "at " trimmed) then None
  else
    let content := slice_from 3 trimmed in (* Remove "at " *)
    (* Try to match "functionName (location)" *)
    match match_anchored func_re content with
    | Some funcMatch => Some (parseLocation (cap 1 funcMatch) (cap 2 funcMatch))
    | None =>
        (* Try to match just location *)
        match match_anchored location_re content with
        | Some locationMatch =>
            Some {| className := None; methodName := "<anonymous>";
                    fileName := Some (getFileName (cap 1 locationMatch));
                    filePath := Some (cap 1 locationMatch);
                    lineNumber := Some (digits_value (cap 2 locationMatch));
                    columnNumber := Some (digits_value (cap 3 locationMatch));
                    isNative := false; sourceAvailable := true |}
        | None =>
            (* Native method *)
            if includes "[native code]" content || String.eqb content "native" then
              Some {| className := None;
                      methodName := remove_first " [native code]" content;
                      fileName := None; filePath := None; lineNumber := None;
                      columnNumber := None; isNative := true;
                      sourceAvailable := false |}
            else
              Some {| className := None; methodName := content; fileName := None;
                      filePath := None; lineNumber := None; columnNumber := None;
                      isNative := false; sourceAvailable := false |}
        end
    end.

(** The loop of [parseStackTrace]: stop once 50 frames are collected. *)
Fixpoint parse_lines (lines : list string) (frames : list StackFrame)
    : list StackFrame :=
  match lines with
  | [] => frames
  | line :: rest =>
      let frames' :=
        match parseStackFrame line with
        | Some frame => frames ++ [frame]
        | None => frames
        end in
      if (50 <=? length frames')%nat then frames' else parse_lines rest frames'
  end.

(** [parseStackTrace(error)]. *)
Definition parseStackTrace (error : JSError) : list StackFrame :=
  let stack := or_else (err_stack error) "" in
  (* Skip "Error: message" line *)
  let lines := skipn 1 (split_lines stack) in
  parse_lines lines [].

(** The loop of [calculateFingerprint]: at most five frames that are not
    native. *)
Fixpoint fingerprint_parts (stackTrace : list StackFrame) (added : nat)
    (parts : list string) : list string :=
  match stackTrace with
  | [] => parts
  | frame :: rest =>
      if (5 <=? added)%nat then parts
      else if isNative frame then fingerprint_parts rest added parts
      else fingerprint_parts rest (S added)
             (parts ++ [methodName frame +:+ ":"
                        +:+ num_to_string (default 0 (lineNumber frame))])
  end.

(** [calculateFingerprint(error, stackTrace)]. *)
Definition calculateFingerprint (error : JSError) (stackTrace : list StackFrame)
    : Digest :=
  let parts := fingerprint_parts stackTrace 0 [or_else (Some (err_name error)) "Error"] in
  Sha256Hex16 (join ":" parts).

(** Listeners on the process events the agent hooks. *)
Inductive Listener : Type :=
| HostListener (label : string)   (* installed by the application *)
| AgentUncaughtException
| AgentUnhandledRejection.

(** The part of [process] the agent touches.  [chained] lists the calls made
    to the application's own listeners; [exit_timers] the delays of the
    [setTimeout(() => process.exit(1), ...)] set; [shutdown_hooks] counts the
    registrations of the [beforeExit]/[SIGTERM]/[SIGINT] listeners. *)
Record Process : Type := {
  uncaughtException : list Listener;
  unhandledRejection : list Listener;
  chained : list Listener;
  exit_timers : list Z;
  shutdown_hooks : nat
}.

(** The fields of [ExceptionHandler]; [inspectorManager] tells whether the
    reference is set, the manager itself lives in the enclosing state. *)
Record ExceptionHandler : Type := {
  installed : bool;
  inspectorManager : bool;
  originalUncaughtException : option Listener;
  originalUnhandledRejection : option Listener
}.

Definition new_ExceptionHandler : ExceptionHandler :=
  {| installed := false; inspectorManager := false;
     originalUncaughtException := None; originalUnhandledRejection := None |}.

Definition setInspectorManager (h : ExceptionHandler) : ExceptionHandler :=
  {| installed := installed h; inspectorManager := true;
     originalUncaughtException := originalUncaughtException h;
     originalUnhandledRejection := originalUnhandledRejection h |}.

(** [install()]. *)
Definition install (st : ExceptionHandler * Process) : ExceptionHandler * Process :=
  let '(h, p) := st in
  if installed h then (h, p)
  else
    ({| installed := true; inspectorManager := inspectorManager h;
        originalUncaughtException := head (uncaughtException p);
        originalUnhandledRejection := head (unhandledRejection p) |},
     {| uncaughtException := uncaughtException p ++ [AgentUncaughtException];
        unhandledRejection := unhandledRejection p ++ [AgentUnhandledRejection];
        chained := chained p; exit_timers := exit_timers p;
        shutdown_hooks := shutdown_hooks p |}).

(** [uninstall()]. *)
Definition uninstall (st : ExceptionHandler * Process) : ExceptionHandler * Process :=
  let '(h, p) := st in
  if negb (installed h) then (h, p)
  else
    ({| installed := false; inspectorManager := inspectorManager h;
        originalUncaughtException := originalUncaughtException h;
        originalUnhandledRejection := originalUnhandledRejection h |},
     {| uncaughtException := option_list (originalUncaughtException h);
        unhandledRejection := option_list (originalUnhandledRejection h);
        chained := chained p; exit_timers := exit_timers p;
        shutdown_hooks := shutdown_hooks p |}).

(** What one capture reads from outside: [Math.random()], a fresh UUID, the
    clock as a number and as an ISO string. *)
Record Inputs : Type := {
  random : Q;
  uuid : string;
  now : Z;
  iso_now : string
}.

Section Pipeline.
Variable cfg : AgentConfig.
Variable h : ExceptionHandler.

(** [createCapture(error, context)]: it consumes the manager's
    [lastExceptionData]. *)
Definition createCapture (error : JSError) (context : omap ContextValue)
    (i : Inputs) (m : Inspector.InspectorManager)
    : ExceptionCapture * Inspector.InspectorManager :=
  let stackTrace := parseStackTrace error in
  let fingerprint := calculateFingerprint error stackTrace in
  (* Try to get local variables from V8 Inspector if available *)
  let '(localVariables, m') :=
    if inspectorManager h && Inspector.isExceptionPauseEnabled m then
      match Inspector.getLastExceptionData m with
      | (Some inspectorData, m1) => (Inspector.ced_localVariables inspectorData, m1)
      | (None, m1) => ([], m1)
      end
    else ([], m) in
  let merged :=
    fold_left (fun acc '(k, v) => omap_set k v acc) context
      (map (fun '(k, v) => (k, CtxData v)) (customContext cfg)) in
  ({| id := uuid i;
      exceptionType := or_else (Some (err_name error)) "Error";
      message := or_else (Some (err_message error)) "";
      fingerprint := fingerprint;
      stackTrace := stackTrace;
      localVariables := localVariables;
      context := omap_set "user" (CtxUser (user cfg)) merged;
      capturedAt := iso_now i |},
   m').

(** What [capture], [handleUncaughtException] and [handleUnhandledRejection]
    share after the choice of the error and of the context. *)
Definition report (error : JSError) (context : omap ContextValue) (i : Inputs)
    (st : Inspector.InspectorManager * Transport.BackendConnection)
    : Inspector.InspectorManager * Transport.BackendConnection :=
  let '(m, conn) := st in
  if negb (shouldSample cfg (random i)) then (m, conn)
  else
    let '(capture, m1) := createCapture error context i m in
    (* try to get cached locals from inspector *)
    let '(capture', m2) :=
      if inspectorManager h then
        match Inspector.getLocalsForError error (now i) m1 with
        | (Some cachedData, m2) =>
            ({| id := id capture; exceptionType := exceptionType capture;
                message := message capture; fingerprint := fingerprint capture;
                stackTrace := stackTrace capture;
                localVariables := fst cachedData;
                context := Types.context capture;
                capturedAt := capturedAt capture |},
             m2)
        | (None, m2) => (capture, m2)
        end
      else (capture, m1) in
    (m2, Transport.sendException cfg (now i) capture' conn).

(** [capture(error, context)]. *)
Definition capture (error : JSError) (context : omap ContextValue) (i : Inputs)
    (st : Inspector.InspectorManager * Transport.BackendConnection) :=
  report error context i st.

(** [handleUncaughtException(error, origin)]. *)
Definition handleUncaughtException (error : JSError) (origin : string) (i : Inputs)
    (st : Inspector.InspectorManager * Transport.BackendConnection) :=
  report error [("origin", CtxData origin)] i st.

(** The value a promise was rejected with: an [Error], or anything else
    with its [String(reason)] and the stack of the [Error] made from it. *)
Inductive Reason : Type :=
| ReasonError (e : JSError)
| ReasonOther (text : string) (stack : option string).

(** [handleUnhandledRejection(reason, promise)]. *)
Definition handleUnhandledRejection (reason : Reason) (i : Inputs)
    (st : Inspector.InspectorManager * Transport.BackendConnection) :=
  let error :=
    match reason with
    | ReasonError e => e
    | ReasonOther text stack =>
        {| err_name := "Error"; err_message := text; err_stack := stack |}
    end in
  report error [("type", CtxData "unhandledRejection")] i st.

(** The listener [install()] puts on [uncaughtException]. *)
Definition on_uncaughtException (error : JSError) (origin : string) (i : Inputs)
    (st : Inspector.InspectorManager * Transport.BackendConnection * Process) :=
  let '(m, conn, p) := st in
  let '(m', conn') := handleUncaughtException error origin i (m, conn) in
  (m', conn',
   match originalUncaughtException h with
   | Some original =>
       {| uncaughtException := uncaughtException p;
          unhandledRejection := unhandledRejection p;
          chained := chained p ++ [original]; exit_timers := exit_timers p;
          shutdown_hooks := shutdown_hooks p |}
   | None =>
       (* Default behavior: exit after brief delay to allow message send *)
       {| uncaughtException := uncaughtException p;
          unhandledRejection := unhandledRejection p;
          chained := chained p; exit_timers := exit_timers p ++ [500];
          shutdown_hooks := shutdown_hooks p |}
   end).

(** The listener [install()] puts on [unhandledRejection]. *)
Definition on_unhandledRejection (reason : Reason) (i : Inputs)
    (st : Inspector.InspectorManager * Transport.BackendConnection * Process) :=
  let '(m, conn, p) := st in
  let '(m', conn') := handleUnhandledRejection reason i (m, conn) in
  (m', conn',
   match originalUnhandledRejection h with
   | Some original =>
       {| uncaughtException := uncaughtException p;
          unhandledRejection := unhandledRejection p;
          chained := chained p ++ [original]; exit_timers := exit_timers p;
          shutdown_hooks := shutdown_hooks p |}
   | None => p
   end).
End Pipeline.

End Handler.

(* ================================================================== *)
(** * The agent ([src/index.ts]) *)
(* ================================================================== *)

Module Agent.
Import JS Config Types.

(** The module-level variables of [index.ts] and the process they act on. *)
Record World : Type := {
  initialized : bool;
  config : option AgentConfig;
  connection : option Transport.BackendConnection;
  exceptionHandler : option Handler.ExceptionHandler;
  inspectorManager : option Inspector.InspectorManager;
  process : Handler.Process
}.

(** The module as loaded, in a process with the listeners [p]. *)
Definition fresh (p : Handler.Process) : World :=
  {| initialized := false; config := None; connection := None;
     exceptionHandler := None; inspectorManager := None; process := p |}.

(** What [init] meets outside the agent: the host the configuration reads,
    and how the debugger and the socket constructor answer. *)
Record Surroundings : Type := {
  host : Host;
  session_throws : bool;
  enable_err : bool;
  pause_err : bool;
  socket_throws : bool
}.

Definition add_shutdown_hooks (p : Handler.Process) : Handler.Process :=
  {| Handler.uncaughtException := Handler.uncaughtException p;
     Handler.unhandledRejection := Handler.unhandledRejection p;
     Handler.chained := Handler.chained p;
     Handler.exit_timers := Handler.exit_timers p;
     Handler.shutdown_hooks := S (Handler.shutdown_hooks p) |}.

(** [init(options)]. *)
Definition init (options : ConfigOptions) (s : Surroundings) (w : World) : World :=
  if initialized w then w
  else
    let cfg := new_AgentConfig options (host s) in
    if negb (truthy (apiKey cfg)) then
      {| initialized := initialized w; config := Some cfg;
         connection := connection w; exceptionHandler := exceptionHandler w;
         inspectorManager := inspectorManager w; process := process w |}
    else
      (* Initialize backend connection *)
      let conn := Transport.new_BackendConnection in
      (* Initialize V8 inspector for local variable capture and breakpoints *)
      let m := Inspector.enable (session_throws s) (enable_err s) (pause_err s)
                 (Inspector.new_InspectorManager (clock (host s))) in
      (* Initialize exception handler with inspector reference *)
      let '(h, p) :=
        Handler.install
          (Handler.setInspectorManager Handler.new_ExceptionHandler, process w) in
      (* Connect to backend *)
      let conn' := Transport.connect (socket_throws s) conn in
      {| initialized := true; config := Some cfg; connection := Some conn';
         exceptionHandler := Some h; inspectorManager := Some m;
         process := add_shutdown_hooks p |}.

(** The inspector manager and the connection a handler was built with.  The
    handler is only ever created together with both. *)
Definition with_engine (w : World)
    (f : AgentConfig -> Handler.ExceptionHandler ->
         Inspector.InspectorManager * Transport.BackendConnection ->
         Inspector.InspectorManager * Transport.BackendConnection) : World :=
  match config w, exceptionHandler w, inspectorManager w, connection w with
  | Some cfg, Some h, Some m, Some conn =>
      let '(m', conn') := f cfg h (m, conn) in
      {| initialized := initialized w; config := config w;
         connection := Some conn'; exceptionHandler := exceptionHandler w;
         inspectorManager := Some m'; process := process w |}
  | _, _, _, _ => w
  end.

(** [captureException(error, context)]. *)
Definition captureException (error : JSError) (context : omap ContextValue)
    (i : Handler.Inputs) (w : World) : World :=
  if negb (initialized w) || negb (bool_decide (is_Some (exceptionHandler w))) then w
  else with_engine w (fun cfg h => Handler.capture cfg h error context i).

(** [setContext(context)]. *)
Definition setContext (ctx : list (string * string)) (w : World) : World :=
  match config w with
  | Some cfg =>
      if negb (initialized w) then w
      else {| initialized := initialized w; config := Some (setCustomContext ctx cfg);
              connection := connection w; exceptionHandler := exceptionHandler w;
              inspectorManager := inspectorManager w; process := process w |}
  | None => w
  end.

(** [setUser(user)]. *)
Definition setUser (u : UserInfo) (w : World) : World :=
  match config w with
  | Some cfg =>
      if negb (initialized w) then w
      else {| initialized := initialized w; config := Some (Config.setUser u cfg);
              connection := connection w; exceptionHandler := exceptionHandler w;
              inspectorManager := inspectorManager w; process := process w |}
  | None => w
  end.

(** [shutdown()]; [err] is the debugger's reply to each breakpoint removal. *)
Definition shutdown (err : string -> bool) (w : World) : World :=
  if negb (initialized w) then w
  else
    let '(h', p') :=
      match exceptionHandler w with
      | Some h => let '(h1, p1) := Handler.uninstall (h, process w) in (Some h1, p1)
      | None => (None, process w)
      end in
    {| initialized := false; config := config w;
       connection := option_map Transport.disconnect (connection w);
       exceptionHandler := h';
       inspectorManager := option_map (Inspector.disable err) (inspectorManager w);
       process := p' |}.

(** [isInitialized()]. *)
Definition isInitialized (w : World) : bool := initialized w.

(** Messages the agent has handed to the transport, sent or still queued. *)
Definition outbound (w : World) : list Transport.Message :=
  match connection w with
  | Some conn => Transport.wire conn ++ Transport.messageQueue conn
  | None => []
  end.

(** Sockets the agent has opened. *)
Definition sockets_opened (w : World) : nat :=
  match connection w with
  | Some conn => Transport.sockets conn
  | None => 0%nat
  end.

(** An agent listener sits on one of the two process events. *)
Definition hooks_installed (w : World) : bool :=
  existsb (fun l => match l with Handler.HostListener _ => false | _ => true end)
          (Handler.uncaughtException (process w)
           ++ Handler.unhandledRejection (process w)).

End Agent.

(* ================================================================== *)
(** * Vocabulary of the properties *)
(* ================================================================== *)

Module Spec.
Import JS Config Types.

(** The last [n] elements of a list, in order. *)
Definition lastn {A} (n : nat) (l : list A) : list A := skipn (length l - n) l.

(** One call of [send]. *)
Record SendCall : Type := {
  at_time : Z;
  of_type : string;
  with_payload : Transport.Payload
}.

Definition message_of (s : SendCall) : Transport.Message :=
  {| Transport.msg_type := of_type s;
     Transport.msg_payload := with_payload s;
     Transport.msg_timestamp := at_time s |}.

(** A run of [send] calls, oldest first. *)
Definition send_all (calls : list SendCall) (c : Transport.BackendConnection)
    : Transport.BackendConnection :=
  fold_left (fun c s => Transport.send (at_time s) (of_type s) (with_payload s) c)
            calls c.

(** The connection is in the state called Registered as far as [send] can
    tell: the socket is open and the registration was acknowledged. *)
Definition registered (c : Transport.BackendConnection) : bool :=
  Transport.is_open (Transport.ws c) && Transport.authenticated c.

(** The reconnect delay of attempt [k]. *)
Definition backoff (k : Z) : Z := Z.min (1000 * 2 ^ (k - 1)) 60000.

(** What every reachable connection satisfies. *)
Definition conn_inv (c : Transport.BackendConnection) : Prop :=
  Transport.reconnectDelay c = 1000
  /\ (Transport.maxReconnectAttempts c = 10 \/ Transport.maxReconnectAttempts c = 0)
  /\ 0 <= Transport.reconnectAttempts c <= 10
  /\ (length (Transport.messageQueue c) <= 100)%nat.

(** Timers set plus attempts left: no event but an open raises it. *)
Definition potential (c : Transport.BackendConnection) : Z :=
  Z.of_nat (length (Transport.timers c)) + (10 - Transport.reconnectAttempts c).

Definition is_registered_event (e : Transport.Event) : bool :=
  match e with
  | Transport.EvMessage Transport.InRegistered => true
  | _ => false
  end.

Definition is_open_event (e : Transport.Event) : bool :=
  match e with
  | Transport.EvOpen _ => true
  | _ => false
  end.

(** The reading of the reconnect policy in which only a registration resets
    the attempt counter: without one, at most ten reconnects get scheduled. *)
Definition reset_only_by_registration : Prop :=
  forall (cfg : AgentConfig) (es : list Transport.Event),
    forallb (fun e => negb (is_registered_event e)) es = true ->
    (length (Transport.timers (Transport.run cfg Transport.new_BackendConnection es))
     <= 10)%nat.

(** One pause as the debugger session meets it: the event, the debugger's
    view of the host, whether the harvest throws, and the clock readings. *)
Record Pause : Type := {
  p_event : Debugger.PausedEvent;
  p_heap : Debugger.Heap;
  p_throws : bool;
  p_now : Z;
  p_settled : Z;
  p_iso : string
}.

(** What happens to a debugger session: a pause, or the pipeline asking for
    the locals of an error. *)
Inductive SessionEvent : Type :=
| SePause (p : Pause)
| SeLookup (error : JSError) (now : Z).

Definition session_step (cfg : AgentConfig)
    (st : Inspector.InspectorManager * Transport.BackendConnection)
    (e : SessionEvent) : Inspector.InspectorManager * Transport.BackendConnection :=
  match e with
  | SePause p =>
      Inspector.handlePaused cfg (p_heap p) (p_throws p) (p_now p) (p_settled p)
        (p_iso p) (p_event p) st
  | SeLookup error now =>
      (snd (Inspector.getLocalsForError error now (fst st)), snd st)
  end.

Definition session_run (cfg : AgentConfig) (es : list SessionEvent)
    (st : Inspector.InspectorManager * Transport.BackendConnection) :=
  fold_left (session_step cfg) es st.

Definition is_pause (e : SessionEvent) : bool :=
  match e with SePause _ => true | SeLookup _ _ => false end.

(** The number of pauses in a run: each inserts at most once into the locals
    cache and at most once into the deduplication set. *)
Definition pauses (es : list SessionEvent) : nat := length (List.filter is_pause es).

(** The pause is for an exception or a promise rejection. *)
Definition exception_pause (event : Debugger.PausedEvent) : Prop :=
  Debugger.reason event = "exception" \/ Debugger.reason event = "promiseRejection".

(** The rate limiter turns the pause at time [now] away. *)
Definition rate_limited (now : Z) (m : Inspector.InspectorManager) : bool :=
  Inspector.rateLimitMax
  <? (if Inspector.rateLimitReset m <? now then 0 else Inspector.rateLimitCount m) + 1.

(** Every key is a non-empty string. *)
Definition keys_truthy {V} (m : omap V) : Prop := Forall (fun kv => truthy (fst kv) = true) m.

(** No entry of the cache has expired at time [now]. *)
Definition all_live (now : Z) (cache : omap Inspector.CachedLocals) : Prop :=
  Forall (fun kv => now - Inspector.timestamp (snd kv) <= Inspector.cacheMaxAge) cache.

(** The type the pipeline reports for an error. *)
Definition reported_type (error : JSError) : string :=
  or_else (Some (err_name error)) "Error".

(** Messages handed to the transport, written to the socket or still queued. *)
Definition handed_over (c : Transport.BackendConnection) : list Transport.Message :=
  Transport.wire c ++ Transport.messageQueue c.

(** The reading in which the pipeline suppresses an exception whose
    type-and-lines key is in the deduplication set. *)
Definition dedup_key_suppresses : Prop :=
  forall (cfg : AgentConfig) (h : Handler.ExceptionHandler) (error : JSError)
         (ctx : omap ContextValue) (i : Handler.Inputs)
         (m : Inspector.InspectorManager) (conn : Transport.BackendConnection),
    Handler.inspectorManager h = true ->
    Inspector.wasExceptionSentByInspector (reported_type error)
      (Handler.parseStackTrace error) m = true ->
    handed_over (snd (Handler.capture cfg h error ctx i (m, conn)))
    = handed_over conn.

(** An option or an environment variable that gives no value: missing, or
    the empty string. *)
Definition absent (o : option string) : Prop := o = None \/ o = Some "".

(** What the two bounded structures satisfy after at most [n] insertions. *)
Definition session_inv (n : nat) (m : Inspector.InspectorManager) : Prop :=
  (length (Inspector.localsCache m) <= Nat.min n 100)%nat
  /\ keys_truthy (Inspector.localsCache m)
  /\ (length (Inspector.sentExceptionFingerprints m) <= Nat.min n 100)%nat
  /\ Forall (fun x => truthy x = true) (Inspector.sentExceptionFingerprints m).

(** The entry a successful harvest puts in the cache. *)
Definition harvested_entry (cfg : AgentConfig) (heap : Debugger.Heap) (now' : Z)
    (m : Inspector.InspectorManager) (event : Debugger.PausedEvent)
    : Inspector.CachedLocals :=
  let capturedData :=
    Harvester.captureCallFramesAsync cfg (Inspector.session m) heap
      (Inspector.scriptUrls m) (Debugger.callFrames event) in
  {| Inspector.locals := local_variables capturedData;
     Inspector.cached_stackTrace := stack_trace capturedData;
     Inspector.timestamp := now' |}.

End Spec.

(* ================================================================== *)
(** * Concrete inputs *)
(* ================================================================== *)

Module Samples.
Import JS Config Types Spec.

(** 101 calls of [send]. *)
Definition hundred_and_one : list SendCall :=
  map (fun n => {| at_time := Z.of_nat n; of_type := "exception";
                   with_payload := Transport.PHeartbeat (Z.of_nat n) "agent-1" |})
      (seq 0 101).

Definition host0 : Host :=
  {| env := ∅; os_hostname := "host-1"; clock := 1700000000000;
     random_hex := "0a1b2c3d" |}.

(** The configuration of an agent started with an API key and nothing else. *)
Definition cfg0 : AgentConfig :=
  new_AgentConfig
    {| opt_apiKey := Some "key-1"; opt_backendUrl := None; opt_environment := None;
       opt_samplingRate := None; opt_maxCaptureDepth := None;
       opt_maxStringLength := None; opt_maxCollectionSize := None;
       opt_enableBreakpoints := None; opt_enableSourceMaps := None;
       opt_debug := None; opt_scopeDepth := None |}
    host0.

(** A collector that accepts the socket and closes it again, eleven times,
    and never acknowledges a registration. *)
Definition open_close_eleven : list Transport.Event :=
  Transport.EvConnect false
  :: concat (repeat [Transport.EvOpen 0; Transport.EvClose;
                     Transport.EvConnect false] 11).

(** A string of [n] letters. *)
Definition letters (n : nat) : string := string_of_list_ascii (repeat "a"%char n).

(** A local variable holding a string of 600 characters. *)
Definition long_string_prop : Debugger.PropertyDescriptor :=
  {| Debugger.prop_name := "body";
     Debugger.prop_value := Some (Debugger.RString (letters 600)) |}.

(** A configuration that sets both capture limits below the literals of the
    harvester. *)
Definition cfg_small_limits : AgentConfig :=
  new_AgentConfig
    {| opt_apiKey := Some "key-1"; opt_backendUrl := None; opt_environment := None;
       opt_samplingRate := None; opt_maxCaptureDepth := None;
       opt_maxStringLength := Some (Int 100); opt_maxCollectionSize := Some (Int 10);
       opt_enableBreakpoints := None; opt_enableSourceMaps := None;
       opt_debug := None; opt_scopeDepth := None |}
    host0.

(** The debugger's view of an array of 50 numbers, with its [length]. *)
Definition heap_array50 : Debugger.Heap :=
  fun objectId =>
    if String.eqb objectId "arr-1" then
      Some (map (fun n => {| Debugger.prop_name := num_to_string (Z.of_nat n);
                             Debugger.prop_value := Some (Debugger.RNumber (Z.of_nat n)) |})
                (seq 0 50)
            ++ [{| Debugger.prop_name := "length";
                   Debugger.prop_value := Some (Debugger.RNumber 50) |}])
    else None.

Definition array50_prop : Debugger.PropertyDescriptor :=
  {| Debugger.prop_name := "items";
     Debugger.prop_value :=
       Some (Debugger.RObject (Some "array") (Some "Array") (Some "Array(50)")
                              (Some "arr-1")) |}.

(** A session as [init] leaves it: the debugger enabled and pausing on
    exceptions. *)
Definition manager0 : Inspector.InspectorManager :=
  Inspector.enable false false false (Inspector.new_InspectorManager 1700000000000).

(** The function [f] of [/app/a.js], stopped at its line 10 with two locals. *)
Definition frame_f : Debugger.CallFrame :=
  {| Debugger.functionName := "f";
     Debugger.location := {| Debugger.scriptId := "42";
                             Debugger.loc_lineNumber := 9;
                             Debugger.loc_columnNumber := 4 |};
     Debugger.scopeChain := [{| Debugger.scope_type := "local";
                                Debugger.scope_objectId := Some "scope-1" |}] |}.

Definition heap_locals : Debugger.Heap :=
  fun objectId =>
    if String.eqb objectId "scope-1" then
      Some [{| Debugger.prop_name := "x";
               Debugger.prop_value := Some (Debugger.RNumber 42) |};
            {| Debugger.prop_name := "y";
               Debugger.prop_value := Some (Debugger.RString "hello") |}]
    else None.

(** The stack of [new Error("boom")] thrown there. *)
Definition boom_stack : string :=
  "Error: boom" +:+ String LF "    at f (/app/a.js:10:5)".

Definition boom_error : JSError :=
  {| err_name := "Error"; err_message := "boom"; err_stack := Some boom_stack |}.

(** The pause the debugger reports for it. *)
Definition pause_boom : Debugger.PausedEvent :=
  {| Debugger.callFrames := [frame_f];
     Debugger.hitBreakpoints := None;
     Debugger.reason := "exception";
     Debugger.data := Some {| Debugger.data_className := Some "Error";
                              Debugger.data_description := Some boom_stack |} |}.

Definition t0 : Z := 1700000000100.

(** The session after that pause. *)
Definition after_boom : Inspector.InspectorManager * Transport.BackendConnection :=
  Inspector.handlePaused cfg0 heap_locals false t0 (t0 + 3) "2023-11-14T22:13:20.103Z"
    pause_boom (manager0, Transport.new_BackendConnection).

Definition boom_pause : Pause :=
  {| p_event := pause_boom; p_heap := heap_locals; p_throws := false;
     p_now := t0; p_settled := t0 + 3; p_iso := "2023-11-14T22:13:20.103Z" |}.

(** A handler as [init] leaves it. *)
Definition handler0 : Handler.ExceptionHandler :=
  fst (Handler.install
         (Handler.setInspectorManager Handler.new_ExceptionHandler,
          {| Handler.uncaughtException := []; Handler.unhandledRejection := [];
             Handler.chained := []; Handler.exit_timers := [];
             Handler.shutdown_hooks := 0 |})).

Definition inputs0 : Handler.Inputs :=
  {| Handler.random := 1 # 2;
     Handler.uuid := "7c9e6679-7425-40de-944b-e07fc1f90ae7";
     Handler.now := t0 + 50;
     Handler.iso_now := "2023-11-14T22:13:20.150Z" |}.

(** A process with no listeners. *)
Definition process0 : Handler.Process :=
  {| Handler.uncaughtException := []; Handler.unhandledRejection := [];
     Handler.chained := []; Handler.exit_timers := []; Handler.shutdown_hooks := 0 |}.

(** Surroundings in which the debugger and the socket constructor work. *)
Definition calm : Agent.Surroundings :=
  {| Agent.host := host0; Agent.session_throws := false; Agent.enable_err := false;
     Agent.pause_err := false; Agent.socket_throws := false |}.

(** The [n]-th of a series of distinct exceptions, 30 ms apart: thrown at
    line [n + 1], with [n] in its message. *)
Definition numbered_stack (n : nat) : string :=
  "Error: e" +:+ num_to_string (Z.of_nat n) +:+ String LF "    at f (/app/a.js:1:1)".

Definition numbered_pause (n : nat) : Pause :=
  {| p_event :=
       {| Debugger.callFrames :=
            [{| Debugger.functionName := "f";
                Debugger.location := {| Debugger.scriptId := "42";
                                        Debugger.loc_lineNumber := Z.of_nat n;
                                        Debugger.loc_columnNumber := 0 |};
                Debugger.scopeChain := [] |}];
          Debugger.hitBreakpoints := None;
          Debugger.reason := "exception";
          Debugger.data := Some {| Debugger.data_className := Some "Error";
                                   Debugger.data_description := Some (numbered_stack n) |} |};
     p_heap := heap_locals; p_throws := false;
     p_now := t0 + 30 * Z.of_nat n; p_settled := t0 + 30 * Z.of_nat n + 1;
     p_iso := "" |}.

(** A process on which the application has put two listeners for uncaught
    exceptions and one for unhandled rejections. *)
Definition process_two_listeners : Handler.Process :=
  {| Handler.uncaughtException := [Handler.HostListener "log"; Handler.HostListener "metrics"];
     Handler.unhandledRejection := [Handler.HostListener "log"];
     Handler.chained := []; Handler.exit_timers := []; Handler.shutdown_hooks := 0 |}.

End Samples.

(* ================================================================== *)
(** * More vocabulary *)
(* ================================================================== *)

Module Terms.
Import JS Config Types Spec.

(** What one frame contributes to the text the capture fingerprint hashes. *)
Definition frame_entry (frame : StackFrame) : string :=
  methodName frame +:+ ":" +:+ num_to_string (default 0 (lineNumber frame)).

(** The frames a stack line stands for: one, or none. *)
Definition frames_of_line (line : string) : list StackFrame :=
  option_list (Handler.parseStackFrame line).

(** The context a capture gets: the custom context of the configuration,
    overlaid with the context of the call. *)
Definition merged_context (cfg : AgentConfig) (ctx : omap ContextValue)
    : omap ContextValue :=
  fold_left (fun acc '(k, v) => omap_set k v acc) ctx
    (map (fun '(k, v) => (k, CtxData v)) (customContext cfg)).

(** The [register] message [authenticate] writes to the socket. *)
Definition register_message (cfg : AgentConfig) (now : Z) : Transport.Message :=
  {| Transport.msg_type := "register";
     Transport.msg_payload :=
       Transport.PRegister (apiKey cfg) (agentId cfg) (hostname cfg)
                           (environment cfg) "1.0.0";
     Transport.msg_timestamp := now |}.

(** The 1-indexed lines of the first three frames of a paused stack, as the
    parsed stack of the same exception reports them. *)
Definition top_lines (frames : list Debugger.CallFrame) : list (option Z) :=
  map (fun f => Some (Debugger.loc_lineNumber (Debugger.location f) + 1))
      (firstn 3 frames).

(** A run of pauses of one session, each with its own surroundings. *)
Definition pause_run (cfg : AgentConfig) (ps : list Pause)
    (st : Inspector.InspectorManager * Transport.BackendConnection) :=
  fold_left
    (fun st p =>
       Inspector.handlePaused cfg (p_heap p) (p_throws p) (p_now p) (p_settled p)
         (p_iso p) (p_event p) st)
    ps st.

(*TERMS-END*)
End Terms.

(* ================================================================== *)
(** * Properties of the transport *)
(* ================================================================== *)

Section TransportProperties.
Import JS Config Types Transport Spec Samples.

Lemma lastn_all {A} (n : nat) (l : list A) :
  (length l <= n)%nat -> lastn n l = l.
Proof.
  intros H. unfold lastn.
  replace (length l - n)%nat with 0%nat by lia. reflexivity.
Qed.

Lemma lastn_length {A} (n : nat) (l : list A) :
  length (lastn n l) = Nat.min n (length l).
Proof. unfold lastn. rewrite length_skipn. lia. Qed.

Lemma lastn_skipn {A} (n k : nat) (l : list A) :
  (k <= length l - n)%nat -> lastn n (skipn k l) = lastn n l.
Proof.
  intros H. unfold lastn. rewrite length_skipn, skipn_skipn.
  f_equal. lia.
Qed.

Lemma lastn_app_lastn {A} (n : nat) (l l' : list A) :
  lastn n (lastn n l ++ l') = lastn n (l ++ l').
Proof.
  unfold lastn at 2.
  assert (E : skipn (length l - n) l ++ l' = skipn (length l - n) (l ++ l')).
  { rewrite skipn_app.
    replace (length l - n - length l)%nat with 0%nat by lia. reflexivity. }
  rewrite E. apply lastn_skipn. rewrite length_app. lia.
Qed.

Lemma send_registered now type payload c :
  registered c = true ->
  send now type payload c
  = ws_send {| msg_type := type; msg_payload := payload; msg_timestamp := now |} c.
Proof. unfold registered, send. intros ->. reflexivity. Qed.

Lemma send_queue_unregistered now type payload c :
  registered c = false ->
  (length (messageQueue c) <= 100)%nat ->
  messageQueue (send now type payload c)
  = lastn 100 (messageQueue c
               ++ [{| msg_type := type; msg_payload := payload; msg_timestamp := now |}]).
Proof.
  unfold registered, send. intros -> Hlen.
  set (q := messageQueue c ++ _).
  assert (Hq : length q = S (length (messageQueue c))).
  { unfold q. rewrite length_app. simpl. lia. }
  destruct (100 <? Z.of_nat (length q)) eqn:E; simpl.
  - apply Z.ltb_lt in E.
    unfold lastn. replace (length q - 100)%nat with 1%nat by lia.
    destruct q; reflexivity.
  - apply Z.ltb_ge in E. symmetry. apply lastn_all. lia.
Qed.

Lemma send_registered_preserved now type payload c :
  registered (send now type payload c) = registered c.
Proof.
  unfold registered, send.
  destruct (is_open (ws c) && authenticated c) eqn:E; simpl; [exact E|].
  destruct (100 <? _); simpl; exact E.
Qed.

Lemma send_wire_unregistered now type payload c :
  registered c = false -> wire (send now type payload c) = wire c.
Proof.
  unfold registered, send. intros ->. destruct (100 <? _); reflexivity.
Qed.

Lemma send_queue_bound now type payload c :
  (length (messageQueue c) <= 100)%nat ->
  (length (messageQueue (send now type payload c)) <= 100)%nat.
Proof.
  intros H. destruct (registered c) eqn:E.
  - rewrite send_registered by exact E. exact H.
  - rewrite send_queue_unregistered by assumption.
    rewrite lastn_length. lia.
Qed.

Lemma send_all_unregistered calls : forall c,
  registered c = false ->
  (length (messageQueue c) <= 100)%nat ->
  messageQueue (send_all calls c)
  = lastn 100 (messageQueue c ++ map message_of calls)
  /\ wire (send_all calls c) = wire c.
Proof.
  induction calls as [|s calls IH]; intros c Hreg Hlen.
  - simpl. rewrite app_nil_r. split; [symmetry; apply lastn_all; lia | reflexivity].
  - simpl.
    destruct (IH (send (at_time s) (of_type s) (with_payload s) c)) as [IHq IHw].
    + rewrite send_registered_preserved. exact Hreg.
    + apply send_queue_bound. exact Hlen.
    + unfold send_all in *. rewrite IHq, IHw.
      rewrite send_queue_unregistered by assumption.
      rewrite send_wire_unregistered by assumption.
      split; [|reflexivity].
      rewrite lastn_app_lastn, <- app_assoc. reflexivity.
Qed.

Lemma send_all_queue_bound calls : forall c,
  (length (messageQueue c) <= 100)%nat ->
  (length (messageQueue (send_all calls c)) <= 100)%nat.
Proof.
  induction calls as [|s calls IH]; intros c H; simpl; [exact H|].
  apply IH, send_queue_bound, H.
Qed.

(** C5. The outbound queue never holds more than 100 messages after a
    [send], and while the connection is not Registered the queue is the last
    100 messages handed to [send], in the order they were handed over: after
    101 of them into an empty queue, the first is gone and the other 100
    remain in order; nothing reaches the socket meanwhile. *)
Theorem send_queue_head_eviction (c : BackendConnection) (calls : list SendCall) :
  (length (messageQueue c) <= 100)%nat ->
  (length (messageQueue (send_all calls c)) <= 100)%nat
  /\ (registered c = false ->
      messageQueue (send_all calls c)
      = lastn 100 (messageQueue c ++ map message_of calls)
      /\ wire (send_all calls c) = wire c)
  /\ (registered c = false -> messageQueue c = [] -> length calls = 101%nat ->
      messageQueue (send_all calls c) = tl (map message_of calls)).
Proof.
  intros Hlen. split; [apply send_all_queue_bound, Hlen|]. split.
  - intros Hreg. apply send_all_unregistered; assumption.
  - intros Hreg Hq Hn.
    destruct (send_all_unregistered calls c Hreg Hlen) as [-> _].
    rewrite Hq. simpl. unfold lastn. rewrite length_map, Hn. simpl.
    destruct (map message_of calls); reflexivity.
Qed.

Lemma send_queue_head_eviction_witness :
  (length (messageQueue new_BackendConnection) <= 100)%nat
  /\ (length (messageQueue (send_all hundred_and_one new_BackendConnection)) <= 100)%nat
  /\ messageQueue (send_all hundred_and_one new_BackendConnection)
     = tl (map message_of hundred_and_one).
Proof.
  assert (H0 : (length (messageQueue new_BackendConnection) <= 100)%nat)
    by (simpl; lia).
  destruct (send_queue_head_eviction new_BackendConnection hundred_and_one H0)
    as [Hb [_ Ht]].
  split; [exact H0|]. split; [exact Hb|].
  apply Ht; reflexivity.
Defined.

Lemma drain_open q : forall c,
  is_open (ws c) = true ->
  wire (drain q c) = wire c ++ q
  /\ messageQueue (drain q c) = []
  /\ ws (drain q c) = ws c
  /\ authenticated (drain q c) = authenticated c
  /\ reconnectAttempts (drain q c) = reconnectAttempts c.
Proof.
  induction q as [|msg rest IH]; intros c Hopen; simpl.
  - rewrite app_nil_r. repeat split.
  - rewrite Hopen.
    destruct (IH (ws_send msg (set_messageQueue rest c)) Hopen)
      as (Hw & Hq & Hws & Ha & Hr).
    rewrite Hw, Hq, Hws, Ha, Hr. simpl. rewrite <- app_assoc. repeat split.
Qed.

Lemma stopHeartbeat_fields c :
  ws (stopHeartbeat c) = ws c
  /\ wire (stopHeartbeat c) = wire c
  /\ messageQueue (stopHeartbeat c) = messageQueue c
  /\ authenticated (stopHeartbeat c) = authenticated c
  /\ connected (stopHeartbeat c) = connected c
  /\ reconnectAttempts (stopHeartbeat c) = reconnectAttempts c
  /\ maxReconnectAttempts (stopHeartbeat c) = maxReconnectAttempts c
  /\ reconnectDelay (stopHeartbeat c) = reconnectDelay c
  /\ timers (stopHeartbeat c) = timers c.
Proof. unfold stopHeartbeat. destruct (heartbeatInterval c); repeat split. Qed.

(** C6. When the registration is acknowledged on an open socket, every queued
    message is written to the socket in the order it was queued and the
    queue is left empty, all within [handleRegistered]; a message handed to
    [send] afterwards is written after them. *)
Theorem register_drains_fifo (c : BackendConnection) (now : Z) (type : string)
    (payload : Payload) :
  is_open (ws c) = true ->
  let c' := handleRegistered c in
  registered c' = true
  /\ messageQueue c' = []
  /\ wire c' = wire c ++ messageQueue c
  /\ wire (send now type payload c')
     = wire c ++ messageQueue c
       ++ [{| msg_type := type; msg_payload := payload; msg_timestamp := now |}]
  /\ messageQueue (send now type payload c') = [].
Proof.
  intros Hopen c'.
  pose proof (stopHeartbeat_fields (set_authenticated true c))
    as (Hws & Hw & Hq & Ha & _).
  assert (Hopen1 : is_open (ws (startHeartbeat (set_authenticated true c))) = true).
  { unfold startHeartbeat. simpl. rewrite Hws. exact Hopen. }
  destruct (drain_open (messageQueue (startHeartbeat (set_authenticated true c)))
              _ Hopen1) as (Dw & Dq & Dws & Da & _).
  assert (Hreg : registered c' = true).
  { unfold registered, c', handleRegistered. rewrite Dws, Da.
    unfold startHeartbeat. simpl. rewrite Hws, Ha. simpl.
    rewrite Hopen. reflexivity. }
  assert (Hwire : wire c' = wire c ++ messageQueue c).
  { unfold c', handleRegistered. rewrite Dw. unfold startHeartbeat. simpl.
    rewrite Hw, Hq. reflexivity. }
  split; [exact Hreg|]. split; [exact Dq|]. split; [exact Hwire|].
  rewrite send_registered by exact Hreg. simpl.
  rewrite Hwire, <- app_assoc. split; [reflexivity | exact Dq].
Qed.

Lemma register_drains_fifo_witness :
  let c := set_ws (Some OPEN)
             (set_connected true (send_all (firstn 3 hundred_and_one)
                                           new_BackendConnection)) in
  is_open (ws c) = true
  /\ wire (handleRegistered c) = map message_of (firstn 3 hundred_and_one)
  /\ messageQueue (handleRegistered c) = [].
Proof.
  split; [reflexivity|].
  destruct (register_drains_fifo
              (set_ws (Some OPEN)
                 (set_connected true (send_all (firstn 3 hundred_and_one)
                                               new_BackendConnection)))
              0 "heartbeat" (PHeartbeat 0 "agent-1") eq_refl)
    as (_ & Hq & Hw & _).
  split; [exact Hw | exact Hq].
Defined.

(** ** Reconnection *)

Lemma scheduleReconnect_spec c :
  (reconnectAttempts c < maxReconnectAttempts c ->
   reconnectAttempts (scheduleReconnect c) = reconnectAttempts c + 1
   /\ timers (scheduleReconnect c)
      = timers c ++ [Z.min (reconnectDelay c * 2 ^ reconnectAttempts c) 60000])
  /\ (maxReconnectAttempts c <= reconnectAttempts c -> scheduleReconnect c = c)
  /\ maxReconnectAttempts (scheduleReconnect c) = maxReconnectAttempts c
  /\ reconnectDelay (scheduleReconnect c) = reconnectDelay c
  /\ messageQueue (scheduleReconnect c) = messageQueue c.
Proof.
  unfold scheduleReconnect.
  destruct (maxReconnectAttempts c <=? reconnectAttempts c) eqn:E.
  - apply Z.leb_le in E. repeat split; intros; try reflexivity; lia.
  - apply Z.leb_gt in E. simpl. repeat split; intros; try lia.
    replace (reconnectAttempts c + 1 - 1) with (reconnectAttempts c) by lia.
    reflexivity.
Qed.

Lemma drain_fields q : forall c,
  messageQueue (drain q c) = []
  /\ reconnectAttempts (drain q c) = reconnectAttempts c
  /\ maxReconnectAttempts (drain q c) = maxReconnectAttempts c
  /\ reconnectDelay (drain q c) = reconnectDelay c
  /\ timers (drain q c) = timers c.
Proof.
  induction q as [|msg rest IH]; intros c; simpl; [repeat split|].
  destruct (is_open (ws c));
    match goal with |- context [drain rest ?x] => destruct (IH x) as (A & B & C & D & E) end;
    rewrite A, B, C, D, E; repeat split.
Qed.

Lemma handleRegistered_fields c :
  messageQueue (handleRegistered c) = []
  /\ reconnectAttempts (handleRegistered c) = reconnectAttempts c
  /\ maxReconnectAttempts (handleRegistered c) = maxReconnectAttempts c
  /\ reconnectDelay (handleRegistered c) = reconnectDelay c
  /\ timers (handleRegistered c) = timers c.
Proof.
  unfold handleRegistered.
  match goal with |- context [drain ?q ?x] => destruct (drain_fields q x) as (A & B & C & D & E) end.
  rewrite A, B, C, D, E. unfold startHeartbeat. simpl.
  pose proof (stopHeartbeat_fields (set_authenticated true c))
    as (_ & _ & _ & _ & _ & F & G & H & I).
  rewrite F, G, H, I. repeat split.
Qed.

Lemma disconnect_fields c :
  messageQueue (disconnect c) = messageQueue c
  /\ reconnectAttempts (disconnect c) = reconnectAttempts c
  /\ maxReconnectAttempts (disconnect c) = maxReconnectAttempts c
  /\ reconnectDelay (disconnect c) = reconnectDelay c
  /\ timers (disconnect c) = timers c.
Proof.
  unfold disconnect, stopHeartbeat.
  destruct (heartbeatInterval c); simpl; destruct (ws c); repeat split.
Qed.

Lemma on_close_as_schedule c :
  exists c0,
    on_close c = scheduleReconnect c0
    /\ messageQueue c0 = messageQueue c
    /\ reconnectAttempts c0 = reconnectAttempts c
    /\ maxReconnectAttempts c0 = maxReconnectAttempts c
    /\ reconnectDelay c0 = reconnectDelay c
    /\ timers c0 = timers c.
Proof.
  unfold on_close. eexists. split; [reflexivity|].
  match goal with |- context [stopHeartbeat ?x] =>
    pose proof (stopHeartbeat_fields x) as (_ & _ & B & _ & _ & C & D & E & F) end.
  rewrite B, C, D, E, F. destruct (ws c); repeat split.
Qed.

(** The fields the reconnect policy reads and writes. *)
Lemma send_policy now type payload c :
  reconnectAttempts (send now type payload c) = reconnectAttempts c
  /\ maxReconnectAttempts (send now type payload c) = maxReconnectAttempts c
  /\ reconnectDelay (send now type payload c) = reconnectDelay c
  /\ timers (send now type payload c) = timers c.
Proof.
  unfold send. destruct (is_open (ws c) && authenticated c); simpl;
    [|destruct (100 <? _)]; repeat split.
Qed.

Lemma on_open_fields cfg now c :
  reconnectAttempts (on_open cfg now c) = 0
  /\ maxReconnectAttempts (on_open cfg now c) = maxReconnectAttempts c
  /\ reconnectDelay (on_open cfg now c) = reconnectDelay c
  /\ timers (on_open cfg now c) = timers c
  /\ messageQueue (on_open cfg now c) = messageQueue c.
Proof.
  unfold on_open, authenticate.
  destruct c as [[w|] ? ? ? ? ? ? ? ? ? ? ?]; simpl; repeat split.
Qed.

Lemma handleError_fields code c :
  reconnectAttempts (handleError code c) = reconnectAttempts c
  /\ (maxReconnectAttempts (handleError code c) = maxReconnectAttempts c
      \/ maxReconnectAttempts (handleError code c) = 0)
  /\ reconnectDelay (handleError code c) = reconnectDelay c
  /\ timers (handleError code c) = timers c
  /\ messageQueue (handleError code c) = messageQueue c.
Proof.
  unfold handleError.
  destruct (bool_decide (code = Some "auth_error") || bool_decide (code = Some "invalid_api_key")).
  - destruct (disconnect_fields (set_maxReconnectAttempts 0 c)) as (A & B & C & D & E).
    rewrite A, B, C, D, E. simpl. repeat split. right. reflexivity.
  - repeat split. left. reflexivity.
Qed.

Lemma handleError_credentials code c :
  code = "auth_error" \/ code = "invalid_api_key" ->
  maxReconnectAttempts (handleError (Some code) c) = 0.
Proof.
  intros [-> | ->]; destruct c as [[w|] ? ? ? ? ? [|] ? ? ? ? ?]; reflexivity.
Qed.

Lemma scheduleReconnect_inv c : conn_inv c -> conn_inv (scheduleReconnect c).
Proof.
  intros Hc. pose proof Hc as (Hd & Hm & Ha & Hq).
  destruct (scheduleReconnect_spec c) as (S1 & S2 & S3 & S4 & S5).
  destruct (Z_lt_le_dec (reconnectAttempts c) (maxReconnectAttempts c)) as [L | L].
  - destruct (S1 L) as [E _]. unfold conn_inv. rewrite E, S3, S4, S5.
    repeat split; try assumption; lia.
  - rewrite (S2 L). exact Hc.
Qed.

Lemma step_inv cfg c e : conn_inv c -> conn_inv (step cfg c e).
Proof.
  intros Hc. pose proof Hc as (Hd & Hm & Ha & Hq).
  destruct e as [t | now | m | | | now type payload | now | ]; simpl.
  - unfold connect. destruct (connected c); [exact Hc|].
    destruct t; [apply scheduleReconnect_inv, Hc | exact Hc].
  - destruct (on_open_fields cfg now c) as (A & B & C & _ & E).
    unfold conn_inv. rewrite A, B, C, E. repeat split; try assumption; lia.
  - destruct m as [ | code | bp | i | ty | ]; simpl; try exact Hc.
    + destruct (handleRegistered_fields c) as (A & B & C & D & _).
      unfold conn_inv. rewrite A, B, C, D. simpl.
      repeat split; try assumption; lia.
    + destruct (handleError_fields code c) as (A & B & C & _ & E).
      unfold conn_inv. rewrite A, C, E.
      repeat split; try assumption; lia.
  - destruct (on_close_as_schedule c) as (c0 & -> & A & B & C & D & _).
    apply scheduleReconnect_inv. unfold conn_inv. rewrite A, B, C, D. exact Hc.
  - exact Hc.
  - destruct (send_policy now type payload c) as (A & B & C & _).
    unfold conn_inv. rewrite A, B, C.
    repeat split; try assumption; try lia. apply send_queue_bound, Hq.
  - unfold heartbeat_tick.
    destruct (send_policy now "heartbeat" (PHeartbeat now (agentId cfg)) c)
      as (A & B & C & _).
    unfold conn_inv. rewrite A, B, C.
    repeat split; try assumption; try lia. apply send_queue_bound, Hq.
  - destruct (disconnect_fields c) as (A & B & C & D & _).
    unfold conn_inv. rewrite A, B, C, D. exact Hc.
Qed.

Lemma run_inv cfg es : forall c, conn_inv c -> conn_inv (run cfg c es).
Proof.
  induction es as [|e es IH]; intros c Hc; simpl; [exact Hc|].
  apply IH, step_inv, Hc.
Qed.

Lemma new_inv : conn_inv new_BackendConnection.
Proof. unfold conn_inv. simpl. repeat split; lia. Qed.

(** The outbound queue of a reachable connection holds at most 100 messages. *)
Lemma queue_bounded_reachable cfg es :
  (length (messageQueue (run cfg new_BackendConnection es)) <= 100)%nat.
Proof. apply (run_inv cfg es _ new_inv). Qed.

Lemma scheduleReconnect_potential c :
  potential (scheduleReconnect c) = potential c.
Proof.
  destruct (scheduleReconnect_spec c) as (S1 & S2 & _).
  destruct (Z_lt_le_dec (reconnectAttempts c) (maxReconnectAttempts c)) as [L | L].
  - destruct (S1 L) as [E T]. unfold potential. rewrite E, T, length_app. simpl. lia.
  - rewrite (S2 L). reflexivity.
Qed.

Lemma step_potential cfg c e :
  is_open_event e = false -> potential (step cfg c e) = potential c.
Proof.
  intros He.
  destruct e as [t | now | m | | | now type payload | now | ]; simpl;
    try discriminate; try reflexivity.
  - unfold connect. destruct (connected c); [reflexivity|].
    destruct t; [apply scheduleReconnect_potential | reflexivity].
  - destruct m as [ | code | bp | i | ty | ]; simpl; try reflexivity.
    + destruct (handleRegistered_fields c) as (_ & B & _ & _ & E).
      unfold potential. rewrite B, E. reflexivity.
    + destruct (handleError_fields code c) as (A & _ & _ & D & _).
      unfold potential. rewrite A, D. reflexivity.
  - destruct (on_close_as_schedule c) as (c0 & -> & _ & B & _ & _ & E).
    rewrite scheduleReconnect_potential. unfold potential. rewrite B, E. reflexivity.
  - destruct (send_policy now type payload c) as (A & _ & _ & D).
    unfold potential. rewrite A, D. reflexivity.
  - unfold heartbeat_tick.
    destruct (send_policy now "heartbeat" (PHeartbeat now (agentId cfg)) c)
      as (A & _ & _ & D).
    unfold potential. rewrite A, D. reflexivity.
  - destruct (disconnect_fields c) as (_ & B & _ & _ & E).
    unfold potential. rewrite B, E. reflexivity.
Qed.

Lemma run_potential cfg es : forall c,
  forallb (fun e => negb (is_open_event e)) es = true ->
  potential (run cfg c es) = potential c.
Proof.
  induction es as [|e es IH]; intros c H; simpl; [reflexivity|].
  simpl in H. apply andb_true_iff in H as [He Hes].
  rewrite IH by exact Hes. apply step_potential.
  destruct (is_open_event e); [discriminate | reflexivity].
Qed.

(** With reconnection disabled no event sets a timer any more. *)
Lemma step_disabled cfg c e :
  maxReconnectAttempts c = 0 -> 0 <= reconnectAttempts c ->
  maxReconnectAttempts (step cfg c e) = 0
  /\ 0 <= reconnectAttempts (step cfg c e)
  /\ timers (step cfg c e) = timers c.
Proof.
  intros Hm Ha.
  assert (Hs : forall c0, maxReconnectAttempts c0 = 0 -> 0 <= reconnectAttempts c0 ->
                          scheduleReconnect c0 = c0).
  { intros c0 H0 H1. destruct (scheduleReconnect_spec c0) as (_ & S2 & _).
    apply S2. lia. }
  destruct e as [t | now | m | | | now type payload | now | ]; cbn [step].
  - unfold connect. destruct (connected c); [auto|].
    destruct t; [rewrite Hs by assumption; auto | simpl; auto].
  - destruct (on_open_fields cfg now c) as (A & B & _ & D & _).
    rewrite A, B, D. repeat split; [exact Hm | lia].
  - destruct m as [ | code | bp | i | ty | ]; cbn [handleMessage]; auto.
    + destruct (handleRegistered_fields c) as (_ & B & C & _ & E).
      rewrite B, C, E. auto.
    + destruct (handleError_fields code c) as (A & B & _ & D & _).
      rewrite A, D. repeat split; [|exact Ha]. destruct B as [-> | ->]; auto.
  - destruct (on_close_as_schedule c) as (c0 & -> & _ & B & C & _ & E).
    rewrite Hs by (rewrite ?B, ?C; assumption). rewrite B, C, E. auto.
  - auto.
  - destruct (send_policy now type payload c) as (A & B & _ & D).
    rewrite A, B, D. auto.
  - unfold heartbeat_tick.
    destruct (send_policy now "heartbeat" (PHeartbeat now (agentId cfg)) c)
      as (A & B & _ & D).
    rewrite A, B, D. auto.
  - destruct (disconnect_fields c) as (_ & B & C & _ & E).
    rewrite B, C, E. auto.
Qed.

Lemma run_disabled cfg es : forall c,
  maxReconnectAttempts c = 0 -> 0 <= reconnectAttempts c ->
  timers (run cfg c es) = timers c.
Proof.
  induction es as [|e es IH]; intros c Hm Ha; simpl; [reflexivity|].
  destruct (step_disabled cfg c e Hm Ha) as (A & B & C).
  rewrite IH by assumption. exact C.
Qed.

(** C7, as the code has it. On every close of the socket of a reachable
    connection, if attempts are left the counter goes up by one to some [k]
    between 1 and 10 and one timer is set with delay
    [min (1000 * 2^(k-1)) 60000]; if none are left nothing is set.  Without
    a socket open in between at most ten timers are set, and none at all
    after a credential failure.  The counter goes back to 0 when the socket
    opens; the acknowledgement of the registration leaves it as it is. *)
Theorem reconnect_backoff_reset_on_open (cfg : AgentConfig) (es : list Event) :
  let c := run cfg new_BackendConnection es in
  (reconnectAttempts c < maxReconnectAttempts c ->
     reconnectAttempts (on_close c) = reconnectAttempts c + 1
     /\ 1 <= reconnectAttempts (on_close c) <= 10
     /\ timers (on_close c) = timers c ++ [backoff (reconnectAttempts (on_close c))])
  /\ (maxReconnectAttempts c <= reconnectAttempts c ->
        reconnectAttempts (on_close c) = reconnectAttempts c
        /\ timers (on_close c) = timers c)
  /\ (forall es',
        forallb (fun e => negb (is_open_event e)) es' = true ->
        Z.of_nat (length (timers (run cfg c es')))
        <= Z.of_nat (length (timers c)) + (10 - reconnectAttempts c))
  /\ (forall code es',
        code = "auth_error" \/ code = "invalid_api_key" ->
        timers (run cfg (handleError (Some code) c) es') = timers c)
  /\ (forall now, reconnectAttempts (on_open cfg now c) = 0)
  /\ reconnectAttempts (handleRegistered c) = reconnectAttempts c.
Proof.
  intros c.
  assert (Hc : conn_inv c) by apply (run_inv cfg es _ new_inv).
  pose proof Hc as (Hd & Hm & Ha & Hq).
  destruct (on_close_as_schedule c) as (c0 & Hclose & _ & B & C & D & E).
  destruct (scheduleReconnect_spec c0) as (S1 & S2 & _).
  rewrite B, C, D, E in S1. rewrite B, C in S2.
  repeat split.
  - rewrite Hclose. apply S1. assumption.
  - rewrite Hclose. destruct (S1 H) as [-> _]. lia.
  - rewrite Hclose. destruct (S1 H) as [-> _]. lia.
  - rewrite Hclose. destruct (S1 H) as [-> ->]. unfold backoff. rewrite Hd.
    replace (reconnectAttempts c + 1 - 1) with (reconnectAttempts c) by lia.
    reflexivity.
  - rewrite Hclose, (S2 H). exact B.
  - rewrite Hclose, (S2 H). exact E.
  - intros es' Hes.
    pose proof (run_potential cfg es' c Hes) as P.
    pose proof (run_inv cfg es' c Hc) as (_ & _ & Ha' & _).
    unfold potential in P. fold c in P. lia.
  - intros code es' Hcode.
    destruct (handleError_fields (Some code) c) as (A & _ & _ & T & _).
    rewrite run_disabled.
    + exact T.
    + apply handleError_credentials, Hcode.
    + rewrite A. lia.
  - intros now. apply on_open_fields.
  - apply handleRegistered_fields.
Qed.

(** C7, as the specification words it, fails: a collector that accepts the
    socket and closes it again, eleven times over, never registers the agent,
    and yet eleven reconnects are scheduled, each after 1000 ms. *)
Lemma reset_only_by_registration_fails : ~ reset_only_by_registration.
Proof.
  intros H. specialize (H cfg0 open_close_eleven eq_refl).
  vm_compute in H. lia.
Qed.

Example open_close_eleven_timers :
  timers (run cfg0 new_BackendConnection open_close_eleven) = repeat 1000 11
  /\ authenticated (run cfg0 new_BackendConnection open_close_eleven) = false.
Proof. split; vm_compute; reflexivity. Qed.

(** Twelve closes in a row with no open in between set ten timers, with
    the delays doubling from one second up to the cap of one minute. *)
Example ten_timers_for_twelve_closes :
  timers (run cfg0 new_BackendConnection (EvConnect false :: repeat EvClose 12))
  = [1000; 2000; 4000; 8000; 16000; 32000; 60000; 60000; 60000; 60000].
Proof. vm_compute. reflexivity. Qed.

(** After the collector answers the registration with [auth_error], the
    close that follows sets no timer. *)
Example no_timer_after_auth_error :
  timers (run cfg0 new_BackendConnection
            [EvConnect false; EvOpen 0; EvMessage (InError (Some "auth_error"));
             EvClose]) = [].
Proof. vm_compute. reflexivity. Qed.

End TransportProperties.

(* ================================================================== *)
(** * Properties of the harvester *)
(* ================================================================== *)

Section HarvesterProperties.
Import JS Config Types Debugger Harvester Spec Samples.

Variable cfg : AgentConfig.
Variable session : bool.
Variable heap : Heap.

#[local] Arguments num_ltb : simpl never.

Lemma fold_left_agree {A B} (f g : A -> B -> A) (l : list B) :
  (forall a b, f a b = g a b) -> forall a, fold_left f l a = fold_left g l a.
Proof.
  intros H. induction l as [|b l IH]; intros a; simpl; [reflexivity|].
  rewrite H. apply IH.
Qed.

Lemma getArrayElements_with_ext g1 g2 objectId depth :
  (forall prop, g1 prop depth = g2 prop depth) ->
  getArrayElements_with session heap g1 objectId depth
  = getArrayElements_with session heap g2 objectId depth.
Proof.
  intros H. unfold getArrayElements_with.
  destruct (negb session); [reflexivity|].
  destruct (heap objectId) as [props|]; [|reflexivity].
  apply fold_left_agree. intros a b. rewrite H. reflexivity.
Qed.

Lemma getObjectProperties_with_ext g1 g2 objectId depth :
  (forall prop, g1 prop depth = g2 prop depth) ->
  getObjectProperties_with cfg session heap g1 objectId depth
  = getObjectProperties_with cfg session heap g2 objectId depth.
Proof.
  intros H. unfold getObjectProperties_with.
  destruct (negb session || _); [reflexivity|].
  destruct (from_option heap None objectId) as [props|]; [|reflexivity].
  apply fold_left_agree. intros a b. rewrite H. reflexivity.
Qed.

Lemma guard_budget depth :
  num_ltb (Int depth) (num_pred (maxCaptureDepth cfg)) = true ->
  exists n, budget cfg depth = S (S n) /\ budget cfg (depth + 1) = S n.
Proof.
  unfold budget. destruct (maxCaptureDepth cfg) as [m|]; simpl; [|discriminate].
  intros H. apply Z.ltb_lt in H.
  exists (Z.to_nat (m - depth) - 2)%nat. split; lia.
Qed.

(** Fuel beyond the budget changes nothing: the depth guard stops the
    nesting before the fuel does. *)
Lemma capturePropertyValue_fuel_enough : forall f1 f2 depth prop,
  (budget cfg depth <= f1)%nat -> (budget cfg depth <= f2)%nat ->
  capturePropertyValue_fuel cfg session heap f1 prop depth
  = capturePropertyValue_fuel cfg session heap f2 prop depth.
Proof.
  induction f1 as [|f1 IH]; intros f2 depth prop H1 H2.
  - destruct f2; [reflexivity|].
    simpl. destruct (prop_value prop) as [[]|]; try reflexivity.
    destruct (num_ltb (Int depth) (num_pred (maxCaptureDepth cfg))) eqn:G;
      [|simpl; reflexivity].
    destruct (guard_budget depth G) as (n & E & _). lia.
  - destruct f2.
    + simpl. destruct (prop_value prop) as [[]|]; try reflexivity.
      destruct (num_ltb (Int depth) (num_pred (maxCaptureDepth cfg))) eqn:G;
        [|simpl; reflexivity].
      destruct (guard_budget depth G) as (n & E & _). lia.
    + simpl. destruct (prop_value prop) as [[]|]; try reflexivity.
      destruct (num_ltb (Int depth) (num_pred (maxCaptureDepth cfg))) eqn:G;
        [|simpl; reflexivity].
      destruct (guard_budget depth G) as (n & E & E').
      assert (A : forall p, capturePropertyValue_fuel cfg session heap f1 p (depth + 1)
                            = capturePropertyValue_fuel cfg session heap f2 p (depth + 1))
        by (intros p; apply IH; lia).
      rewrite (getArrayElements_with_ext _ _ _ _ A).
      rewrite (getObjectProperties_with_ext _ _ _ _ A).
      reflexivity.
Qed.

(** What the harvester does with a string: it cuts at 500 characters,
    whatever [maxStringLength] says. *)
Lemma capture_string name s depth :
  capturePropertyValue cfg session heap
    {| prop_name := name; prop_value := Some (RString s) |} depth
  = Some (mkCaptured name "string"
            (if (500 <? String.length s)%nat then substring0 500 s else s)
            false (500 <? String.length s)%nat None None None).
Proof.
  unfold capturePropertyValue.
  destruct (budget cfg depth); simpl; destruct (500 <? String.length s)%nat; reflexivity.
Qed.

Lemma substring0_length n : forall s,
  String.length (substring0 n s) = Nat.min n (String.length s).
Proof.
  unfold substring0.
  induction n as [|n IH]; intros [|c s]; simpl; try reflexivity.
  rewrite IH. reflexivity.
Qed.

Lemma capture_string_bound name s depth v :
  capturePropertyValue cfg session heap
    {| prop_name := name; prop_value := Some (RString s) |} depth = Some v ->
  (String.length (value v) <= 500)%nat
  /\ (isTruncated v = true <-> (500 < String.length s)%nat).
Proof.
  rewrite capture_string. intros [= <-]. simpl.
  destruct (500 <? String.length s)%nat eqn:E.
  - apply Nat.ltb_lt in E. rewrite substring0_length. split; [lia|]. tauto.
  - apply Nat.ltb_ge in E. split; [lia|]. split; [discriminate | lia].
Qed.

(** Array elements are recorded only below the literal 100 and only when
    the depth allows one more level, whatever [maxCollectionSize] says. *)
Lemma capture_array_elements fuel prop depth v els :
  capturePropertyValue_fuel cfg session heap fuel prop depth = Some v ->
  arrayElements v = Some els ->
  exists n, arrayLength v = Some n /\ n <= 100
            /\ num_ltb (Int depth) (num_pred (maxCaptureDepth cfg)) = true
            /\ els <> [].
Proof.
  destruct fuel; simpl; destruct (prop_value prop) as [[]|]; try discriminate;
    intros [= <-]; simpl; try discriminate;
    repeat match goal with
           | |- context [bool_decide ?P] => destruct (bool_decide P); simpl; try discriminate
           | |- context [if (500 <? ?n)%nat then _ else _] =>
               destruct (500 <? n)%nat; simpl; try discriminate
           end.
  - destruct (_ && _ && _); simpl; discriminate.
  - destruct (num_ltb (Int depth) (num_pred (maxCaptureDepth cfg))) eqn:G; simpl;
      [|discriminate].
    destruct (is_some_truthy objectId); simpl; [|discriminate].
    destruct (parse_array_length description <=? 100) eqn:L; simpl; [|discriminate].
    apply Z.leb_le in L.
    match goal with |- context [(0 <? length ?l)%nat] => destruct l eqn:El end;
      simpl; [discriminate|].
    intros [= <-]. eexists. repeat split; [exact L | discriminate].
Qed.

End HarvesterProperties.

Section HarvesterAtInputs.
Import JS Config Types Debugger Harvester Spec Samples.

(** C2. With the default configuration ([maxStringLength] 1000) a string of
    600 characters, which is within the limit, comes out cut to 500
    characters and flagged as truncated; with [maxStringLength] set to 100 a
    string of 300 characters comes out whole, 300 characters long and not
    flagged. *)
Theorem string_cut_at_500_not_at_maxStringLength :
  maxStringLength cfg0 = Int 1000
  /\ String.length (letters 600) = 600%nat
  /\ (exists v,
        capturePropertyValue cfg0 true (fun _ => None) long_string_prop 0 = Some v
        /\ isTruncated v = true
        /\ String.length (value v) = 500%nat)
  /\ maxStringLength cfg_small_limits = Int 100
  /\ (exists v,
        capturePropertyValue cfg_small_limits true (fun _ => None)
          {| prop_name := "body"; prop_value := Some (RString (letters 300)) |} 0
        = Some v
        /\ isTruncated v = false
        /\ String.length (value v) = 300%nat).
Proof.
  split; [reflexivity|]. split; [reflexivity|]. split.
  - unfold long_string_prop. rewrite capture_string. eexists. split; [reflexivity|].
    split; vm_compute; reflexivity.
  - split; [reflexivity|]. rewrite capture_string. eexists. split; [reflexivity|].
    split; vm_compute; reflexivity.
Qed.

(** C3. With [maxCollectionSize] set to 10, an array of 50 elements is
    captured with all 50 of its elements. *)
Theorem array_elements_beyond_maxCollectionSize :
  maxCollectionSize cfg_small_limits = Int 10
  /\ exists v els,
       capturePropertyValue cfg_small_limits true heap_array50 array50_prop 0 = Some v
       /\ arrayLength v = Some 50
       /\ arrayElements v = Some els
       /\ length els = 50%nat.
Proof.
  split; [reflexivity|].
  eexists. eexists. split; [vm_compute; reflexivity|].
  split; [reflexivity|]. split; reflexivity.
Qed.

End HarvesterAtInputs.

(* ================================================================== *)
(** * Properties of the ordered containers and of the keys *)
(* ================================================================== *)

Section ContainerProperties.
Import JS Config Types Spec.

Context {V : Type}.
Implicit Types (m : omap V) (k : string) (v : V).

Lemma omap_set_length_le k v m : (length (omap_set k v m) <= S (length m))%nat.
Proof.
  induction m as [|[k' v'] m IH]; simpl; [lia|].
  destruct (String.eqb k k'); simpl; lia.
Qed.

Lemma omap_set_present k v m v0 :
  omap_get k m = Some v0 -> length (omap_set k v m) = length m.
Proof.
  induction m as [|[k' v'] m IH]; simpl; [discriminate|].
  destruct (String.eqb k k'); simpl; [reflexivity|].
  intros H. rewrite IH by exact H. reflexivity.
Qed.

Lemma omap_set_absent k v m :
  omap_get k m = None -> omap_set k v m = m ++ [(k, v)].
Proof.
  induction m as [|[k' v'] m IH]; simpl; [reflexivity|].
  destruct (String.eqb k k'); [discriminate|].
  intros H. rewrite IH by exact H. reflexivity.
Qed.

Lemma omap_get_set_eq k v m : omap_get k (omap_set k v m) = Some v.
Proof.
  induction m as [|[k' v'] m IH]; simpl.
  - rewrite String.eqb_refl. reflexivity.
  - destruct (String.eqb k k') eqn:E; simpl; rewrite E; [reflexivity | exact IH].
Qed.

Lemma omap_delete_length_le k m : (length (omap_delete k m) <= length m)%nat.
Proof.
  induction m as [|[k' v'] m IH]; simpl; [lia|].
  destruct (String.eqb k k'); simpl; lia.
Qed.

Lemma omap_delete_head k v m : omap_delete k ((k, v) :: m) = m.
Proof. simpl. rewrite String.eqb_refl. reflexivity. Qed.

Lemma omap_get_delete_ne k k' m :
  k <> k' -> omap_get k (omap_delete k' m) = omap_get k m.
Proof.
  intros Hne. induction m as [|[k0 v0] m IH]; simpl; [reflexivity|].
  destruct (String.eqb k' k0) eqn:E.
  - apply String.eqb_eq in E. subst k0.
    destruct (String.eqb k k') eqn:E'; [apply String.eqb_eq in E'; contradiction|].
    reflexivity.
  - simpl. destruct (String.eqb k k0); [reflexivity | exact IH].
Qed.

Lemma omap_get_filter (f : string * V -> bool) k v m :
  omap_get k m = Some v -> f (k, v) = true ->
  omap_get k (List.filter f m) = Some v.
Proof.
  induction m as [|[k' v'] m IH]; simpl; [discriminate|].
  destruct (String.eqb k k') eqn:E.
  - apply String.eqb_eq in E. subst k'. intros [= ->] Hf.
    rewrite Hf. simpl. rewrite String.eqb_refl. reflexivity.
  - intros H Hf. destruct (f (k', v')); simpl; [rewrite E|]; apply IH; assumption.
Qed.

Lemma keys_truthy_set k v m :
  truthy k = true -> keys_truthy m -> keys_truthy (omap_set k v m).
Proof.
  intros Hk. induction m as [|[k' v'] m IH]; simpl; intros H.
  - constructor; [exact Hk | constructor].
  - inversion H as [|? ? H1 H2]; subst.
    destruct (String.eqb k k'); constructor; try assumption.
    apply IH, H2.
Qed.

Lemma keys_truthy_delete k m : keys_truthy m -> keys_truthy (omap_delete k m).
Proof.
  induction m as [|[k' v'] m IH]; simpl; intros H; [exact H|].
  inversion H as [|? ? H1 H2]; subst.
  destruct (String.eqb k k'); [exact H2|].
  constructor; [exact H1 | apply IH, H2].
Qed.

Lemma keys_truthy_filter (f : string * V -> bool) m :
  keys_truthy m -> keys_truthy (List.filter f m).
Proof.
  unfold keys_truthy. rewrite !List.Forall_forall. intros H x Hx.
  apply filter_In in Hx as [Hx _]. apply H, Hx.
Qed.

End ContainerProperties.

Section KeyProperties.
Import JS Config Types Debugger Inspector Spec.

Lemma truthy_cons c s : truthy (String c s) = true.
Proof. reflexivity. Qed.

Lemma truthy_app_cons a c b : truthy (a +:+ String c b) = true.
Proof. destruct a; reflexivity. Qed.

Lemma truthy_inv s : truthy s = true -> exists c s', s = String c s'.
Proof. destruct s as [|c s']; [discriminate | eauto]. Qed.

Lemma split_by_cons p s : exists h t, split_by p s = h :: t.
Proof.
  destruct s as [|c s]; simpl; [eauto|].
  destruct (p c); [eauto|]. destruct (split_by p s); eauto.
Qed.

(** The key built from a non-empty text is not empty. *)
Lemma stack_key_truthy s :
  truthy s = true -> truthy (join "|" (firstn 4 (split_lines s))) = true.
Proof.
  intros H. apply truthy_inv in H as (c & s' & ->).
  unfold split_lines. cbn [split_by].
  destruct (split_by_cons (Ascii.eqb LF) s') as (h & t & ->).
  destruct (Ascii.eqb LF c).
  - reflexivity.
  - cbn [firstn join]. destruct (firstn 3 t); reflexivity.
Qed.

Lemma extractStackKey_truthy now data : truthy (extractStackKey now data) = true.
Proof.
  unfold extractStackKey.
  destruct data as [[cn [d|]]|]; cbn [data_description]; try reflexivity.
  destruct (truthy d) eqn:E; [|reflexivity].
  apply stack_key_truthy, E.
Qed.

Lemma fingerprint_truthy frames data :
  truthy (computeFingerprintFromCallFrames frames data) = true.
Proof. unfold computeFingerprintFromCallFrames. apply truthy_app_cons. Qed.

(** Both sides build the key the same way. *)
Lemma stack_key_agrees now cn s :
  truthy s = true ->
  extractStackKey now (Some {| data_className := cn; data_description := Some s |})
  = error_stack_key s.
Proof. intros H. unfold extractStackKey, error_stack_key. simpl. rewrite H. reflexivity. Qed.

End KeyProperties.

(* ================================================================== *)
(** * Properties of the debugger session *)
(* ================================================================== *)

Section SessionProperties.
Import JS Config Types Debugger Harvester Inspector Spec Samples.

#[local] Arguments extractStackKey : simpl never.
#[local] Arguments computeFingerprintFromCallFrames : simpl never.
#[local] Arguments captureCallFramesAsync : simpl never.
#[local] Arguments cleanupCache : simpl never.
#[local] Arguments mark_sent : simpl never.
#[local] Arguments String.eqb : simpl nomatch.

Lemma filter_length_le {A} (f : A -> bool) (l : list A) :
  (length (List.filter f l) <= length l)%nat.
Proof. induction l as [|x l IH]; simpl; [lia|]. destruct (f x); simpl; lia. Qed.

Lemma filter_all {A} (f : A -> bool) (l : list A) :
  Forall (fun x => f x = true) l -> List.filter f l = l.
Proof.
  induction 1 as [|x l Hx _ IH]; simpl; [reflexivity|].
  rewrite Hx, IH. reflexivity.
Qed.

(** ** The locals cache *)

Lemma cleanupCache_bound now cache :
  keys_truthy cache -> (length cache <= 101)%nat ->
  (length (cleanupCache now cache) <= 100)%nat
  /\ (length (cleanupCache now cache) <= length cache)%nat
  /\ keys_truthy (cleanupCache now cache).
Proof.
  intros Hk Hlen. unfold cleanupCache.
  set (f := fun '(_, v) => negb (cacheMaxAge <? now - timestamp v)).
  pose proof (filter_length_le f cache) as Hf.
  pose proof (keys_truthy_filter f cache Hk) as Hkf.
  destruct (100 <? length (List.filter f cache))%nat eqn:E.
  - apply Nat.ltb_lt in E.
    destruct (List.filter f cache) as [|[k0 v0] rest] eqn:El; [simpl in E; lia|].
    inversion Hkf as [|? ? H1 H2]; subst. simpl in H1.
    cbn [omap_first_key]. rewrite H1, omap_delete_head.
    simpl in *. repeat split; try lia. exact H2.
  - apply Nat.ltb_ge in E. repeat split; try lia. exact Hkf.
Qed.

Lemma cache_insert_bound now k e cache :
  truthy k = true -> keys_truthy cache -> (length cache <= 100)%nat ->
  (length (cleanupCache now (omap_set k e cache)) <= Nat.min (S (length cache)) 100)%nat
  /\ keys_truthy (cleanupCache now (omap_set k e cache)).
Proof.
  intros Hk Hc Hlen.
  pose proof (omap_set_length_le k e cache) as Hs.
  destruct (cleanupCache_bound now (omap_set k e cache)) as (A & B & C).
  - apply keys_truthy_set; assumption.
  - lia.
  - split; [lia | exact C].
Qed.

(** A fresh entry survives the clean-up that follows its insertion. *)
Lemma cache_insert_found now k e cache :
  (length cache <= 100)%nat -> timestamp e = now ->
  omap_get k (cleanupCache now (omap_set k e cache)) = Some e.
Proof.
  intros Hlen Ht. unfold cleanupCache.
  set (f := fun '(_, v) => negb (cacheMaxAge <? now - timestamp v)).
  assert (Hfe : f (k, e) = true).
  { unfold f, cacheMaxAge. rewrite Ht. replace (now - now) with 0 by lia. reflexivity. }
  assert (Hget : omap_get k (List.filter f (omap_set k e cache)) = Some e)
    by (apply omap_get_filter; [apply omap_get_set_eq | exact Hfe]).
  destruct (100 <? length (List.filter f (omap_set k e cache)))%nat eqn:E;
    [|exact Hget].
  apply Nat.ltb_lt in E.
  pose proof (filter_length_le f (omap_set k e cache)) as Hf.
  destruct (omap_get k cache) as [v0|] eqn:G.
  - rewrite (omap_set_present k e cache v0 G) in Hf. lia.
  - revert E Hget. rewrite (omap_set_absent k e cache G).
    rewrite List.filter_app. cbn [List.filter]. rewrite Hfe. intros E Hget.
    destruct (List.filter f cache) as [|[k0 v0] rest] eqn:El.
    + simpl in E. lia.
    + cbn [app omap_first_key].
      destruct (truthy k0); [|exact Hget].
      rewrite omap_get_delete_ne; [exact Hget|].
      intros <-.
      assert (Hin : In (k, v0) (List.filter f cache)) by (rewrite El; left; reflexivity).
      apply filter_In in Hin as [Hin _].
      clear - G Hin. induction cache as [|[k1 v1] c IH]; [destruct Hin|].
      simpl in G. destruct (String.eqb k k1) eqn:E1; [discriminate|].
      destruct Hin as [[= -> ->] | Hin]; [rewrite String.eqb_refl in E1; discriminate|].
      apply IH; assumption.
Qed.

(** On overflow the entry inserted first leaves. *)
Lemma cache_overflow_fifo now k e cache :
  length cache = 100%nat -> keys_truthy cache -> all_live now cache ->
  omap_get k cache = None -> now - timestamp e <= cacheMaxAge ->
  cleanupCache now (omap_set k e cache) = tl cache ++ [(k, e)].
Proof.
  intros Hlen Hk Hlive Hget He. unfold cleanupCache.
  rewrite (omap_set_absent k e cache Hget).
  rewrite filter_all.
  - rewrite length_app, Hlen. simpl.
    destruct cache as [|[k0 v0] rest]; [discriminate|].
    inversion Hk as [|? ? H1 _]; subst. simpl in H1.
    cbn [app omap_first_key]. rewrite H1, omap_delete_head. reflexivity.
  - apply Forall_app. split.
    + unfold all_live in Hlive. eapply List.Forall_impl; [|exact Hlive].
      intros [k' v'] H. simpl in *. apply negb_true_iff, Z.ltb_ge. exact H.
    + constructor; [|constructor]. apply negb_true_iff, Z.ltb_ge. exact He.
Qed.

(** ** The deduplication set *)

Lemma oset_delete_head x s : oset_delete x (x :: s) = s.
Proof. simpl. rewrite String.eqb_refl. reflexivity. Qed.

Lemma mark_sent_bound fp s :
  Forall (fun x => truthy x = true) s -> truthy fp = true ->
  (length s <= 100)%nat ->
  (length (mark_sent fp s) <= Nat.min (S (length s)) 100)%nat
  /\ Forall (fun x => truthy x = true) (mark_sent fp s).
Proof.
  intros Hs Hfp Hlen. unfold mark_sent, oset_add.
  destruct (oset_has fp s).
  - destruct (100 <? length s)%nat eqn:E; [apply Nat.ltb_lt in E; lia|].
    split; [lia | exact Hs].
  - assert (Hall : Forall (fun x => truthy x = true) (s ++ [fp]))
      by (apply Forall_app; split; [exact Hs | constructor; [exact Hfp | constructor]]).
    destruct (100 <? length (s ++ [fp]))%nat eqn:E.
    + apply Nat.ltb_lt in E. rewrite length_app in E. simpl in E.
      destruct (s ++ [fp]) as [|first rest] eqn:El.
      * destruct s; discriminate.
      * inversion Hall as [|? ? H1 H2]; subst. rewrite H1, oset_delete_head.
        assert (Hl : length (first :: rest) = (length s + 1)%nat)
          by (rewrite <- El, length_app; reflexivity).
        simpl in Hl. split; [lia | exact H2].
    + apply Nat.ltb_ge in E. rewrite length_app in *. simpl in *.
      split; [lia | exact Hall].
Qed.

Lemma mark_sent_overflow_fifo fp s :
  length s = 100%nat -> Forall (fun x => truthy x = true) s ->
  oset_has fp s = false ->
  mark_sent fp s = tl s ++ [fp].
Proof.
  intros Hlen Hs Hhas. unfold mark_sent, oset_add. rewrite Hhas.
  rewrite length_app, Hlen. simpl.
  destruct s as [|first rest]; [discriminate|].
  inversion Hs as [|? ? H1 _]; subst.
  cbn [app]. rewrite H1, oset_delete_head. reflexivity.
Qed.

(** ** The pause handler *)

Lemma exception_pause_eqb event :
  exception_pause event ->
  String.eqb (reason event) "exception" || String.eqb (reason event) "promiseRejection"
  = true.
Proof. intros [-> | ->]; reflexivity. Qed.

Lemma handlePaused_exception cfg heap throws now now' iso event m conn :
  session m = true -> exception_pause event ->
  exists m',
    handlePaused cfg heap throws now now' iso event (m, conn) = (m', conn)
    /\ posted m' = posted m ++ [DebuggerResume]
    /\ (rate_limited now m = true ->
        localsCache m' = localsCache m
        /\ sentExceptionFingerprints m' = sentExceptionFingerprints m
        /\ lastExceptionData m' = lastExceptionData m
        /\ pendingCaptures m' = pendingCaptures m)
    /\ (rate_limited now m = false ->
        localsCache m'
        = (if throws then localsCache m
           else cleanupCache now'
                  (omap_set (extractStackKey now (data event))
                            (harvested_entry cfg heap now' m event) (localsCache m)))
        /\ sentExceptionFingerprints m'
           = (if String.eqb (reason event) "exception"
              then mark_sent (computeFingerprintFromCallFrames (callFrames event)
                                                               (data event))
                             (sentExceptionFingerprints m)
              else sentExceptionFingerprints m)).
Proof.
  intros Hs He. unfold handlePaused, rate_limited.
  rewrite Hs, (exception_pause_eqb event He). cbn [negb].
  destruct (rateLimitReset m <? now); cbn [rateLimitCount set_rateLimit rateLimitReset].
  - destruct (rateLimitMax <? 0 + 1) eqn:E.
    + eexists. split; [reflexivity|]. unfold post. simpl. rewrite Hs. simpl.
      repeat split; intros; try discriminate; reflexivity.
    + eexists. split; [reflexivity|]. unfold post, harvest, captureAndCacheLocals.
      destruct throws, (String.eqb (reason event) "exception"); simpl; rewrite Hs;
        simpl; repeat split; intros; try discriminate; try reflexivity;
        unfold harvested_entry; rewrite Hs; reflexivity.
  - destruct (rateLimitMax <? rateLimitCount m + 1) eqn:E.
    + eexists. split; [reflexivity|]. unfold post. simpl. rewrite Hs. simpl.
      repeat split; intros; try discriminate; reflexivity.
    + eexists. split; [reflexivity|]. unfold post, harvest, captureAndCacheLocals.
      destruct throws, (String.eqb (reason event) "exception"); simpl; rewrite Hs;
        simpl; repeat split; intros; try discriminate; try reflexivity;
        unfold harvested_entry; rewrite Hs; reflexivity.
Qed.

(** C4. A pause for an exception or a promise rejection, handled by a
    session that is there, posts exactly one command to the debugger, and
    that command is the resume: whether the harvest succeeds, throws, or is
    skipped because the rate limit is used up, in which case the caches are
    left as they were. *)
Theorem paused_exception_resumes_once (cfg : AgentConfig) (heap : Heap)
    (throws : bool) (now now' : Z) (iso : string) (event : PausedEvent)
    (m : InspectorManager) (conn : Transport.BackendConnection) :
  session m = true ->
  exception_pause event ->
  let m' := fst (handlePaused cfg heap throws now now' iso event (m, conn)) in
  posted m' = posted m ++ [DebuggerResume]
  /\ resumes m' = S (resumes m)
  /\ (rate_limited now m = true ->
      localsCache m' = localsCache m
      /\ sentExceptionFingerprints m' = sentExceptionFingerprints m).
Proof.
  intros Hs He.
  destruct (handlePaused_exception cfg heap throws now now' iso event m conn Hs He)
    as (m1 & -> & Hp & Hr & _).
  cbn [fst]. split; [exact Hp|]. split.
  - unfold resumes. rewrite Hp, List.filter_app, length_app. simpl. lia.
  - intros H. destruct (Hr H) as (A & B & _). split; assumption.
Qed.

Lemma paused_exception_resumes_once_witness :
  session manager0 = true
  /\ exception_pause pause_boom
  /\ resumes (fst after_boom) = S (resumes manager0).
Proof.
  split; [reflexivity|]. split; [left; reflexivity|].
  destruct (paused_exception_resumes_once cfg0 heap_locals false t0 (t0 + 3)
              "2023-11-14T22:13:20.103Z" pause_boom manager0
              Transport.new_BackendConnection eq_refl (or_introl eq_refl))
    as (_ & H & _).
  exact H.
Defined.

(** C8. When the stack of an error is the very text the debugger reported
    as the description of the thrown value, and that text is not empty, the
    key the pipeline builds from the stack is the key the session built from
    the description; so the harvest the session cached at the pause is what
    [getLocalsForError] returns when asked within the five seconds the cache
    keeps it. *)
Theorem stack_key_round_trip (cfg : AgentConfig) (heap : Heap) (now now' t : Z)
    (iso : string) (event : PausedEvent) (d : ExceptionData) (s : string)
    (error : JSError) (m : InspectorManager) (conn : Transport.BackendConnection) :
  session m = true ->
  exception_pause event ->
  rate_limited now m = false ->
  (length (localsCache m) <= 100)%nat ->
  data event = Some d ->
  data_description d = Some s ->
  err_stack error = Some s ->
  truthy s = true ->
  t - now' < cacheMaxAge ->
  let m' := fst (handlePaused cfg heap false now now' iso event (m, conn)) in
  extractStackKey now (data event) = error_stack_key s
  /\ fst (getLocalsForError error t m')
     = Some (locals (harvested_entry cfg heap now' m event),
             cached_stackTrace (harvested_entry cfg heap now' m event)).
Proof.
  intros Hs He Hr Hlen Hd Hdesc Hstack Htruthy Ht.
  destruct (handlePaused_exception cfg heap false now now' iso event m conn Hs He)
    as (m1 & -> & _ & _ & Hcache).
  destruct (Hcache Hr) as [Hc _]. cbn [fst].
  assert (Hkey : extractStackKey now (data event) = error_stack_key s).
  { rewrite Hd. destruct d as [cn desc]. simpl in Hdesc. subst desc.
    apply stack_key_agrees, Htruthy. }
  split; [exact Hkey|].
  unfold getLocalsForError. rewrite Hstack, Htruthy. cbn [negb].
  rewrite Hc, Hkey, cache_insert_found by (assumption || reflexivity).
  cbn [timestamp harvested_entry].
  replace (t - now' <? cacheMaxAge) with true by (symmetry; apply Z.ltb_lt, Ht).
  reflexivity.
Qed.

Lemma stack_key_round_trip_witness :
  session manager0 = true
  /\ exception_pause pause_boom
  /\ rate_limited t0 manager0 = false
  /\ (length (localsCache manager0) <= 100)%nat
  /\ truthy boom_stack = true
  /\ (t0 + 50) - (t0 + 3) < cacheMaxAge
  /\ option_map (fun r => map fst (fst r))
       (fst (getLocalsForError boom_error (t0 + 50) (fst after_boom)))
     = Some ["x"; "y"].
Proof.
  assert (L : (length (localsCache manager0) <= 100)%nat) by (simpl; lia).
  assert (T : (t0 + 50) - (t0 + 3) < cacheMaxAge) by (unfold cacheMaxAge; lia).
  split; [reflexivity|]. split; [left; reflexivity|]. split; [reflexivity|].
  split; [exact L|]. split; [reflexivity|]. split; [exact T|].
  destruct (stack_key_round_trip cfg0 heap_locals t0 (t0 + 3) (t0 + 50)
              "2023-11-14T22:13:20.103Z" pause_boom
              {| data_className := Some "Error"; data_description := Some boom_stack |}
              boom_stack boom_error manager0 Transport.new_BackendConnection
              eq_refl (or_introl eq_refl) eq_refl L eq_refl eq_refl eq_refl eq_refl T)
    as [_ H].
  unfold after_boom. rewrite H. reflexivity.
Defined.

(** A capture is pending only inside [handlePaused]: between pauses the
    map of pending captures is empty, which is why [getLocalsForError] has
    nothing to wait for. *)
Lemma handlePaused_no_pending cfg heap throws now now' iso event m conn :
  pendingCaptures m = [] ->
  pendingCaptures (fst (handlePaused cfg heap throws now now' iso event (m, conn))) = [].
Proof.
  intros Hp. destruct (session m) eqn:Hs.
  - destruct (String.eqb (reason event) "exception"
              || String.eqb (reason event) "promiseRejection") eqn:He.
    + unfold handlePaused. rewrite Hs, He. cbn [negb].
      destruct (rateLimitReset m <? now);
        cbn [rateLimitCount set_rateLimit rateLimitReset];
        match goal with |- context [rateLimitMax <? ?x] => destruct (rateLimitMax <? x) end;
        unfold post, harvest, captureAndCacheLocals;
        destruct throws, (String.eqb (reason event) "exception"); simpl;
        rewrite ?Hs; simpl; rewrite ?Hp; simpl;
        rewrite ?String.eqb_refl; try reflexivity; exact Hp.
    + unfold handlePaused. rewrite Hs, He. cbn [negb].
      destruct (find_hit (hitBreakpoints event) (breakpoints m)) as [hit|];
        [destruct (truthy hit); [destruct (harvest cfg heap throws m (callFrames event))|]|];
        unfold post; rewrite Hs; simpl; exact Hp.
  - unfold handlePaused. rewrite Hs. simpl. exact Hp.
Qed.

(** Fifty pauses within one second use the rate limit up: the next pause
    in that second is resumed at once and leaves the cache alone. *)
Example fifty_first_pause_is_limited :
  let st := session_run cfg0 (repeat (SePause boom_pause) 50)
              (manager0, Transport.new_BackendConnection) in
  rate_limited (t0 + 150) (fst st) = true
  /\ resumes (fst st) = 50%nat
  /\ resumes (fst (handlePaused cfg0 heap_locals false (t0 + 150) (t0 + 151) ""
                     pause_boom st)) = 51%nat.
Proof. vm_compute. repeat split. Qed.

(** ** Capacity of the two bounded structures *)

Lemma handlePaused_caches cfg heap throws now now' iso event m conn :
  let m' := fst (handlePaused cfg heap throws now now' iso event (m, conn)) in
  (localsCache m' = localsCache m
   \/ exists e, localsCache m'
                = cleanupCache now' (omap_set (extractStackKey now (data event)) e
                                              (localsCache m)))
  /\ (sentExceptionFingerprints m' = sentExceptionFingerprints m
      \/ sentExceptionFingerprints m'
         = mark_sent (computeFingerprintFromCallFrames (callFrames event) (data event))
                     (sentExceptionFingerprints m)).
Proof.
  destruct (session m) eqn:Hs.
  - destruct (String.eqb (reason event) "exception"
              || String.eqb (reason event) "promiseRejection") eqn:He.
    + assert (Hp : exception_pause event).
      { apply orb_true_iff in He as [H | H]; apply String.eqb_eq in H;
          [left | right]; exact H. }
      destruct (handlePaused_exception cfg heap throws now now' iso event m conn Hs Hp)
        as (m1 & -> & _ & Hlim & Hcap).
      cbn [fst]. destruct (rate_limited now m).
      * destruct (Hlim eq_refl) as (A & B & _). split; left; assumption.
      * destruct (Hcap eq_refl) as (A & B). split.
        -- destruct throws; [left; exact A | right; eexists; exact A].
        -- destruct (String.eqb (reason event) "exception");
             [right | left]; exact B.
    + unfold handlePaused. rewrite Hs, He. cbn [negb].
      destruct (find_hit (hitBreakpoints event) (breakpoints m)) as [hit|];
        [destruct (truthy hit); [destruct (harvest cfg heap throws m (callFrames event))|]|];
        unfold post; rewrite Hs; simpl; split; left; reflexivity.
  - unfold handlePaused. rewrite Hs. simpl. split; left; reflexivity.
Qed.

Lemma getLocalsForError_caches error now m :
  let m' := snd (getLocalsForError error now m) in
  (localsCache m' = localsCache m
   \/ exists k, localsCache m' = omap_delete k (localsCache m))
  /\ sentExceptionFingerprints m' = sentExceptionFingerprints m.
Proof.
  unfold getLocalsForError.
  destruct (err_stack error) as [stack|]; [|split; [left|]; reflexivity].
  destruct (negb (truthy stack)); [split; [left|]; reflexivity|].
  destruct (omap_get (error_stack_key stack) (localsCache m)) as [cached|];
    [|split; [left|]; reflexivity].
  destruct (now - timestamp cached <? cacheMaxAge); simpl.
  - split; [right; eexists|]; reflexivity.
  - split; [left|]; reflexivity.
Qed.

Lemma session_step_inv cfg n st e :
  session_inv n (fst st) ->
  session_inv (n + (if is_pause e then 1 else 0)) (fst (session_step cfg st e)).
Proof.
  intros (A & B & C & D). destruct st as [m conn]. cbn [fst] in *.
  destruct e as [p | error now]; cbn [session_step is_pause fst snd].
  - pose proof (handlePaused_caches cfg (p_heap p) (p_throws p) (p_now p)
                  (p_settled p) (p_iso p) (p_event p) m conn) as [Hc Hf].
    cbv zeta in Hc, Hf. unfold session_inv.
    assert (Hcache :
              (length (localsCache (fst (handlePaused cfg (p_heap p) (p_throws p) (p_now p)
                  (p_settled p) (p_iso p) (p_event p) (m, conn)))) <= Nat.min (n + 1) 100)%nat
              /\ keys_truthy (localsCache (fst (handlePaused cfg (p_heap p) (p_throws p)
                  (p_now p) (p_settled p) (p_iso p) (p_event p) (m, conn))))).
    { destruct Hc as [-> | [e ->]]; [split; [lia | exact B]|].
      destruct (cache_insert_bound (p_settled p)
                  (extractStackKey (p_now p) (data (p_event p))) e (localsCache m))
        as [X Y]; [apply extractStackKey_truthy | exact B | lia |].
      split; [lia | exact Y]. }
    assert (Hset :
              (length (sentExceptionFingerprints (fst (handlePaused cfg (p_heap p)
                  (p_throws p) (p_now p) (p_settled p) (p_iso p) (p_event p) (m, conn))))
               <= Nat.min (n + 1) 100)%nat
              /\ Forall (fun x => truthy x = true)
                   (sentExceptionFingerprints (fst (handlePaused cfg (p_heap p)
                      (p_throws p) (p_now p) (p_settled p) (p_iso p) (p_event p) (m, conn))))).
    { destruct Hf as [-> | ->]; [split; [lia | exact D]|].
      destruct (mark_sent_bound
                  (computeFingerprintFromCallFrames (callFrames (p_event p))
                                                    (data (p_event p)))
                  (sentExceptionFingerprints m) D)
        as [X Y]; [apply fingerprint_truthy | lia |].
      split; [lia | exact Y]. }
    destruct Hcache, Hset. repeat split; assumption.
  - pose proof (getLocalsForError_caches error now m) as [Hc Hf].
    cbv zeta in Hc, Hf. unfold session_inv. rewrite Hf, Nat.add_0_r.
    destruct Hc as [-> | [k ->]]; [repeat split; assumption|].
    pose proof (omap_delete_length_le k (localsCache m)).
    repeat split; try assumption; [lia | apply keys_truthy_delete, B].
Qed.

Lemma session_run_inv cfg es : forall n st,
  session_inv n (fst st) ->
  session_inv (n + pauses es) (fst (session_run cfg es st)).
Proof.
  induction es as [|e es IH]; intros n st H; simpl.
  - unfold pauses. simpl. rewrite Nat.add_0_r. exact H.
  - pose proof (IH _ _ (session_step_inv cfg n st e H)) as H'.
    unfold pauses in *. simpl. destruct (is_pause e); simpl in *.
    + replace (n + S (length (List.filter is_pause es)))%nat
        with (n + 1 + length (List.filter is_pause es))%nat by lia. exact H'.
    + rewrite Nat.add_0_r in H'. exact H'.
Qed.

(** C9. Starting from an empty locals cache and an empty deduplication set,
    after a run with [N] pauses (each inserts at most once into either) and
    any number of look-ups, the cache holds at most [min N 100] entries and
    the set at most [min N 100] fingerprints, and neither holds an empty
    key.  When a full cache of unexpired entries receives a new key, or a
    full set a new fingerprint, the member inserted first is the one that
    leaves and the new one goes last. *)
Theorem bounded_structures_fifo (cfg : AgentConfig) (es : list SessionEvent)
    (m0 : InspectorManager) (conn0 : Transport.BackendConnection) :
  localsCache m0 = [] ->
  sentExceptionFingerprints m0 = [] ->
  let m := fst (session_run cfg es (m0, conn0)) in
  ((length (localsCache m) <= Nat.min (pauses es) 100)%nat
   /\ keys_truthy (localsCache m)
   /\ (length (sentExceptionFingerprints m) <= Nat.min (pauses es) 100)%nat
   /\ Forall (fun x => truthy x = true) (sentExceptionFingerprints m))
  /\ (forall now k e cache,
        length cache = 100%nat -> keys_truthy cache -> all_live now cache ->
        omap_get k cache = None -> now - timestamp e <= cacheMaxAge ->
        cleanupCache now (omap_set k e cache) = tl cache ++ [(k, e)])
  /\ (forall fp s,
        length s = 100%nat -> Forall (fun x => truthy x = true) s ->
        oset_has fp s = false ->
        mark_sent fp s = tl s ++ [fp]).
Proof.
  intros Hc Hs m. split; [|split].
  - apply (session_run_inv cfg es 0 (m0, conn0)).
    unfold session_inv. cbn [fst]. rewrite Hc, Hs. simpl.
    repeat split; try lia; constructor.
  - intros. apply cache_overflow_fifo; assumption.
  - intros. apply mark_sent_overflow_fifo; assumption.
Qed.

(** 101 distinct exceptions, spread over three seconds: the first one has
    left both structures, the other 100 are there in the order they came. *)
Example hundred_and_one_pauses :
  let m := fst (session_run cfg0 (map (fun n => SePause (numbered_pause n)) (seq 0 101))
                  (manager0, Transport.new_BackendConnection)) in
  map fst (localsCache m) = map (fun n => error_stack_key (numbered_stack n)) (seq 1 100)
  /\ sentExceptionFingerprints m
     = map (fun n => "Error|" +:+ num_to_string (Z.of_nat n + 1)) (seq 1 100).
Proof. vm_compute. split; reflexivity. Qed.

Lemma bounded_structures_fifo_witness :
  localsCache manager0 = []
  /\ sentExceptionFingerprints manager0 = []
  /\ (length (localsCache
                (fst (session_run cfg0 [SePause boom_pause; SePause boom_pause]
                        (manager0, Transport.new_BackendConnection)))) <= 2)%nat.
Proof.
  split; [reflexivity|]. split; [reflexivity|].
  destruct (bounded_structures_fifo cfg0 [SePause boom_pause; SePause boom_pause]
              manager0 Transport.new_BackendConnection eq_refl eq_refl)
    as ((H & _) & _).
  exact H.
Defined.

End SessionProperties.

(* ================================================================== *)
(** * Properties of the exception pipeline *)
(* ================================================================== *)

Section PipelineProperties.
Import JS Config Types Debugger Inspector Handler Spec Samples.

#[local] Arguments parseStackTrace : simpl never.
#[local] Arguments calculateFingerprint : simpl never.
#[local] Arguments error_stack_key : simpl never.
#[local] Arguments Transport.sendException : simpl never.
#[local] Arguments truthy : simpl never.

(** What [report] does once the sampling decision has passed. *)
Lemma report_sampled cfg h error ctx i m conn :
  shouldSample cfg (random i) = true ->
  exists capture m',
    report cfg h error ctx i (m, conn)
    = (m', Transport.sendException cfg (now i) capture conn)
    /\ exceptionType capture = reported_type error
    /\ stackTrace capture = parseStackTrace error
    /\ sentExceptionFingerprints m' = sentExceptionFingerprints m.
Proof.
  intros Hs. unfold report. rewrite Hs. cbn [negb].
  unfold createCapture, getLastExceptionData, isExceptionPauseEnabled.
  destruct (inspectorManager h) eqn:Hi; cbn [andb].
  - destruct (exceptionPauseEnabled m);
      [destruct (lastExceptionData m)|];
      match goal with
      | |- context [getLocalsForError error (now i) ?x] =>
          pose proof (getLocalsForError_caches error (now i) x) as [_ Hf];
          destruct (getLocalsForError error (now i) x) as [[cached|] m2]
      end;
      cbn [snd] in Hf; eexists; eexists; (split; [reflexivity|]);
      repeat split; try reflexivity; exact Hf.
  - eexists. eexists. split; [reflexivity|]. repeat split.
Qed.

Lemma report_not_sampled cfg h error ctx i st :
  shouldSample cfg (random i) = false -> report cfg h error ctx i st = st.
Proof. intros Hs. unfold report. destruct st. rewrite Hs. reflexivity. Qed.

(** The deduplication set has no part in what the pipeline sends. *)
Lemma report_ignores_dedup_set cfg h error ctx i m conn (s : oset) :
  snd (report cfg h error ctx i (set_sentExceptionFingerprints s m, conn))
  = snd (report cfg h error ctx i (m, conn)).
Proof.
  unfold report. destruct (shouldSample cfg (random i)); [|reflexivity].
  cbn [negb].
  unfold createCapture, getLastExceptionData, isExceptionPauseEnabled,
    getLocalsForError.
  destruct m as [ses en bps urls last pause_on sent cache pending cnt rst cmds].
  destruct (inspectorManager h), pause_on, last, (err_stack error) as [stack|];
    simpl; try reflexivity;
    destruct (truthy stack); simpl; try reflexivity;
    destruct (omap_get (error_stack_key stack) cache) as [cached|];
    simpl; try reflexivity;
    destruct (now i - timestamp cached <? cacheMaxAge); reflexivity.
Qed.

(** C1, as the code has it. Each of the three entry points of the pipeline
    ([capture], the uncaught-exception hook, the unhandled-rejection hook)
    hands one capture to the transport whenever the sampling decision
    passes, and does nothing otherwise; what it hands over is the same
    whatever the deduplication set holds, and the set is left as it was. *)
Theorem pipeline_emits_whatever_the_dedup_set (cfg : AgentConfig)
    (h : ExceptionHandler) (error : JSError) (ctx : omap ContextValue)
    (origin : string) (reason : Reason) (i : Inputs)
    (m : InspectorManager) (conn : Transport.BackendConnection) (s : oset) :
  let emits (st' : InspectorManager * Transport.BackendConnection) : Prop :=
    if shouldSample cfg (random i)
    then exists capture,
           snd st' = Transport.sendException cfg (now i) capture conn
           /\ sentExceptionFingerprints (fst st') = sentExceptionFingerprints m
    else st' = (m, conn) in
  emits (capture cfg h error ctx i (m, conn))
  /\ emits (handleUncaughtException cfg h error origin i (m, conn))
  /\ emits (handleUnhandledRejection cfg h reason i (m, conn))
  /\ snd (capture cfg h error ctx i (set_sentExceptionFingerprints s m, conn))
     = snd (capture cfg h error ctx i (m, conn)).
Proof.
  intros emits.
  assert (R : forall e c, emits (report cfg h e c i (m, conn))).
  { intros e c. unfold emits. destruct (shouldSample cfg (random i)) eqn:Hs.
    - destruct (report_sampled cfg h e c i m conn Hs) as (cap & m' & -> & _ & _ & Hf).
      exists cap. split; [reflexivity | exact Hf].
    - apply report_not_sampled, Hs. }
  split; [apply R|]. split; [apply R|]. split; [apply R|].
  apply report_ignores_dedup_set.
Qed.

(** C1, as the specification words it, fails: after the session has handled
    the pause for an exception and put its key ["Error|10"] in the
    deduplication set, the pipeline still hands the capture of that
    exception to the transport. *)
Lemma dedup_key_suppresses_fails : ~ dedup_key_suppresses.
Proof.
  intros H.
  assert (K : wasExceptionSentByInspector (reported_type boom_error)
                (parseStackTrace boom_error) (fst after_boom) = true)
    by (vm_compute; reflexivity).
  specialize (H cfg0 handler0 boom_error [] inputs0 (fst after_boom)
                Transport.new_BackendConnection eq_refl K).
  apply (f_equal (@length _)) in H. vm_compute in H. discriminate.
Qed.

Example after_boom_dedup_set :
  sentExceptionFingerprints (fst after_boom) = ["Error|10"].
Proof. vm_compute. reflexivity. Qed.

End PipelineProperties.

(* ================================================================== *)
(** * Properties of the agent *)
(* ================================================================== *)

Section AgentProperties.
Import JS Config Types Agent Spec Samples.

Lemma no_key_resolves_empty options (h : Host) :
  absent (opt_apiKey options) -> absent (env h !! "AIVORY_API_KEY") ->
  apiKey (new_AgentConfig options h) = "".
Proof.
  intros Ho He. unfold new_AgentConfig. cbn [apiKey].
  destruct Ho as [-> | ->], He as [-> | ->]; reflexivity.
Qed.

(** C10. When neither the options nor [AIVORY_API_KEY] give an API key,
    [init] on an agent that is not initialized leaves it so: [isInitialized]
    answers false, the process keeps the listeners it had, no connection, no
    handler and no debugger session is created, and a [captureException]
    that follows changes nothing and hands nothing to the transport. *)
Theorem init_without_api_key (options : ConfigOptions) (s : Surroundings)
    (w : World) :
  initialized w = false ->
  absent (opt_apiKey options) ->
  absent (env (host s) !! "AIVORY_API_KEY") ->
  let w' := init options s w in
  isInitialized w' = false
  /\ process w' = process w
  /\ connection w' = connection w
  /\ exceptionHandler w' = exceptionHandler w
  /\ inspectorManager w' = inspectorManager w
  /\ hooks_installed w' = hooks_installed w
  /\ sockets_opened w' = sockets_opened w
  /\ (forall error ctx i,
        captureException error ctx i w' = w'
        /\ outbound (captureException error ctx i w') = outbound w).
Proof.
  intros Hi Ho He w'.
  assert (E : w' = {| initialized := initialized w;
                      config := Some (new_AgentConfig options (host s));
                      connection := connection w;
                      exceptionHandler := exceptionHandler w;
                      inspectorManager := inspectorManager w;
                      process := process w |}).
  { unfold w', init. rewrite Hi, (no_key_resolves_empty options (host s) Ho He).
    reflexivity. }
  rewrite E. unfold isInitialized, hooks_installed, sockets_opened, outbound.
  cbn [initialized process connection exceptionHandler inspectorManager].
  repeat split; try assumption; try reflexivity;
    unfold captureException; cbn [initialized]; rewrite Hi; reflexivity.
Qed.

Lemma init_without_api_key_witness :
  initialized (fresh process0) = false
  /\ absent (opt_apiKey noOptions)
  /\ absent (env host0 !! "AIVORY_API_KEY")
  /\ isInitialized (init noOptions calm (fresh process0)) = false
  /\ hooks_installed (init noOptions calm (fresh process0)) = false
  /\ sockets_opened (init noOptions calm (fresh process0)) = 0%nat
  /\ outbound (captureException boom_error [] inputs0
                 (init noOptions calm (fresh process0))) = [].
Proof.
  assert (A : absent (opt_apiKey noOptions)) by (left; reflexivity).
  assert (B : absent (env (host calm) !! "AIVORY_API_KEY")) by (left; reflexivity).
  destruct (init_without_api_key noOptions calm (fresh process0) eq_refl A B)
    as (H1 & _ & _ & _ & _ & H6 & H7 & H8).
  split; [reflexivity|]. split; [exact A|]. split; [exact B|].
  split; [exact H1|]. split; [exact H6|]. split; [exact H7|].
  exact (proj2 (H8 boom_error [] inputs0)).
Defined.

(** With an API key the same call does initialize the agent: the hooks are
    on the process and a socket is being opened. *)
Example init_with_api_key :
  let w := init {| opt_apiKey := Some "key-1"; opt_backendUrl := None;
                   opt_environment := None; opt_samplingRate := None;
                   opt_maxCaptureDepth := None; opt_maxStringLength := None;
                   opt_maxCollectionSize := None; opt_enableBreakpoints := None;
                   opt_enableSourceMaps := None; opt_debug := None;
                   opt_scopeDepth := None |} calm (fresh process0) in
  isInitialized w = true /\ hooks_installed w = true /\ sockets_opened w = 1%nat.
Proof. vm_compute. repeat split. Qed.

End AgentProperties.

(* ================================================================== *)
(** * More properties of the exception pipeline *)
(* ================================================================== *)

Section StackTraceProperties.
Import JS Config Types Handler Spec Terms Samples.

Lemma parse_lines_firstn lines : forall frames,
  (length frames < 50)%nat ->
  parse_lines lines frames = firstn 50 (frames ++ flat_map frames_of_line lines).
Proof.
  induction lines as [|line rest IH]; intros frames Hlen; cbn [parse_lines].
  - cbn [flat_map]. rewrite app_nil_r. symmetry. apply firstn_all2. lia.
  - change (flat_map frames_of_line (line :: rest))
      with (option_list (parseStackFrame line) ++ flat_map frames_of_line rest).
    destruct (parseStackFrame line) as [frame|]; unfold option_list;
      cbn [option_rect app].
    + destruct (50 <=? length (frames ++ [frame]))%nat eqn:E.
      * apply Nat.leb_le in E. rewrite length_app in E. cbn [length] in E.
        replace (frames ++ frame :: flat_map frames_of_line rest)
          with ((frames ++ [frame]) ++ flat_map frames_of_line rest)
          by (rewrite <- app_assoc; reflexivity).
        rewrite firstn_app.
        replace (50 - length (frames ++ [frame]))%nat with 0%nat
          by (rewrite length_app; cbn [length]; lia).
        rewrite firstn_O, app_nil_r. symmetry. apply firstn_all2.
        rewrite length_app. cbn [length]. lia.
      * apply Nat.leb_gt in E. rewrite IH by exact E.
        rewrite <- app_assoc. reflexivity.
    + destruct (50 <=? length frames)%nat eqn:E.
      * apply Nat.leb_le in E. lia.
      * apply IH, Hlen.
Qed.

(** X1. The parsed stack trace is made of the frames of the stack's lines
    after the first, in order, cut after 50 frames; the first line is
    dropped whatever it holds, and an error without a stack gives no frame. *)
Theorem parseStackTrace_frames (error : JSError) :
  parseStackTrace error
  = firstn 50 (flat_map frames_of_line
                 (skipn 1 (split_lines (or_else (err_stack error) ""))))
  /\ (length (parseStackTrace error) <= 50)%nat
  /\ (err_stack error = None -> parseStackTrace error = []).
Proof.
  assert (E : parseStackTrace error
              = firstn 50 (flat_map frames_of_line
                             (skipn 1 (split_lines (or_else (err_stack error) ""))))).
  { unfold parseStackTrace. rewrite parse_lines_firstn by (simpl; lia). reflexivity. }
  split; [exact E|]. split.
  - rewrite E, length_firstn. lia.
  - intros H. rewrite E, H. reflexivity.
Qed.

Lemma fingerprint_parts_spec stackTrace : forall added parts,
  fingerprint_parts stackTrace added parts
  = parts ++ map frame_entry
               (firstn (5 - added) (List.filter (fun f => negb (isNative f)) stackTrace)).
Proof.
  induction stackTrace as [|frame rest IH]; intros added parts;
    cbn [fingerprint_parts List.filter].
  - rewrite firstn_nil, app_nil_r. reflexivity.
  - destruct (5 <=? added)%nat eqn:E.
    + apply Nat.leb_le in E. replace (5 - added)%nat with 0%nat by lia.
      rewrite firstn_O, app_nil_r. reflexivity.
    + apply Nat.leb_gt in E. destruct (isNative frame); cbn [negb].
      * apply IH.
      * rewrite IH. replace (5 - added)%nat with (S (5 - S added)) by lia.
        cbn [firstn map]. rewrite <- app_assoc. reflexivity.
Qed.

(** X2. The capture fingerprint hashes the error's name (["Error"] when the
    name is empty) joined by [":"] with the [method:line] entries of the
    first five frames that are not native; native frames and any frame after
    those five have no part in it. *)
Theorem calculateFingerprint_first_five (error : JSError) (stackTrace : list StackFrame) :
  calculateFingerprint error stackTrace
  = Sha256Hex16
      (join ":" (reported_type error
                 :: map frame_entry
                      (firstn 5 (List.filter (fun f => negb (isNative f)) stackTrace)))).
Proof.
  unfold calculateFingerprint. rewrite fingerprint_parts_spec. reflexivity.
Qed.

(** X2, consequence: two stack traces that agree on their first five
    non-native frames' method names and line numbers get the same
    fingerprint for errors of the same name. *)
Corollary calculateFingerprint_agrees (e1 e2 : JSError) (st1 st2 : list StackFrame) :
  reported_type e1 = reported_type e2 ->
  map frame_entry (firstn 5 (List.filter (fun f => negb (isNative f)) st1))
  = map frame_entry (firstn 5 (List.filter (fun f => negb (isNative f)) st2)) ->
  calculateFingerprint e1 st1 = calculateFingerprint e2 st2.
Proof.
  intros Hn Hf. rewrite !calculateFingerprint_first_five, Hn, Hf. reflexivity.
Qed.

End StackTraceProperties.

Section HookProperties.
Import JS Config Types Handler Spec Terms Samples.

(** X3. Installing the hooks puts one agent listener after the application's
    on each of the two events and remembers the first listener of each;
    uninstalling removes every listener and puts back only the remembered
    one.  So an application with at most one listener per event gets its
    process back as it was, and one with more loses all but the first. *)
Theorem install_then_uninstall (h : ExceptionHandler) (p : Process) :
  installed h = false ->
  let st1 := install (h, p) in
  let st2 := uninstall st1 in
  uncaughtException (snd st1) = uncaughtException p ++ [AgentUncaughtException]
  /\ unhandledRejection (snd st1) = unhandledRejection p ++ [AgentUnhandledRejection]
  /\ installed (fst st2) = false
  /\ uncaughtException (snd st2) = firstn 1 (uncaughtException p)
  /\ unhandledRejection (snd st2) = firstn 1 (unhandledRejection p)
  /\ ((length (uncaughtException p) <= 1)%nat ->
      (length (unhandledRejection p) <= 1)%nat -> snd st2 = p).
Proof.
  intros Hi. unfold install, uninstall. rewrite Hi. cbn.
  destruct p as [u r c e k]. cbn.
  repeat split.
  - destruct u; reflexivity.
  - destruct r; reflexivity.
  - intros Hu Hr. destruct u as [|? [|? ?]], r as [|? [|? ?]]; cbn in *;
      try lia; reflexivity.
Qed.

Lemma install_then_uninstall_witness :
  installed (setInspectorManager new_ExceptionHandler) = false
  /\ uncaughtException
       (snd (uninstall (install (setInspectorManager new_ExceptionHandler,
                                 process_two_listeners))))
     = [HostListener "log"].
Proof.
  split; [reflexivity|].
  destruct (install_then_uninstall (setInspectorManager new_ExceptionHandler)
              process_two_listeners eq_refl) as (_ & _ & _ & H & _).
  exact H.
Defined.

Lemma omap_get_set_ne {V} (k k' : string) (v : V) (m : omap V) :
  k <> k' -> omap_get k (omap_set k' v m) = omap_get k m.
Proof.
  intros Hne. induction m as [|[k0 v0] m IH]; simpl.
  - destruct (String.eqb k k') eqn:E; [apply String.eqb_eq in E; contradiction|].
    reflexivity.
  - destruct (String.eqb k' k0) eqn:E0; simpl.
    + apply String.eqb_eq in E0. subst k0.
      destruct (String.eqb k k') eqn:E; [apply String.eqb_eq in E; contradiction|].
      reflexivity.
    + destruct (String.eqb k k0); [reflexivity | exact IH].
Qed.

Lemma omap_get_not_key {V} (k : string) (m : omap V) :
  ~ In k (map fst m) -> omap_get k m = None.
Proof.
  induction m as [|[k0 v0] m IH]; simpl; [reflexivity|].
  intros H. destruct (String.eqb k k0) eqn:E.
  - apply String.eqb_eq in E. subst k0. exfalso. apply H. left. reflexivity.
  - apply IH. intros Hin. apply H. right. exact Hin.
Qed.

Lemma overlay_get {V} (k : string) (ctx : omap V) : forall base,
  List.NoDup (map fst ctx) ->
  omap_get k (fold_left (fun acc '(k, v) => omap_set k v acc) ctx base)
  = match omap_get k ctx with
    | Some v => Some v
    | None => omap_get k base
    end.
Proof.
  induction ctx as [|[k1 v1] rest IH]; intros base Hnd; simpl; [reflexivity|].
  inversion Hnd as [|? ? Hnot Hnd']; subst.
  rewrite IH by exact Hnd'.
  destruct (String.eqb k k1) eqn:E.
  - apply String.eqb_eq in E. subst k1.
    rewrite (omap_get_not_key k rest Hnot). apply omap_get_set_eq.
  - destruct (omap_get k rest); [reflexivity|].
    apply omap_get_set_ne. intros ->. rewrite String.eqb_refl in E. discriminate.
Qed.

Lemma omap_get_map_data (k : string) (l : list (string * string)) :
  omap_get k (map (fun '(k, v) => (k, CtxData v)) l)
  = option_map CtxData (omap_get k l).
Proof.
  induction l as [|[k0 v0] l IH]; simpl; [reflexivity|].
  destruct (String.eqb k k0); [reflexivity | exact IH].
Qed.

(** X4. In the context of a capture the [user] entry is always the user of
    the configuration, also when the caller passes a [user] key of its own;
    any other key of the call's context is kept with the caller's value, and
    a key the caller does not pass keeps the value of the custom context. *)
Theorem capture_context_precedence (cfg : AgentConfig) (h : ExceptionHandler)
    (error : JSError) (ctx : omap ContextValue) (i : Inputs)
    (m : Inspector.InspectorManager) (k : string) :
  List.NoDup (map fst ctx) ->
  let capture := fst (createCapture cfg h error ctx i m) in
  omap_get "user" (context capture) = Some (CtxUser (user cfg))
  /\ (k <> "user" ->
      omap_get k (context capture)
      = match omap_get k ctx with
        | Some v => Some v
        | None => option_map CtxData (omap_get k (customContext cfg))
        end).
Proof.
  intros Hnd capture.
  assert (E : context capture
              = omap_set "user" (CtxUser (user cfg)) (merged_context cfg ctx)).
  { unfold capture, createCapture.
    destruct (inspectorManager h && Inspector.isExceptionPauseEnabled m);
      [destruct (Inspector.getLastExceptionData m) as [[d|] m1]|]; reflexivity. }
  rewrite E. split; [apply omap_get_set_eq|].
  intros Hk. rewrite omap_get_set_ne by exact Hk.
  unfold merged_context. rewrite overlay_get by exact Hnd.
  rewrite omap_get_map_data. reflexivity.
Qed.

Lemma capture_context_precedence_witness :
  List.NoDup (map fst [("user", CtxData "mallory"); ("operation", CtxData "test")])
  /\ omap_get "user"
       (context (fst (createCapture cfg0 handler0 boom_error
                        [("user", CtxData "mallory"); ("operation", CtxData "test")]
                        inputs0 manager0)))
     = Some (CtxUser (user cfg0)).
Proof.
  assert (N : List.NoDup (map fst [("user", CtxData "mallory"); ("operation", CtxData "test")])).
  { repeat constructor; simpl; intros H;
      repeat (destruct H as [H | H]; [discriminate|]); exact H. }
  split; [exact N|].
  exact (proj1 (capture_context_precedence cfg0 handler0 boom_error _ inputs0 manager0
                  "operation" N)).
Defined.

End HookProperties.

(* ================================================================== *)
(** * More properties of the transport *)
(* ================================================================== *)

Section SessionLifecycle.
Import JS Config Types Transport Spec Terms Samples.

Lemma send_state now type payload c :
  ws (send now type payload c) = ws c
  /\ authenticated (send now type payload c) = authenticated c
  /\ heartbeatInterval (send now type payload c) = heartbeatInterval c
  /\ connected (send now type payload c) = connected c
  /\ sockets (send now type payload c) = sockets c.
Proof.
  unfold send. destruct (is_open (ws c) && authenticated c); simpl;
    [|destruct (100 <? _)]; repeat split.
Qed.

Lemma send_all_state calls : forall c,
  ws (send_all calls c) = ws c
  /\ authenticated (send_all calls c) = authenticated c.
Proof.
  induction calls as [|s calls IH]; intros c; simpl; [split; reflexivity|].
  destruct (IH (send (at_time s) (of_type s) (with_payload s) c)) as [A B].
  destruct (send_state (at_time s) (of_type s) (with_payload s) c) as (C & D & _).
  unfold send_all in *. rewrite A, B, C, D. split; reflexivity.
Qed.

Lemma handleRegistered_open c :
  is_open (ws c) = true ->
  wire (handleRegistered c) = wire c ++ messageQueue c
  /\ messageQueue (handleRegistered c) = [].
Proof.
  intros Hopen.
  pose proof (stopHeartbeat_fields (set_authenticated true c))
    as (Hws & Hw & Hq & _).
  assert (Hopen1 : is_open (ws (startHeartbeat (set_authenticated true c))) = true).
  { unfold startHeartbeat. simpl. rewrite Hws. exact Hopen. }
  destruct (drain_open (messageQueue (startHeartbeat (set_authenticated true c)))
              _ Hopen1) as (Dw & Dq & _).
  unfold handleRegistered. rewrite Dw, Dq. unfold startHeartbeat. simpl.
  rewrite Hw, Hq. split; reflexivity.
Qed.

(** X5. When a socket opens on a connection that is not registered, the
    [register] message is the first thing written to it; messages handed to
    [send] before the acknowledgement wait behind those already queued, and
    the acknowledgement then writes all of them in the order they were
    handed over, none lost as long as they are at most 100. *)
Theorem open_send_register_order (cfg : AgentConfig) (now : Z)
    (c : BackendConnection) (calls : list SendCall) :
  ws c <> None ->
  authenticated c = false ->
  (length (messageQueue c) + length calls <= 100)%nat ->
  let c1 := send_all calls (on_open cfg now c) in
  wire c1 = wire c ++ [register_message cfg now]
  /\ wire (handleRegistered c1)
     = wire c ++ [register_message cfg now] ++ messageQueue c ++ map message_of calls
  /\ messageQueue (handleRegistered c1) = [].
Proof.
  intros Hws Hauth Hlen c1.
  assert (Hopen : ws (on_open cfg now c) = Some OPEN
                  /\ authenticated (on_open cfg now c) = false
                  /\ wire (on_open cfg now c) = wire c ++ [register_message cfg now]
                  /\ messageQueue (on_open cfg now c) = messageQueue c).
  { unfold on_open, authenticate, register_message.
    destruct c as [[w|] ? ? ? ? ? ? ? ? ? ? ?]; simpl in *;
      [repeat split; assumption | contradiction]. }
  destruct Hopen as (Ow & Oa & Owire & Oq).
  assert (Hreg : registered (on_open cfg now c) = false)
    by (unfold registered; rewrite Oa; apply andb_false_r).
  destruct (send_all_unregistered calls (on_open cfg now c) Hreg) as [Sq Sw];
    [rewrite Oq; lia|].
  destruct (send_all_state calls (on_open cfg now c)) as [Sws _].
  fold c1 in Sq, Sw, Sws.
  assert (Hq : messageQueue c1 = messageQueue c ++ map message_of calls).
  { rewrite Sq, Oq. apply lastn_all. rewrite length_app, length_map. exact Hlen. }
  destruct (handleRegistered_open c1) as [Hw He];
    [rewrite Sws, Ow; reflexivity|].
  split; [rewrite Sw; exact Owire|]. split; [|exact He].
  rewrite Hw, Sw, Owire, Hq, <- app_assoc. reflexivity.
Qed.

Lemma open_send_register_order_witness :
  ws (connect false new_BackendConnection) <> None
  /\ authenticated (connect false new_BackendConnection) = false
  /\ (length (messageQueue (connect false new_BackendConnection))
      + length (firstn 3 hundred_and_one) <= 100)%nat
  /\ wire (handleRegistered
             (send_all (firstn 3 hundred_and_one)
                       (on_open cfg0 5 (connect false new_BackendConnection))))
     = register_message cfg0 5 :: map message_of (firstn 3 hundred_and_one).
Proof.
  assert (A : ws (connect false new_BackendConnection) <> None) by discriminate.
  assert (B : (length (messageQueue (connect false new_BackendConnection))
               + length (firstn 3 hundred_and_one) <= 100)%nat) by (simpl; lia).
  split; [exact A|]. split; [reflexivity|]. split; [exact B|].
  destruct (open_send_register_order cfg0 5 (connect false new_BackendConnection)
              (firstn 3 hundred_and_one) A eq_refl B) as (_ & H & _).
  exact H.
Defined.

Lemma drain_state q : forall c,
  heartbeatInterval (drain q c) = heartbeatInterval c
  /\ authenticated (drain q c) = authenticated c.
Proof.
  induction q as [|msg rest IH]; intros c; simpl; [split; reflexivity|].
  destruct (is_open (ws c));
    match goal with |- context [drain rest ?x] => destruct (IH x) as [A B] end;
    rewrite A, B; split; reflexivity.
Qed.

Lemma scheduleReconnect_state c :
  heartbeatInterval (scheduleReconnect c) = heartbeatInterval c
  /\ authenticated (scheduleReconnect c) = authenticated c
  /\ connected (scheduleReconnect c) = connected c
  /\ sockets (scheduleReconnect c) = sockets c.
Proof.
  unfold scheduleReconnect.
  destruct (maxReconnectAttempts c <=? reconnectAttempts c); repeat split.
Qed.

Lemma step_heartbeat cfg c e :
  (heartbeatInterval c = true -> authenticated c = true) ->
  heartbeatInterval (step cfg c e) = true -> authenticated (step cfg c e) = true.
Proof.
  intros Hc.
  destruct e as [t | now | m | | | now type payload | now | ]; cbn [step].
  - unfold connect. destruct (connected c); [exact Hc|].
    destruct t; [|exact Hc].
    destruct (scheduleReconnect_state c) as (A & B & _). rewrite A, B. exact Hc.
  - unfold on_open, authenticate.
    destruct c as [[w|] ? ? ? ? ? ? ? ? ? ? ?]; simpl in *; exact Hc.
  - destruct m as [ | code | bp | i | ty | ]; cbn [handleMessage]; try exact Hc.
    + intros _. unfold handleRegistered.
      match goal with |- context [drain ?q ?x] => destruct (drain_state q x) as [_ B] end.
      rewrite B. unfold startHeartbeat, stopHeartbeat.
      destruct c as [[w|] ? ? ? ? ? [|] ? ? ? ? ?]; reflexivity.
    + unfold handleError.
      destruct (bool_decide (code = Some "auth_error")
                || bool_decide (code = Some "invalid_api_key")); [|exact Hc].
      unfold disconnect, stopHeartbeat.
      destruct c as [[w|] ? ? ? ? ? [|] ? ? ? ? ?]; simpl; discriminate.
  - unfold on_close.
    match goal with |- context [scheduleReconnect ?x] =>
      destruct (scheduleReconnect_state x) as (A & B & _) end.
    rewrite A, B. unfold stopHeartbeat.
    destruct c as [[w|] ? ? ? ? ? [|] ? ? ? ? ?]; simpl; discriminate.
  - exact Hc.
  - destruct (send_state now type payload c) as (_ & A & B & _). rewrite A, B. exact Hc.
  - unfold heartbeat_tick.
    destruct (send_state now "heartbeat" (PHeartbeat now (agentId cfg)) c)
      as (_ & A & B & _).
    rewrite A, B. exact Hc.
  - unfold disconnect, stopHeartbeat.
    destruct c as [[w|] ? ? ? ? ? [|] ? ? ? ? ?]; simpl; discriminate.
Qed.

(** X6. The heartbeat timer runs only while the registration is
    acknowledged: in every state a connection can reach, a running timer
    means [authenticated] holds, and a close of the socket or a [disconnect]
    stops the timer. *)
Theorem heartbeat_only_while_authenticated (cfg : AgentConfig) (es : list Event) :
  let c := run cfg new_BackendConnection es in
  (heartbeatInterval c = true -> authenticated c = true)
  /\ heartbeatInterval (on_close c) = false
  /\ heartbeatInterval (disconnect c) = false.
Proof.
  intros c. split; [|split].
  - unfold c. clear c.
    assert (G : forall es c0,
               (heartbeatInterval c0 = true -> authenticated c0 = true) ->
               heartbeatInterval (run cfg c0 es) = true ->
               authenticated (run cfg c0 es) = true).
    { clear es. induction es as [|e es IH]; intros c0 H0; simpl; [exact H0|].
      apply IH, step_heartbeat, H0. }
    apply G. simpl. discriminate.
  - unfold on_close.
    match goal with |- context [scheduleReconnect ?x] =>
      destruct (scheduleReconnect_state x) as (A & _) end.
    rewrite A. unfold stopHeartbeat.
    destruct c as [[w|] ? ? ? ? ? [|] ? ? ? ? ?]; reflexivity.
  - unfold disconnect, stopHeartbeat.
    destruct c as [[w|] ? ? ? ? ? [|] ? ? ? ? ?]; reflexivity.
Qed.

(** X7. [disconnect] does not call the reconnection off: unless a credential
    failure has disabled it or the attempts are used up, the close of the
    socket that follows sets the next reconnect timer, and the [connect] that
    timer runs opens a new socket. *)
Theorem close_after_disconnect_reconnects (cfg : AgentConfig) (es : list Event) :
  let c := run cfg new_BackendConnection es in
  reconnectAttempts c < maxReconnectAttempts c ->
  timers (on_close (disconnect c)) = timers c ++ [backoff (reconnectAttempts c + 1)]
  /\ sockets (connect false (on_close (disconnect c))) = S (sockets c).
Proof.
  intros c Hlt.
  assert (Hc : conn_inv c) by apply (run_inv cfg es _ new_inv).
  destruct Hc as (Hd & _).
  destruct (disconnect_fields c) as (_ & B & C & D & E).
  destruct (on_close_as_schedule (disconnect c)) as (c0 & Hclose & _ & B0 & C0 & D0 & E0).
  destruct (scheduleReconnect_spec c0) as (S1 & _).
  rewrite B0, C0, B, C in S1. destruct (S1 Hlt) as [_ T].
  split.
  - rewrite Hclose, T, E0, E, D0, D, Hd. unfold backoff.
    replace (reconnectAttempts c + 1 - 1) with (reconnectAttempts c) by lia.
    reflexivity.
  - unfold connect, on_close.
    match goal with |- context [scheduleReconnect ?x] =>
      destruct (scheduleReconnect_state x) as (_ & _ & A & S) end.
    rewrite A.
    match goal with |- context [stopHeartbeat ?x] =>
      pose proof (stopHeartbeat_fields x) as (_ & _ & _ & _ & K & _) end.
    rewrite K. cbn [connected set_authenticated set_connected].
    cbn [sockets open_socket]. f_equal. rewrite S.
    unfold disconnect, stopHeartbeat.
    destruct c as [[w|] ? ? ? ? ? [|] ? ? ? ? ?]; reflexivity.
Qed.

Lemma close_after_disconnect_reconnects_witness :
  reconnectAttempts (run cfg0 new_BackendConnection [EvConnect false; EvOpen 0])
  < maxReconnectAttempts (run cfg0 new_BackendConnection [EvConnect false; EvOpen 0])
  /\ timers (on_close (disconnect
                         (run cfg0 new_BackendConnection [EvConnect false; EvOpen 0])))
     = [1000].
Proof.
  assert (L : reconnectAttempts (run cfg0 new_BackendConnection [EvConnect false; EvOpen 0])
              < maxReconnectAttempts
                  (run cfg0 new_BackendConnection [EvConnect false; EvOpen 0]))
    by (vm_compute; reflexivity).
  split; [exact L|].
  exact (proj1 (close_after_disconnect_reconnects cfg0 [EvConnect false; EvOpen 0] L)).
Defined.

End SessionLifecycle.

(* ================================================================== *)
(** * More properties of the debugger session *)
(* ================================================================== *)

Section DedupAndCache.
Import JS Config Types Debugger Harvester Inspector Spec Terms Samples.

#[local] Arguments extractStackKey : simpl never.
#[local] Arguments computeFingerprintFromCallFrames : simpl never.
#[local] Arguments captureCallFramesAsync : simpl never.
#[local] Arguments cleanupCache : simpl never.
#[local] Arguments mark_sent : simpl never.
#[local] Arguments truthy : simpl never.

Lemma oset_has_app x s t : oset_has x (s ++ t) = oset_has x s || oset_has x t.
Proof. unfold oset_has. apply existsb_app. Qed.

Lemma oset_has_single x : oset_has x [x] = true.
Proof. unfold oset_has. simpl. rewrite String.eqb_refl. reflexivity. Qed.

(** A fingerprint just marked is in the set, also after the eviction. *)
Lemma mark_sent_has fp s :
  (length s <= 100)%nat -> oset_has fp (mark_sent fp s) = true.
Proof.
  intros Hlen. unfold mark_sent, oset_add.
  destruct (oset_has fp s) eqn:Hhas.
  - destruct (100 <? length s)%nat eqn:E; [apply Nat.ltb_lt in E; lia|]. exact Hhas.
  - assert (Hin : oset_has fp (s ++ [fp]) = true)
      by (rewrite oset_has_app, oset_has_single; apply orb_true_r).
    destruct (100 <? length (s ++ [fp]))%nat eqn:E; [|exact Hin].
    apply Nat.ltb_lt in E.
    destruct s as [|first rest]; [simpl in E; lia|]. cbn [app].
    destruct (truthy first); [|exact Hin].
    rewrite oset_delete_head.
    cbn [app] in Hin. unfold oset_has in *. cbn [existsb] in *.
    destruct (String.eqb fp first); [discriminate|]. exact Hin.
Qed.

Lemma fingerprint_of_class frames cn desc :
  truthy cn = true ->
  computeFingerprintFromCallFrames frames
    (Some {| data_className := Some cn; data_description := desc |})
  = cn +:+ "|"
    +:+ join "|" (map num_to_string
                    (map (fun f => loc_lineNumber (location f) + 1) (firstn 3 frames))).
Proof.
  intros H. unfold computeFingerprintFromCallFrames, is_some_truthy.
  cbn [data_className]. rewrite H. reflexivity.
Qed.

(** X8. After the session has handled an exception pause the rate limiter
    let through, [wasExceptionSentByInspector] answers true for the class
    name the debugger reported and any parsed stack whose first three line
    numbers are the paused frames' lines counted from 1: the two sides build
    the same key, although one starts from 0-indexed debugger locations. *)
Theorem dedup_key_found_after_pause (cfg : AgentConfig) (heap : Heap)
    (throws : bool) (now now' : Z) (iso : string) (event : PausedEvent)
    (cn : string) (desc : option string) (stackTrace : list StackFrame)
    (m : InspectorManager) (conn : Transport.BackendConnection) :
  session m = true ->
  reason event = "exception" ->
  rate_limited now m = false ->
  (length (sentExceptionFingerprints m) <= 100)%nat ->
  data event = Some {| data_className := Some cn; data_description := desc |} ->
  truthy cn = true ->
  map lineNumber (firstn 3 stackTrace) = top_lines (callFrames event) ->
  wasExceptionSentByInspector cn stackTrace
    (fst (handlePaused cfg heap throws now now' iso event (m, conn))) = true.
Proof.
  intros Hs Hr Hlim Hlen Hd Hcn Hlines.
  destruct (handlePaused_exception cfg heap throws now now' iso event m conn Hs
              (or_introl Hr)) as (m1 & -> & _ & _ & Hcap).
  destruct (Hcap Hlim) as [_ Hset]. cbn [fst].
  rewrite Hr in Hset. change (String.eqb "exception" "exception") with true in Hset.
  cbv iota in Hset.
  unfold wasExceptionSentByInspector. rewrite Hset, Hd, fingerprint_of_class by exact Hcn.
  replace (map (fun f => default 0 (lineNumber f)) (firstn 3 stackTrace))
    with (map (fun f => loc_lineNumber (location f) + 1) (firstn 3 (callFrames event))).
  - apply mark_sent_has, Hlen.
  - rewrite <- (map_map lineNumber (default 0)), Hlines. unfold top_lines.
    rewrite map_map. reflexivity.
Qed.

Lemma dedup_key_found_after_pause_witness :
  session manager0 = true
  /\ rate_limited t0 manager0 = false
  /\ map lineNumber (firstn 3 (Handler.parseStackTrace boom_error))
     = top_lines (callFrames pause_boom)
  /\ wasExceptionSentByInspector "Error" (Handler.parseStackTrace boom_error)
       (fst after_boom) = true.
Proof.
  assert (L : (length (sentExceptionFingerprints manager0) <= 100)%nat) by (simpl; lia).
  assert (P : map lineNumber (firstn 3 (Handler.parseStackTrace boom_error))
              = top_lines (callFrames pause_boom)) by (vm_compute; reflexivity).
  split; [reflexivity|]. split; [reflexivity|]. split; [exact P|].
  exact (dedup_key_found_after_pause cfg0 heap_locals false t0 (t0 + 3)
           "2023-11-14T22:13:20.103Z" pause_boom "Error" (Some boom_stack)
           (Handler.parseStackTrace boom_error) manager0 Transport.new_BackendConnection
           eq_refl eq_refl eq_refl L eq_refl eq_refl P).
Defined.

(** ** Keys of the cache are unique *)

Lemma keys_omap_set {V} (k : string) (v : V) (m : omap V) :
  map fst (omap_set k v m)
  = if existsb (String.eqb k) (map fst m) then map fst m else map fst m ++ [k].
Proof.
  induction m as [|[k0 v0] m IH]; simpl; [reflexivity|].
  destruct (String.eqb k k0) eqn:E; simpl; [reflexivity|].
  rewrite IH. destruct (existsb (String.eqb k) (map fst m)); reflexivity.
Qed.

Lemma existsb_eqb_in (k : string) (l : list string) :
  existsb (String.eqb k) l = true <-> In k l.
Proof.
  rewrite existsb_exists. split.
  - intros (x & Hx & E). apply String.eqb_eq in E. subst x. exact Hx.
  - intros H. exists k. split; [exact H | apply String.eqb_refl].
Qed.

Lemma nodup_snoc (k : string) (l : list string) :
  List.NoDup l -> ~ In k l -> List.NoDup (l ++ [k]).
Proof.
  induction 1 as [|x l Hx Hl IH]; intros Hk; simpl.
  - constructor; [intros [] | constructor].
  - constructor.
    + rewrite in_app_iff. intros [H | [H | []]]; [contradiction|].
      subst x. apply Hk. left. reflexivity.
    + apply IH. intros H. apply Hk. right. exact H.
Qed.

Lemma nodup_omap_set {V} (k : string) (v : V) (m : omap V) :
  List.NoDup (map fst m) -> List.NoDup (map fst (omap_set k v m)).
Proof.
  intros H. rewrite keys_omap_set.
  destruct (existsb (String.eqb k) (map fst m)) eqn:E; [exact H|].
  apply nodup_snoc; [exact H|].
  intros Hin. apply existsb_eqb_in in Hin. congruence.
Qed.

Lemma keys_filter_incl {V} (f : string * V -> bool) (m : omap V) (k : string) :
  In k (map fst (List.filter f m)) -> In k (map fst m).
Proof.
  rewrite !in_map_iff. intros (x & E & Hx). apply filter_In in Hx as [Hx _]. eauto.
Qed.

Lemma nodup_filter {V} (f : string * V -> bool) (m : omap V) :
  List.NoDup (map fst m) -> List.NoDup (map fst (List.filter f m)).
Proof.
  induction m as [|[k0 v0] m IH]; simpl; intros H; [exact H|].
  inversion H as [|? ? Hk Hm]; subst.
  destruct (f (k0, v0)); simpl; [|apply IH, Hm].
  constructor; [|apply IH, Hm].
  intros Hin. apply Hk. eapply keys_filter_incl, Hin.
Qed.

Lemma keys_delete_incl {V} (k k' : string) (m : omap V) :
  In k' (map fst (omap_delete k m)) -> In k' (map fst m).
Proof.
  induction m as [|[k0 v0] m IH]; simpl; [tauto|].
  destruct (String.eqb k k0); simpl; [tauto|].
  intros [H | H]; [left; exact H | right; apply IH, H].
Qed.

Lemma nodup_delete {V} (k : string) (m : omap V) :
  List.NoDup (map fst m) -> List.NoDup (map fst (omap_delete k m)).
Proof.
  induction m as [|[k0 v0] m IH]; simpl; intros H; [exact H|].
  inversion H as [|? ? Hk Hm]; subst.
  destruct (String.eqb k k0); simpl; [exact Hm|].
  constructor; [|apply IH, Hm].
  intros Hin. apply Hk. eapply keys_delete_incl, Hin.
Qed.

Lemma omap_get_delete_eq {V} (k : string) (m : omap V) :
  List.NoDup (map fst m) -> omap_get k (omap_delete k m) = None.
Proof.
  induction m as [|[k0 v0] m IH]; simpl; intros H; [reflexivity|].
  inversion H as [|? ? Hk Hm]; subst.
  destruct (String.eqb k k0) eqn:E.
  - apply String.eqb_eq in E. subst k0. apply omap_get_not_key, Hk.
  - simpl. rewrite E. apply IH, Hm.
Qed.

Lemma nodup_cleanupCache now cache :
  List.NoDup (map fst cache) -> List.NoDup (map fst (cleanupCache now cache)).
Proof.
  intros H. unfold cleanupCache.
  match goal with |- context [List.filter ?f cache] =>
    pose proof (nodup_filter f cache H) as Hf;
    destruct (100 <? length (List.filter f cache))%nat; [|exact Hf];
    destruct (omap_first_key (List.filter f cache)) as [oldest|]; [|exact Hf]
  end.
  destruct (truthy oldest); [apply nodup_delete, Hf | exact Hf].
Qed.

Lemma session_run_nodup cfg es : forall st,
  List.NoDup (map fst (localsCache (fst st))) ->
  List.NoDup (map fst (localsCache (fst (session_run cfg es st)))).
Proof.
  induction es as [|e es IH]; intros st H; simpl; [exact H|].
  apply IH. destruct st as [m conn]. cbn [fst] in H.
  destruct e as [p | error now]; cbn [session_step fst snd].
  - destruct (handlePaused_caches cfg (p_heap p) (p_throws p) (p_now p) (p_settled p)
                (p_iso p) (p_event p) m conn) as [[-> | [e ->]] _]; [exact H|].
    apply nodup_cleanupCache, nodup_omap_set, H.
  - destruct (getLocalsForError_caches error now m) as [[-> | [k ->]] _]; [exact H|].
    apply nodup_delete, H.
Qed.

(** X9. Cached locals are handed out once: in any state the session can
    reach, when [getLocalsForError] returns the locals cached for an error,
    asking again for the same error returns nothing, at whatever time. *)
Theorem cached_locals_given_once (cfg : AgentConfig) (es : list SessionEvent)
    (m0 : InspectorManager) (conn0 : Transport.BackendConnection)
    (error : JSError) (t t' : Z) :
  localsCache m0 = [] ->
  let m := fst (session_run cfg es (m0, conn0)) in
  fst (getLocalsForError error t m) <> None ->
  fst (getLocalsForError error t' (snd (getLocalsForError error t m))) = None.
Proof.
  intros H0 m.
  assert (Hnd : List.NoDup (map fst (localsCache m))).
  { apply (session_run_nodup cfg es (m0, conn0)). cbn [fst]. rewrite H0. constructor. }
  unfold getLocalsForError.
  destruct (err_stack error) as [stack|]; [|intros H; contradiction].
  destruct (truthy stack); cbn [negb]; [|intros H; contradiction].
  destruct (omap_get (error_stack_key stack) (localsCache m)) as [cached|] eqn:G;
    [|intros H; contradiction].
  destruct (t - timestamp cached <? cacheMaxAge); [|intros H; contradiction].
  intros _. cbn [snd localsCache set_localsCache].
  rewrite omap_get_delete_eq by exact Hnd. reflexivity.
Qed.

Lemma cached_locals_given_once_witness :
  localsCache manager0 = []
  /\ fst (getLocalsForError boom_error (t0 + 50)
            (fst (session_run cfg0 [SePause boom_pause]
                    (manager0, Transport.new_BackendConnection)))) <> None
  /\ fst (getLocalsForError boom_error (t0 + 60)
            (snd (getLocalsForError boom_error (t0 + 50)
                    (fst (session_run cfg0 [SePause boom_pause]
                            (manager0, Transport.new_BackendConnection)))))) = None.
Proof.
  assert (N : fst (getLocalsForError boom_error (t0 + 50)
                     (fst (session_run cfg0 [SePause boom_pause]
                             (manager0, Transport.new_BackendConnection)))) <> None)
    by (vm_compute; discriminate).
  split; [reflexivity|]. split; [exact N|].
  exact (cached_locals_given_once cfg0 [SePause boom_pause] manager0
           Transport.new_BackendConnection boom_error (t0 + 50) (t0 + 60) eq_refl N).
Defined.

(** ** The rate limiter *)

Lemma handlePaused_rate cfg heap throws now now' iso event m conn :
  session m = true -> exception_pause event ->
  let m' := fst (handlePaused cfg heap throws now now' iso event (m, conn)) in
  rateLimitCount m' = (if rateLimitReset m <? now then 0 else rateLimitCount m) + 1
  /\ rateLimitReset m' = (if rateLimitReset m <? now then now + 1000 else rateLimitReset m)
  /\ session m' = true.
Proof.
  intros Hs He. unfold handlePaused.
  rewrite Hs, (exception_pause_eqb event He). cbn [negb].
  destruct (rateLimitReset m <? now);
    cbn [rateLimitCount set_rateLimit rateLimitReset];
    match goal with |- context [rateLimitMax <? ?x] => destruct (rateLimitMax <? x) end;
    unfold post, harvest, captureAndCacheLocals;
    destruct throws, (String.eqb (reason event) "exception"); simpl;
    rewrite Hs; simpl; repeat split; exact Hs.
Qed.

Lemma pause_run_window cfg ps : forall m conn,
  session m = true ->
  Forall (fun p => exception_pause (p_event p) /\ p_now p <= rateLimitReset m) ps ->
  let m' := fst (pause_run cfg ps (m, conn)) in
  rateLimitCount m' = rateLimitCount m + Z.of_nat (length ps)
  /\ rateLimitReset m' = rateLimitReset m
  /\ session m' = true
  /\ resumes m' = (resumes m + length ps)%nat.
Proof.
  induction ps as [|p ps IH]; intros m conn Hs Hall.
  - simpl. repeat split; try lia. exact Hs.
  - inversion Hall as [|? ? [Hp Hnow] Hrest]; subst.
    cbn [pause_run fold_left].
    destruct (handlePaused_exception cfg (p_heap p) (p_throws p) (p_now p) (p_settled p)
                (p_iso p) (p_event p) m conn Hs Hp) as (m1 & E & Hposted & _).
    pose proof (handlePaused_rate cfg (p_heap p) (p_throws p) (p_now p) (p_settled p)
                  (p_iso p) (p_event p) m conn Hs Hp) as R.
    cbv zeta in R. rewrite E in R |- *. cbn [fst] in R. destruct R as (Rc & Rr & Rs).
    replace (rateLimitReset m <? p_now p) with false in Rc, Rr
      by (symmetry; apply Z.ltb_ge; exact Hnow).
    destruct (IH m1 conn Rs) as (A & B & C & D).
    + rewrite Rr. exact Hrest.
    + assert (Hres : resumes m1 = S (resumes m)).
      { unfold resumes. rewrite Hposted, List.filter_app, length_app. simpl. lia. }
      unfold pause_run in *. rewrite A, B, D, Rc, Rr, Hres.
      cbn [length]. repeat split; try exact C; lia.
Qed.

(** X10. Exception pauses that arrive before the current one-second window
    ends each add one to the window's count and each get their resume; once
    the count has reached 50, every further exception pause before the end of
    the window is turned away by the rate limiter, and the first pause after
    the end of the window is let through again. *)
Theorem rate_limit_window (cfg : AgentConfig) (ps : list Pause)
    (m : InspectorManager) (conn : Transport.BackendConnection) (now : Z) :
  session m = true ->
  Forall (fun p => exception_pause (p_event p) /\ p_now p <= rateLimitReset m) ps ->
  let m' := fst (pause_run cfg ps (m, conn)) in
  rateLimitCount m' = rateLimitCount m + Z.of_nat (length ps)
  /\ resumes m' = (resumes m + length ps)%nat
  /\ (now <= rateLimitReset m ->
      rate_limited now m' = (50 <=? rateLimitCount m + Z.of_nat (length ps)))
  /\ (rateLimitReset m < now -> rate_limited now m' = false).
Proof.
  intros Hs Hall m'.
  destruct (pause_run_window cfg ps m conn Hs Hall) as (A & B & _ & D).
  fold m' in A, B, D. split; [exact A|]. split; [exact D|].
  unfold rate_limited, rateLimitMax. rewrite A, B. split; intros H.
  - replace (rateLimitReset m <? now) with false by (symmetry; apply Z.ltb_ge; exact H).
    destruct (50 <=? rateLimitCount m + Z.of_nat (length ps)) eqn:E.
    + apply Z.leb_le in E. apply Z.ltb_lt. lia.
    + apply Z.leb_gt in E. apply Z.ltb_ge. lia.
  - replace (rateLimitReset m <? now) with true by (symmetry; apply Z.ltb_lt; exact H).
    reflexivity.
Qed.

Lemma rate_limit_window_witness :
  session (fst after_boom) = true
  /\ Forall (fun p => exception_pause (p_event p)
                      /\ p_now p <= rateLimitReset (fst after_boom))
            (repeat boom_pause 49)
  /\ rate_limited (t0 + 500)
       (fst (pause_run cfg0 (repeat boom_pause 49) after_boom)) = true.
Proof.
  assert (F : Forall (fun p => exception_pause (p_event p)
                               /\ p_now p <= rateLimitReset (fst after_boom))
                     (repeat boom_pause 49)).
  { apply List.Forall_forall. intros p Hp. apply repeat_spec in Hp. subst p.
    split; [left; reflexivity | vm_compute; discriminate]. }
  assert (T : t0 + 500 <= rateLimitReset (fst after_boom)) by (vm_compute; discriminate).
  assert (S : session (fst after_boom) = true) by (vm_compute; reflexivity).
  split; [exact S|]. split; [exact F|].
  destruct (rate_limit_window cfg0 (repeat boom_pause 49) (fst after_boom)
              (snd after_boom) (t0 + 500) S F) as (_ & _ & H & _).
  rewrite <- surjective_pairing in H.
  rewrite (H T). vm_compute. reflexivity.
Defined.

End DedupAndCache.
